(** * Retrieval and session-memory core: a shallow embedding

    The Python sources [document_handler.py], [smart_document_handler.py],
    [memory_manager.py] and [config.py] are embedded as functions over
    explicit state.  A Python [str] is the list of its Unicode code points,
    a [dict] whose iteration order matters is an association list in
    insertion order, a [dict] used only as a map is a [gmap]. *)

From Stdlib Require Import ZArith NArith Ascii String DecimalString.
From stdpp Require Import base option list sorting gmap.

Local Open Scope Z_scope.
Set Warnings "-register-all,-clear-no-such-hyp".

(** ** Python strings *)

Abbreviation str := (list N).

Module Py.

(** A source literal, written in UTF-8, as a Python [str]. *)
Fixpoint utf8_decode (bs : list N) : str :=
  match bs with
  | [] => []
  | b :: t =>
      if (b <? 128)%N then b :: utf8_decode t
      else if (b <? 224)%N then
        match t with
        | b1 :: t1 => ((b - 192) * 64 + (b1 - 128))%N :: utf8_decode t1
        | _ => []
        end
      else if (b <? 240)%N then
        match t with
        | b1 :: b2 :: t2 =>
            ((b - 224) * 4096 + (b1 - 128) * 64 + (b2 - 128))%N
              :: utf8_decode t2
        | _ => []
        end
      else
        match t with
        | b1 :: b2 :: b3 :: t3 =>
            ((b - 240) * 262144 + (b1 - 128) * 4096 + (b2 - 128) * 64
             + (b3 - 128))%N :: utf8_decode t3
        | _ => []
        end
  end.

Definition text (s : string) : str :=
  utf8_decode (N_of_ascii <$> list_ascii_of_string s).

(** [str.isspace] on one code point (the Unicode white-space set CPython
    uses for [split()] and [strip()]). *)
Definition isspace (c : N) : bool :=
  ((9 <=? c) && (c <=? 13) || (28 <=? c) && (c <=? 32)
   || (c =? 133) || (c =? 160) || (c =? 5760)
   || (8192 <=? c) && (c <=? 8202)
   || (c =? 8232) || (c =? 8233) || (c =? 8239) || (c =? 8287)
   || (c =? 12288))%N.

(** [s.startswith(p)]. *)
Fixpoint startswith (p s : str) : bool :=
  match p, s with
  | [], _ => true
  | _ :: _, [] => false
  | a :: p', b :: s' => (a =? b)%N && startswith p' s'
  end.

(** [needle in hay]. *)
Fixpoint contains (needle hay : str) : bool :=
  startswith needle hay ||
  match hay with
  | [] => false
  | _ :: t => contains needle t
  end.

(** [hay.find(needle)], the scan starting at offset [i]; -1 when absent. *)
Fixpoint find_from (needle hay : str) (i : Z) : Z :=
  if startswith needle hay then i
  else match hay with
       | [] => -1
       | _ :: t => find_from needle t (i + 1)
       end.

Definition find (needle hay : str) : Z := find_from needle hay 0.

(** [hay.count(needle)] for a non-empty needle: occurrences are counted
    left to right without overlap; [skip] is the number of code points
    still covered by the occurrence just counted. *)
Fixpoint count_from (needle : str) (skip : nat) (hay : str) : nat :=
  match hay with
  | [] => O
  | _ :: t =>
      match skip with
      | S k => count_from needle k t
      | O => if startswith needle hay
             then S (count_from needle (length needle - 1) t)
             else count_from needle 0 t
      end
  end.

(** [hay.count(needle)]; the empty needle occurs [len(hay) + 1] times. *)
Definition count (needle hay : str) : nat :=
  match needle with
  | [] => S (length hay)
  | _ => count_from needle 0 hay
  end.

(** [l[lo:hi]] with Python's treatment of negative and out-of-range bounds. *)
Definition norm_index (len i : Z) : Z :=
  if i <? 0 then Z.max 0 (len + i) else Z.min len i.

Definition slice {A} (lo hi : Z) (l : list A) : list A :=
  let len := Z.of_nat (length l) in
  let lo' := norm_index len lo in
  let hi' := norm_index len hi in
  take (Z.to_nat (hi' - lo')) (drop (Z.to_nat lo') l).

(** [l[:hi]]. *)
Definition slice_to {A} (hi : Z) (l : list A) : list A :=
  take (Z.to_nat (norm_index (Z.of_nat (length l)) hi)) l.

(** [l[lo:]]. *)
Definition slice_from {A} (lo : Z) (l : list A) : list A :=
  drop (Z.to_nat (norm_index (Z.of_nat (length l)) lo)) l.

(** [s.lstrip()], [s.rstrip()], [s.strip()]. *)
Fixpoint lstrip (s : str) : str :=
  match s with
  | c :: t => if isspace c then lstrip t else s
  | [] => []
  end.

Definition rstrip (s : str) : str := reverse (lstrip (reverse s)).

Definition strip (s : str) : str := rstrip (lstrip s).

(** [s.split()]: maximal runs of non-space code points.  [cur] is the word
    being read, in reverse. *)
Fixpoint split_from (cur : str) (s : str) : list str :=
  match s with
  | [] => match cur with [] => [] | _ => [reverse cur] end
  | c :: t =>
      if isspace c
      then match cur with
           | [] => split_from [] t
           | _ => reverse cur :: split_from [] t
           end
      else split_from (c :: cur) t
  end.

Definition split (s : str) : list str := split_from [] s.

(** [sep.join(ws)]. *)
Fixpoint join (sep : str) (ws : list str) : str :=
  match ws with
  | [] => []
  | [w] => w
  | w :: rest => w ++ sep ++ join sep rest
  end.

(** [list.sort(key=..., reverse=True)]: a stable sort, largest key first.
    The list is rebuilt from its end, so an element goes in front of the
    first element whose key is not larger than its own: among equal keys
    the earlier element stays first. *)
Section Sort.
Context {A : Type} (key : A → nat).

Fixpoint insert_desc (x : A) (l : list A) : list A :=
  match l with
  | [] => [x]
  | y :: t => if (key x <? key y)%nat then y :: insert_desc x t
              else x :: l
  end.

Definition sort_desc (l : list A) : list A :=
  foldr insert_desc [] l.

End Sort.

End Py.

(** ** Python values

    What [json.load] and [json.loads] produce, and what the handlers keep
    in their dictionaries.  JSON numbers with a fraction are outside the
    model. *)

Inductive value :=
| VNone
| VBool (b : bool)
| VInt (n : Z)
| VStr (s : str)
| VList (l : list value)
| VDict (kv : list (str * value)).

Abbreviation pydict := (list (str * value)).

(** [d.get(k)] on a dictionary kept in insertion order. *)
Fixpoint dict_get {V} (k : str) (d : list (str * V)) : option V :=
  match d with
  | [] => None
  | (k', v) :: rest => if decide (k = k') then Some v else dict_get k rest
  end.

(** [d[k] = v]: an existing key keeps its position, a new one goes last. *)
Fixpoint dict_set {V} (k : str) (v : V) (d : list (str * V)) : list (str * V) :=
  match d with
  | [] => [(k, v)]
  | (k', v') :: rest =>
      if decide (k = k') then (k, v) :: rest else (k', v') :: dict_set k v rest
  end.

(** [{**base, **extra}]. *)
Definition dict_merge {V} (base extra : list (str * V)) : list (str * V) :=
  foldl (λ d kv, dict_set kv.1 kv.2 d) base extra.

(** Truth value of a Python value in a condition. *)
Definition truthy (v : value) : bool :=
  match v with
  | VNone => false
  | VBool b => b
  | VInt n => negb (n =? 0)
  | VStr s => match s with [] => false | _ => true end
  | VList l => match l with [] => false | _ => true end
  | VDict kv => match kv with [] => false | _ => true end
  end.

(** Hashable values: the keys of a [dict] and the members of a [set].
    Python's [==] identifies [True] with 1 and [False] with 0, and a
    [set] or [dict] finds a key up to [==]: by [canon], the integer that
    stands for a Boolean.  A [dict] keeps the key object inserted first,
    so a product cached under [True] is listed under [True]. *)
Inductive pykey :=
| KNone
| KBool (b : bool)
| KInt (n : Z)
| KStr (s : str).

Definition canon (k : pykey) : pykey :=
  match k with
  | KBool b => KInt (if b then 1 else 0)
  | _ => k
  end.

(** The key object of a value; lists and dictionaries cannot be hashed. *)
Definition key_of (v : value) : option pykey :=
  match v with
  | VNone => Some KNone
  | VBool b => Some (KBool b)
  | VInt n => Some (KInt n)
  | VStr s => Some (KStr s)
  | VList _ | VDict _ => None
  end.

#[global] Instance pykey_eq_dec : EqDecision pykey.
Proof. solve_decision. Defined.

(** [hash(v)] succeeds on scalars and raises [TypeError] on lists and
    dictionaries; the result stands for the class of [v] under [==]. *)
Definition hash_key (v : value) : option pykey :=
  match v with
  | VNone => Some KNone
  | VBool b => Some (KInt (if b then 1 else 0))
  | VInt n => Some (KInt n)
  | VStr s => Some (KStr s)
  | VList _ | VDict _ => None
  end.

Definition key_value (k : pykey) : value :=
  match k with
  | KNone => VNone
  | KBool b => VBool b
  | KInt n => VInt n
  | KStr s => VStr s
  end.

#[global] Instance pykey_countable : Countable pykey.
Proof.
  refine (inj_countable'
    (λ k, match k with
          | KNone => inl ()
          | KBool b => inr (inl b)
          | KInt n => inr (inr (inl n))
          | KStr s => inr (inr (inr s))
          end)
    (λ x, match x with
          | inl _ => KNone
          | inr (inl b) => KBool b
          | inr (inr (inl n)) => KInt n
          | inr (inr (inr s)) => KStr s
          end) _).
  by intros [].
Defined.

(** The parts of the Python runtime the handlers call and this
    development does not spell out: Unicode lower-casing ([str.lower]),
    [json.dumps(v, ensure_ascii=False)], [json.loads] ([None] where it
    raises) and [str()] of a value as an f-string inserts it. *)
Class Runtime := {
  lower : str → str;
  json_dumps : value → str;
  json_loads : str → option value;
  format_value : value → str;
}.

(** [list(set(l))]: the members of [l], each once, in the order the hash
    table yields them.  The order depends on the interpreter's hash seed;
    only what every order satisfies is assumed. *)
Class HashOrder := {
  set_iter : list str → list str;
  set_iter_perm : ∀ l, set_iter l ≡ₚ remove_dups l;
}.

(** ** document_handler.py *)

Module DocumentHandler.

Inductive doctype := text | json | csv | pdf.

(** One value of [self.documents]; the search reads ['filename'],
    ['type'] and ['content']. *)
Record document := {
  doc_filename : str;
  doc_filepath : str;
  doc_type : doctype;
  doc_content : str;
}.

(** One result of [search_in_documents]. *)
Record hit := {
  hit_document : str;
  hit_filename : str;
  hit_type : doctype;
  hit_snippet : str;
  hit_relevance : nat;
}.

(** [self.documents] and [self.products_cache], in insertion order. *)
Record handler := {
  documents : list (str * document);
  products_cache : list (pykey * pydict);
}.

(** [_load_txt] once the file has been read: [stem] and [name] are
    [file_path.stem] and [file_path.name]. *)
Definition load_txt (stem name path content : str) (h : handler) : handler :=
  {| documents :=
       dict_set stem {| doc_filename := name; doc_filepath := path;
                        doc_type := text; doc_content := content |}
                (documents h);
     products_cache := products_cache h |}.

Section Search.
Context `{!Runtime}.

(** The dictionary appended to [results] for a matching document. *)
Definition make_hit (query_lower doc_name : str) (doc_data : document) : hit :=
  let content := doc_content doc_data in
  let content_lower := lower content in
  let index := Py.find query_lower content_lower in
  let start := Z.max 0 (index - 200) in
  let end_ := Z.min (Z.of_nat (length content)) (index + 200) in
  let snippet := Py.slice start end_ content in
  {| hit_document := doc_name;
     hit_filename := doc_filename doc_data;
     hit_type := doc_type doc_data;
     hit_snippet := Py.strip snippet;
     hit_relevance := Py.count query_lower content_lower |}.

(** The loop over [self.documents.items()]. *)
Fixpoint collect_hits (query_lower : str) (items : list (str * document))
    (results : list hit) : list hit :=
  match items with
  | [] => results
  | (doc_name, doc_data) :: rest =>
      if Py.contains query_lower (lower (doc_content doc_data))
      then collect_hits query_lower rest
             (results ++ [make_hit query_lower doc_name doc_data])
      else collect_hits query_lower rest results
  end.

Definition search_in_documents (h : handler) (query : str) (limit : Z)
    : list hit :=
  let query_lower := lower query in
  let results := collect_hits query_lower (documents h) [] in
  let results := Py.sort_desc hit_relevance results in
  Py.slice_to limit results.

(** The dictionary [{'id': product_id, **product_data}]. *)
Definition product_hit (product_id : pykey) (product_data : pydict) : pydict :=
  dict_merge [(Py.text "id", key_value product_id)] product_data.

(** The loop over [self.products_cache.items()]; the length test runs
    at the end of every iteration. *)
Fixpoint products_loop (query_lower : str) (limit : Z)
    (items : list (pykey * pydict)) (results : list pydict) : list pydict :=
  match items with
  | [] => results
  | (product_id, product_data) :: rest =>
      let text_to_search := lower (json_dumps (VDict product_data)) in
      let results :=
        if Py.contains query_lower text_to_search
        then results ++ [product_hit product_id product_data]
        else results in
      if limit <=? Z.of_nat (length results) then results
      else products_loop query_lower limit rest results
  end.

Definition search_products (h : handler) (query : str) (limit : Z)
    : list pydict :=
  products_loop (lower query) limit (products_cache h) [].

End Search.

Definition list_all_documents (h : handler) : list str := (documents h).*1.

Definition get_document (doc_name : str) (h : handler) : option document :=
  dict_get doc_name (documents h).

(** The literals of [get_relevant_context]. *)
Definition documents_header : str :=
  concat [Py.text "THÔNG TIN TỪ TÀI LIỆU:"; [10%N]; [10%N]].

Definition products_header : str :=
  concat [Py.text "THÔNG TIN SẢN PHẨM:"; [10%N]; [10%N]].

Definition not_found : str :=
  concat [Py.text "Không tìm thấy thông tin liên quan trong tài liệu."].

Section RelevantContext.
Context `{!Runtime}.

(** The text appended for one document result. *)
Definition render_result (result : hit) : str :=
  Py.text "[" ++ hit_filename result ++ Py.text "]" ++ [10%N]
  ++ hit_snippet result ++ [10%N; 10%N].

(** The text appended for one product: its name, or else its id, then
    every field but ['id'] and ['name']. *)
Definition render_product (product : pydict) : str :=
  Py.text "- "
  ++ format_value
       (default (default VNone (dict_get (Py.text "id") product))
                (dict_get (Py.text "name") product))
  ++ Py.text ":" ++ [10%N]
  ++ concat
       ((λ kv : str * value,
           if decide (kv.1 ∈ [Py.text "id"; Py.text "name"]) then []
           else Py.text "  " ++ kv.1 ++ Py.text ": " ++ format_value kv.2
                ++ [10%N])
        <$> product)
  ++ [10%N].

Definition get_relevant_context (h : handler) (query : str) (max_length : Z)
    : str :=
  let doc_results := search_in_documents h query 3 in
  let product_results := search_products h query 3 in
  let context := [] in
  let context :=
    match doc_results with
    | [] => context
    | _ => context ++ documents_header ++ concat (render_result <$> doc_results)
    end in
  let context :=
    match product_results with
    | [] => context
    | _ => context ++ products_header
           ++ concat (render_product <$> product_results)
    end in
  let context :=
    if max_length <? Z.of_nat (length context)
    then Py.slice_to max_length context ++ Py.text "..."
    else context in
  match context with
  | [] => not_found
  | _ => context
  end.

End RelevantContext.

End DocumentHandler.


(** ** config.py *)

Module Config.

(** The settings read from the environment when the module is imported. *)
Class t := { MAX_CONVERSATION_HISTORY : Z }.

(** [int(os.getenv("MAX_CONVERSATION_HISTORY", 30))] with the variable
    unset. *)
Definition defaults : t := {| MAX_CONVERSATION_HISTORY := 30 |}.

End Config.

(** Exceptions the embedded code can raise. *)
Inductive exn :=
| KeyError (k : str)
| TypeError
| AttributeError
| OverflowError.

Inductive result (A : Type) :=
| Ok (a : A)
| Raise (e : exn).
Arguments Ok {A} a.
Arguments Raise {A} e.

#[global] Instance exn_eq_dec : EqDecision exn.
Proof. solve_decision. Defined.

#[global] Instance result_eq_dec {A} `{EqDecision A} : EqDecision (result A).
Proof. solve_decision. Defined.

(** [if s:] for an optional string: [None] and [''] are false. *)
Definition nonempty (s : option str) : option str :=
  match s with
  | Some (c :: r) => Some (c :: r)
  | _ => None
  end.

(** ** document_handler.py: the loaders

    A file is given by its path and by what each reader yields on it:
    [f.read()] of the file opened as UTF-8, [json.load(f)], the rows
    [csv.DictReader(f)] yields (and whether it reaches the end of the
    file without raising), and the [extract_text()] of the pages
    [PyPDF2.PdfReader] finds; [None] where opening, decoding, parsing or
    the import raises. *)

Module Loaders.
Import DocumentHandler.

Record file := {
  file_stem : str;
  file_name : str;
  file_path : str;
  file_suffix : str;
  read_text : option str;
  json_load : option value;
  csv_rows : list pydict;
  csv_complete : bool;
  pdf_pages : option (list str);
}.

(** [json.dumps(v, ensure_ascii=False, indent=2)]. *)
Class Indent := { json_dumps_indent : value → str }.

(** [self.products_cache[k] = v]: a key equal to [k] keeps its place and
    its own key object, a new key goes last. *)
Fixpoint cache_set (k : pykey) (v : pydict) (cache : list (pykey * pydict))
    : list (pykey * pydict) :=
  match cache with
  | [] => [(k, v)]
  | (k', v') :: rest =>
      if decide (canon k = canon k') then (k', v) :: rest
      else (k', v') :: cache_set k v rest
  end.

(** [self.products_cache.get(k)]. *)
Fixpoint cache_get (k : pykey) (cache : list (pykey * pydict)) : option pydict :=
  match cache with
  | [] => None
  | (k', v) :: rest =>
      if decide (canon k = canon k') then Some v else cache_get k rest
  end.

Definition is_str (k : str) (v : value) : bool :=
  match v with
  | VStr s => bool_decide (s = k)
  | _ => false
  end.

(** [k in item]: a key of a dictionary, a member of a list, a substring
    of a string; [TypeError] on [None], booleans and numbers. *)
Definition has_key (k : str) (item : value) : result bool :=
  match item with
  | VDict d => Ok (bool_decide (is_Some (dict_get k d)))
  | VList l => Ok (existsb (is_str k) l)
  | VStr s => Ok (Py.contains k s)
  | VNone | VBool _ | VInt _ => Raise TypeError
  end.

(** [key = item.get('id', item.get('name'))] and
    [self.products_cache[key] = item]: only a dictionary has [get], and
    the key is hashed. *)
Definition store_product (item : value) (cache : list (pykey * pydict))
    : result (list (pykey * pydict)) :=
  match item with
  | VDict d =>
      let key := default (default VNone (dict_get (Py.text "name") d))
                         (dict_get (Py.text "id") d) in
      match key_of key with
      | Some k => Ok (cache_set k d cache)
      | None => Raise TypeError
      end
  | _ => Raise AttributeError
  end.

(** [for item in data: if 'id' in item or 'name' in item: ...]; what the
    loop stored before an exception stays in the cache. *)
Fixpoint load_items (items : list value) (cache : list (pykey * pydict))
    : result unit * list (pykey * pydict) :=
  match items with
  | [] => (Ok (), cache)
  | item :: rest =>
      let named :=
        match has_key (Py.text "id") item with
        | Ok false => has_key (Py.text "name") item
        | r => r
        end in
      match named with
      | Raise e => (Raise e, cache)
      | Ok false => load_items rest cache
      | Ok true =>
          match store_product item cache with
          | Ok cache => load_items rest cache
          | Raise e => (Raise e, cache)
          end
      end
  end.

(** [for item in data['products']: ...], which stores every item. *)
Fixpoint load_products (items : list value) (cache : list (pykey * pydict))
    : result unit * list (pykey * pydict) :=
  match items with
  | [] => (Ok (), cache)
  | item :: rest =>
      match store_product item cache with
      | Ok cache => load_products rest cache
      | Raise e => (Raise e, cache)
      end
  end.

(** What a [for] loop over a JSON value visits: the members of a list,
    the keys of a dictionary, the characters of a string. *)
Definition iterate (v : value) : result (list value) :=
  match v with
  | VList l => Ok l
  | VDict kv => Ok (VStr <$> kv.*1)
  | VStr s => Ok ((λ c, VStr [c]) <$> s)
  | VNone | VBool _ | VInt _ => Raise TypeError
  end.

(** [str(n)] for a natural number. *)
Definition decimal (n : nat) : str :=
  Py.text (NilZero.string_of_uint (Nat.to_uint n)).

Section Loading.
Context `{!Runtime} `{!Indent}.

(** [_load_json] once [json.load] has returned [data]: the document is
    stored first, then the products; the result tells whether the product
    loop raised. *)
Definition _load_json (stem name path : str) (data : value) (h : handler)
    : result unit * handler :=
  let content_str := json_dumps_indent data in
  let docs :=
    dict_set stem {| doc_filename := name; doc_filepath := path;
                     doc_type := json; doc_content := content_str |}
             (documents h) in
  let '(r, cache) :=
    match data with
    | VList items => load_items items (products_cache h)
    | VDict d =>
        match dict_get (Py.text "products") d with
        | Some products =>
            match iterate products with
            | Ok items => load_products items (products_cache h)
            | Raise e => (Raise e, products_cache h)
            end
        | None => (Ok (), products_cache h)
        end
    | _ => (Ok (), products_cache h)
    end in
  (r, {| documents := docs; products_cache := cache |}).

(** [_load_csv]: the products of the rows read are stored while reading;
    the document is stored after the last row, unless the reader or the
    loop raised.  The result tells whether it returned. *)
Definition _load_csv (stem name path : str) (rows : list pydict)
    (complete : bool) (h : handler) : bool * handler :=
  let '(r, cache) := load_items (VDict <$> rows) (products_cache h) in
  match r, complete with
  | Ok _, true =>
      let content_str := json_dumps_indent (VList (VDict <$> rows)) in
      (true,
       {| documents :=
            dict_set stem {| doc_filename := name; doc_filepath := path;
                             doc_type := csv; doc_content := content_str |}
                     (documents h);
          products_cache := cache |})
  | _, _ => (false, {| documents := documents h; products_cache := cache |})
  end.

(** The text of one page of a PDF file, after its heading. *)
Definition page_text (page_num : nat) (page : str) : str :=
  [10%N] ++ Py.text "--- Trang " ++ decimal (page_num + 1) ++ Py.text " ---"
  ++ [10%N] ++ page ++ [10%N].

(** [_load_pdf] catches every exception itself and then stores nothing. *)
Definition _load_pdf (stem name path : str) (pages : option (list str))
    (h : handler) : handler :=
  match pages with
  | Some pages =>
      let text := concat (imap page_text pages) in
      {| documents :=
           dict_set stem {| doc_filename := name; doc_filepath := path;
                            doc_type := pdf; doc_content := text |}
                    (documents h);
         products_cache := products_cache h |}
  | None => h
  end.

(** The body of the loop of [load_all_documents]: the loader is chosen by
    the lower-cased extension, and an exception of a loader is logged and
    dropped. *)
Definition load_file (f : file) (h : handler) : handler :=
  let ext := lower (file_suffix f) in
  if decide (ext = Py.text ".txt") then
    match read_text f with
    | Some content =>
        load_txt (file_stem f) (file_name f) (file_path f) content h
    | None => h
    end
  else if decide (ext = Py.text ".json") then
    match json_load f with
    | Some data =>
        (_load_json (file_stem f) (file_name f) (file_path f) data h).2
    | None => h
    end
  else if decide (ext = Py.text ".csv") then
    (_load_csv (file_stem f) (file_name f) (file_path f)
               (csv_rows f) (csv_complete f) h).2
  else if decide (ext = Py.text ".pdf") then
    _load_pdf (file_stem f) (file_name f) (file_path f) (pdf_pages f) h
  else h.

(** [load_all_documents] on the regular files found, in the order
    [rglob] lists them: both caches are cleared first. *)
Definition load_all_documents (files : list file) (h : handler) : handler :=
  foldl (λ h f, load_file f h)
        {| documents := []; products_cache := [] |} files.

End Loading.

End Loaders.

(** ** memory_manager.py *)

Module MemoryManager.
Import Config.

(** One message entry.  [timestamp] stands for the ISO string of
    [datetime.now()], kept as the instant it denotes, in microseconds;
    [datetime.fromisoformat] reads back that instant. *)
Record entry := {
  role : str;
  content : str;
  timestamp : Z;
}.

(** [self.memory]: [memory[session_id][agent_type] = [messages]]. *)
Abbreviation memory := (gmap str (gmap str (list entry))).

Definition new_session : gmap str (list entry) :=
  <[Py.text "phanloai" := []]>
    (<[Py.text "create_order" := []]>
       (<[Py.text "consulting" := []]> ∅)).

Definition _ensure_session (session_id : str) (mem : memory) : memory :=
  match mem !! session_id with
  | Some _ => mem
  | None => <[session_id := new_session]> mem
  end.

Definition get_history (session_id : option str) (agent : str)
    (mem : memory) : result (list entry) * memory :=
  match nonempty session_id with
  | None => (Ok [], mem)
  | Some sid =>
      let mem := _ensure_session sid mem in
      match mem !! sid with
      | None => (Raise (KeyError sid), mem)
      | Some agents => (Ok (default [] (agents !! agent)), mem)
      end
  end.

Section AddMessage.
Context `{!Config.t}.

(** [now] is the reading of [datetime.now()] taken by the call. *)
Definition add_message (now : Z) (session_id : option str)
    (agent role content : str) (mem : memory) : result () * memory :=
  match nonempty session_id with
  | None => (Ok (), mem)
  | Some sid =>
      let mem := _ensure_session sid mem in
      let entry := {| role := role; content := content; timestamp := now |} in
      match mem !! sid with
      | None => (Raise (KeyError sid), mem)
      | Some agents =>
          match agents !! agent with
          | None => (Raise (KeyError agent), mem)
          | Some log =>
              let log := log ++ [entry] in
              let log :=
                if MAX_CONVERSATION_HISTORY <? Z.of_nat (length log)
                then Py.slice_from (- MAX_CONVERSATION_HISTORY) log
                else log in
              (Ok (), <[sid := <[agent := log]> agents]> mem)
          end
      end
  end.

End AddMessage.

Definition clear_session (session_id : option str) (agent : option str)
    (mem : memory) : bool * memory :=
  match session_id ≫= (λ sid, (sid,.) <$> mem !! sid) with
  | None => (false, mem)
  | Some (sid, agents) =>
      match nonempty agent with
      | Some agent =>
          match agents !! agent with
          | Some _ => (true, <[sid := <[agent := []]> agents]> mem)
          | None => (false, mem)
          end
      | None => (true, delete sid mem)
      end
  end.

Definition get_active_sessions (mem : memory) : nat := size mem.

(** [timedelta(hours=h)] in microseconds.  A [timedelta] holds between
    -999999999 and 999999999 whole days; the constructor raises
    [OverflowError] for a number of hours that is outside. *)
Definition timedelta_hours (h : Z) : result Z :=
  if (-999999999 <=? h / 24) && (h / 24 <=? 999999999)
  then Ok (h * 3600000000)
  else Raise OverflowError.

(** The inner loop of [cleanup_old_sessions] over [agents.values()]. *)
Definition most_recent (agents : gmap str (list entry)) : option Z :=
  foldl (λ most_recent agent_messages,
           match last agent_messages with
           | None => most_recent
           | Some msg =>
               let last_msg_time := timestamp msg in
               match most_recent with
               | None => Some last_msg_time
               | Some t => if t <? last_msg_time then Some last_msg_time
                           else most_recent
               end
           end)
        None (map_to_list agents).*2.

(** The test that puts a session on [sessions_to_delete]:
    [most_recent and (current_time - most_recent) > timedelta(hours=...)].
    The [timedelta] is built only for a session that holds a message. *)
Definition is_old (current_time max_age_hours : Z)
    (agents : gmap str (list entry)) : result bool :=
  match most_recent agents with
  | Some t =>
      match timedelta_hours max_age_hours with
      | Ok age => Ok (age <? current_time - t)
      | Raise e => Raise e
      end
  | None => Ok false
  end.

(** The loop over [self.memory.items()] that fills [sessions_to_delete];
    an exception leaves it before anything is deleted. *)
Fixpoint collect_old (current_time max_age_hours : Z)
    (items : list (str * gmap str (list entry)))
    (sessions_to_delete : list str) : result (list str) :=
  match items with
  | [] => Ok sessions_to_delete
  | (session_id, agents) :: rest =>
      match is_old current_time max_age_hours agents with
      | Ok true =>
          collect_old current_time max_age_hours rest
            (sessions_to_delete ++ [session_id])
      | Ok false =>
          collect_old current_time max_age_hours rest sessions_to_delete
      | Raise e => Raise e
      end
  end.

Definition cleanup_old_sessions (current_time max_age_hours : Z)
    (mem : memory) : result nat * memory :=
  match collect_old current_time max_age_hours (map_to_list mem) [] with
  | Ok sessions_to_delete =>
      (Ok (length sessions_to_delete),
       foldl (λ m sid, delete sid m) mem sessions_to_delete)
  | Raise e => (Raise e, mem)
  end.

(** One value of [info['agents']]. *)
Record agent_info := {
  message_count : nat;
  last_message : option Z;
}.

(** The dictionary [get_session_info] returns; ['agents'] is absent when
    the session does not exist. *)
Record session_info := {
  info_exists : bool;
  info_session_id : option str;
  info_agents : option (gmap str agent_info);
}.

Definition get_session_info (session_id : option str) (mem : memory)
    : session_info :=
  match session_id ≫= λ sid, mem !! sid with
  | None =>
      {| info_exists := false; info_session_id := session_id;
         info_agents := None |}
  | Some agents =>
      {| info_exists := true; info_session_id := session_id;
         info_agents :=
           Some ((λ messages,
                    {| message_count := length messages;
                       last_message := timestamp <$> last messages |})
                 <$> agents) |}
  end.

End MemoryManager.

(** ** smart_document_handler.py *)

Module SmartDocumentHandler.
Import DocumentHandler.

(** What one call of [self.model.generate(...)] does: it returns a text
    or raises. *)
Inductive generated :=
| Returned (response : str)
| Failed.

(** [generate(system_prompt, user_input, temperature=0.3, max_tokens=256)]
    as a function of the two texts. *)
Abbreviation model_handler := (str → str → generated).

(** One value of [self.conversation_context]. *)
Record topic_context := {
  topic : value;
  entities : value;
}.

Record state := {
  base_handler : DocumentHandler.handler;
  model : option model_handler;
  conversation_context : gmap str topic_context;
}.

Definition set_context (ctx : gmap str topic_context) (st : state) : state :=
  {| base_handler := base_handler st; model := model st;
     conversation_context := ctx |}.

Definition dq : str := [34%N].
Definition nl : str := [10%N].

Definition system_prompt : str :=
  Py.text "Bạn là trợ lý phân tích câu hỏi. CHỈ trả về JSON.".

Definition prompt_head : str :=
  concat [
    Py.text "Phân tích câu hỏi của khách hàng và trích xuất thông tin tìm kiếm."; nl;
    nl;
    Py.text "Câu hỏi: "; dq
  ].

Definition prompt_tail : str :=
  concat [
    nl;
    nl;
    Py.text "Nhiệm vụ:"; nl;
    Py.text "1. Xác định chủ đề chính (sản phẩm nào? sơn 2K, sơn 1K, sơn dầu...)"; nl;
    Py.text "2. Xác định thông tin cần tìm (giá? thành phần? ứng dụng? cách dùng?)"; nl;
    Py.text "3. Tạo 3-5 search queries ngắn gọn để tìm trong tài liệu"; nl;
    nl;
    Py.text "Trả về ĐÚNG format JSON:"; nl;
    Py.text "{"; nl;
    Py.text "  "; dq; Py.text "main_topic"; dq; Py.text ": "; dq; Py.text "sơn 2K"; dq; Py.text ","; nl;
    Py.text "  "; dq; Py.text "question_type"; dq; Py.text ": "; dq; Py.text "ứng dụng"; dq; Py.text ","; nl;
    Py.text "  "; dq; Py.text "search_queries"; dq; Py.text ": ["; nl;
    Py.text "    "; dq; Py.text "sơn 2k"; dq; Py.text ","; nl;
    Py.text "    "; dq; Py.text "ứng dụng sơn 2k"; dq; Py.text ","; nl;
    Py.text "    "; dq; Py.text "sơn ngoài trời"; dq; nl;
    Py.text "  ],"; nl;
    Py.text "  "; dq; Py.text "entities"; dq; Py.text ": ["; dq; Py.text "sơn 2K"; dq; Py.text ", "; dq; Py.text "ngoài trời"; dq; Py.text "]"; nl;
    Py.text "}"; nl;
    nl;
    Py.text "CHỈ trả về JSON, không giải thích."
  ].

(** The literals of [get_context_aware_info]. *)
Definition rule_open : str :=
  concat [nl; nl; Py.text "━━━━━━━━━━━━━━━━━━━━━━━━━━━━━━━━━━━━━━━━"; nl].

Definition documents_title : str :=
  concat [Py.text "📚 THÔNG TIN TỪ TÀI LIỆU:"; nl].

Definition rule_close : str :=
  concat [Py.text "━━━━━━━━━━━━━━━━━━━━━━━━━━━━━━━━━━━━━━━━"; nl].

Definition products_title : str :=
  concat [Py.text "🏷️ THÔNG TIN SẢN PHẨM:"; nl].

Definition truncated_marker : str :=
  concat [nl; nl; Py.text "... (Nội dung bị cắt ngắn)"].

Definition nothing_found : str :=
  concat [nl; nl; Py.text "⚠️ Không tìm thấy thông tin liên quan trong tài liệu."; nl].

Definition query_rewrite_prompt (user_input context : str) : str :=
  prompt_head ++ user_input ++ dq ++ context ++ prompt_tail.

Definition stop_words : gset str :=
  list_to_set
    [Py.text "là"; Py.text "gì"; Py.text "như"; Py.text "thế"; Py.text "nào";
     Py.text "được"; Py.text "không"; Py.text "có"; Py.text "của";
     Py.text "thì"].

(** The strings appended by the loop over [range(len(keywords) - 1)]. *)
Fixpoint bigrams (keywords : list str) : list str :=
  match keywords with
  | a :: (b :: _) as rest => (a ++ Py.text " " ++ b) :: bigrams rest
  | _ => []
  end.

(** From the first opening brace to the last closing brace after it:
    [re.search] of a brace, any characters (greedy, newlines included)
    and a brace. *)
Fixpoint from_first (c : N) (s : str) : str :=
  match s with
  | [] => []
  | x :: t => if (x =? c)%N then s else from_first c t
  end.

Definition re_search_braces (response : str) : option str :=
  match from_first 123 response with
  | [] => None
  | open :: rest =>
      match reverse (from_first 125 (reverse rest)) with
      | [] => None
      | body => Some (open :: body)
      end
  end.

Section Handler.
Context `{!Runtime} `{!HashOrder}.

(** [keywords] in [_simple_keyword_extraction]. *)
Definition extract_keywords (text : str) : list str :=
  let words := Py.split (lower text) in
  filter (λ w, (w ∉ stop_words) ∧ (2 < length w)%nat) words.

Definition _simple_keyword_extraction (text : str) : list str :=
  let keywords := extract_keywords text in
  let queries := [] in
  let queries :=
    if decide (length keywords ≤ 3)%nat
    then queries ++ [Py.join (Py.text " ") keywords]
    else queries in
  let queries := queries ++ Py.slice_to 3 keywords in
  let queries := queries ++ bigrams keywords in
  Py.slice_to 5 (set_iter queries).

Definition fallback (user_input : str) : value :=
  VList (VStr <$> _simple_keyword_extraction user_input).

(** [context] in [rewrite_query]: the topic of the previous question. *)
Definition previous_topic (session_id : option str) (st : state) : str :=
  match nonempty session_id ≫= λ sid, conversation_context st !! sid with
  | Some prev =>
      let prev_topic := topic prev in
      if truthy prev_topic
      then nl ++ Py.text "Câu hỏi trước đó về: " ++ format_value prev_topic
      else []
  | None => []
  end.

(** The entry stored in [self.conversation_context] after a rewrite. *)
Definition context_of (data : pydict) : topic_context :=
  {| topic := default VNone (dict_get (Py.text "main_topic") data);
     entities := default (VList []) (dict_get (Py.text "entities") data) |}.

(** The request [rewrite_query] sends: [query_rewrite_prompt] with
    [context] filled in. *)
Definition sent_prompt (user_input : str) (session_id : option str)
    (st : state) : str :=
  let context := previous_topic session_id st in
  query_rewrite_prompt user_input context.

Definition rewrite_query (user_input : str) (session_id : option str)
    (st : state) : value * state :=
  match model st with
  | None => (fallback user_input, st)
  | Some generate =>
      match generate system_prompt (sent_prompt user_input session_id st) with
      | Failed => (fallback user_input, st)
      | Returned response =>
          match re_search_braces response with
          | None => (fallback user_input, st)
          | Some json_match =>
              match json_loads json_match with
              | Some (VDict data) =>
                  let st :=
                    match nonempty session_id with
                    | Some sid =>
                        set_context
                          (<[sid := context_of data]> (conversation_context st))
                          st
                    | None => st
                    end in
                  (default (VList []) (dict_get (Py.text "search_queries") data),
                   st)
              | _ => (fallback user_input, st)
              end
          end
      end
  end.

(** The four accumulators of [smart_search]. *)
Record acc := {
  all_doc_results : list hit;
  seen_docs : gset str;
  all_product_results : list pydict;
  seen_products : gset pykey;
}.

Definition acc0 : acc :=
  {| all_doc_results := []; seen_docs := ∅;
     all_product_results := []; seen_products := ∅ |}.

(** [for doc in docs: ...]. *)
Definition add_docs (docs : list hit) (a : acc) : acc :=
  foldl (λ a doc,
           let doc_key := hit_filename doc in
           if decide (doc_key ∈ seen_docs a) then a
           else {| all_doc_results := all_doc_results a ++ [doc];
                   seen_docs := {[doc_key]} ∪ seen_docs a;
                   all_product_results := all_product_results a;
                   seen_products := seen_products a |})
        a docs.

(** [prod.get('id', prod.get('name'))]. *)
Definition prod_key (prod : pydict) : value :=
  default (default VNone (dict_get (Py.text "name") prod))
          (dict_get (Py.text "id") prod).

(** [for prod in products: ...]; the set lookup hashes the key. *)
Fixpoint add_products (products : list pydict) (a : acc) : result acc :=
  match products with
  | [] => Ok a
  | prod :: rest =>
      match hash_key (prod_key prod) with
      | None => Raise TypeError
      | Some k =>
          if decide (k ∈ seen_products a) then add_products rest a
          else add_products rest
                 {| all_doc_results := all_doc_results a;
                    seen_docs := seen_docs a;
                    all_product_results := all_product_results a ++ [prod];
                    seen_products := {[k]} ∪ seen_products a |}
      end
  end.

(** [for query in queries: ...]. *)
Fixpoint search_loop (h : handler) (queries : list value) (a : acc)
    : result acc :=
  match queries with
  | [] => Ok a
  | VStr query :: rest =>
      let a := add_docs (search_in_documents h query 2) a in
      match add_products (search_products h query 2) a with
      | Ok a => search_loop h rest a
      | Raise e => Raise e
      end
  | _ :: _ => Raise AttributeError
  end.

Record search_result := {
  res_documents : list hit;
  res_products : list pydict;
  queries_used : value;
}.

(** What [len(queries)] and [for query in queries] make of the value
    [rewrite_query] returned. *)
Definition iter_queries (queries : value) : result (list value) :=
  match queries with
  | VList l => Ok l
  | VStr s => Ok ((λ c, VStr [c]) <$> s)
  | VDict kv => Ok ((λ p, VStr p.1) <$> kv)
  | VNone | VBool _ | VInt _ => Raise TypeError
  end.

(** Steps 2 and 3 of [smart_search], for the queries step 1 produced. *)
Definition gather (h : handler) (queries : value) (limit : Z)
    : result search_result :=
  match iter_queries queries with
  | Raise e => Raise e
  | Ok qs =>
      match search_loop h qs acc0 with
      | Raise e => Raise e
      | Ok a =>
          let all_doc_results :=
            Py.sort_desc hit_relevance (all_doc_results a) in
          let all_product_results :=
            Py.slice_to limit (all_product_results a) in
          Ok {| res_documents := Py.slice_to limit all_doc_results;
                res_products := all_product_results;
                queries_used := queries |}
      end
  end.

Definition smart_search (user_input : str) (session_id : option str)
    (limit : Z) (st : state) : result search_result * state :=
  let '(queries, st) := rewrite_query user_input session_id st in
  (gather (base_handler st) queries limit, st).

(** The text [get_context_aware_info] appends for one document and for
    one product; of a product only the five listed fields are shown. *)
Definition render_doc (doc : hit) : str :=
  nl ++ Py.text "[" ++ hit_filename doc ++ Py.text "]" ++ nl
  ++ hit_snippet doc ++ nl.

Definition shown_fields : list str :=
  [Py.text "type"; Py.text "color"; Py.text "price"; Py.text "description";
   Py.text "weights"].

Definition render_prod (prod : pydict) : str :=
  nl ++ Py.text "📦 "
  ++ format_value
       (default (default VNone (dict_get (Py.text "id") prod))
                (dict_get (Py.text "name") prod))
  ++ Py.text ":" ++ nl
  ++ concat
       ((λ field,
           match dict_get field prod with
           | Some v => Py.text "   • " ++ field ++ Py.text ": "
                       ++ format_value v ++ nl
           | None => []
           end)
        <$> shown_fields).

Definition get_context_aware_info (user_input : str)
    (session_id : option str) (max_length : Z) (st : state)
    : result str * state :=
  match smart_search user_input session_id 3 st with
  | (Raise e, st) => (Raise e, st)
  | (Ok results, st) =>
      let context := [] in
      let context :=
        match res_documents results with
        | [] => context
        | docs => context ++ rule_open ++ documents_title ++ rule_close
                  ++ concat (render_doc <$> docs)
        end in
      let context :=
        match res_products results with
        | [] => context
        | prods => context ++ rule_open ++ products_title ++ rule_close
                   ++ concat (render_prod <$> prods)
        end in
      let context :=
        if max_length <? Z.of_nat (length context)
        then Py.slice_to max_length context ++ truncated_marker
        else context in
      let context :=
        match context with
        | [] => nothing_found
        | _ => context
        end in
      (Ok context, st)
  end.

End Handler.

End SmartDocumentHandler.

(** ** A runtime for closed examples

    On ASCII text [str.lower] maps A-Z to a-z; code points outside ASCII
    are left alone, so the examples keep to ASCII text or to text already
    in lower case.  [json.loads] is given on the two responses the examples
    feed it, [json.dumps] and [str()] only on what the examples pass. *)

Definition ascii_lower (s : str) : str :=
  (λ c, if (65 <=? c) && (c <=? 90) then c + 32 else c)%N <$> s.

(** The response [{"main_topic": "son 2k"}]. *)
Definition topic_only_response : str :=
  concat [Py.text "{"; [34%N]; Py.text "main_topic"; [34%N]; Py.text ": ";
          [34%N]; Py.text "son 2k"; [34%N]; Py.text "}"].

(** The response
    [{"main_topic": "son 2k", "search_queries": ["son 2k", "gia son"],
      "entities": ["son 2k"]}]. *)
Definition full_response : str :=
  let quoted (s : str) : str := [34%N] ++ s ++ [34%N] in
  concat [Py.text "{"; quoted (Py.text "main_topic"); Py.text ": ";
          quoted (Py.text "son 2k"); Py.text ", ";
          quoted (Py.text "search_queries"); Py.text ": [";
          quoted (Py.text "son 2k"); Py.text ", ";
          quoted (Py.text "gia son"); Py.text "], ";
          quoted (Py.text "entities"); Py.text ": [";
          quoted (Py.text "son 2k"); Py.text "]}"].

Definition example_loads (s : str) : option value :=
  if decide (s = topic_only_response)
  then Some (VDict [(Py.text "main_topic", VStr (Py.text "son 2k"))])
  else if decide (s = full_response)
  then Some (VDict [(Py.text "main_topic", VStr (Py.text "son 2k"));
                    (Py.text "search_queries",
                     VList [VStr (Py.text "son 2k"); VStr (Py.text "gia son")]);
                    (Py.text "entities", VList [VStr (Py.text "son 2k")])])
  else None.

(** [json.dumps(v, ensure_ascii=False)] for a string without characters
    to escape and for an object whose values are such strings. *)
Definition example_dumps (v : value) : str :=
  let quoted (s : str) := [34%N] ++ s ++ [34%N] in
  match v with
  | VStr s => quoted s
  | VDict kv =>
      Py.text "{"
      ++ Py.join (Py.text ", ")
           ((λ p, quoted p.1 ++ Py.text ": "
                  ++ match p.2 with VStr s => quoted s | _ => [] end) <$> kv)
      ++ Py.text "}"
  | _ => []
  end.

Definition example_format (v : value) : str :=
  match v with
  | VStr s => s
  | _ => []
  end.

#[local] Instance example_runtime : Runtime :=
  {| lower := ascii_lower; json_dumps := example_dumps;
     json_loads := example_loads; format_value := example_format |}.

(** One hash order among the possible ones: first occurrences, in list
    order. *)
#[local] Instance example_hash_order : HashOrder :=
  {| set_iter := remove_dups; set_iter_perm := λ l, reflexivity _ |}.

(** [json.dumps(v, ensure_ascii=False, indent=2)] for values whose
    strings hold no character to escape. *)
Fixpoint dumps_indent (level : nat) (v : value) {struct v} : str :=
  let pad (n : nat) : str := replicate (2 * n) 32%N in
  let quoted (s : str) : str := [34%N] ++ s ++ [34%N] in
  let sep : str := Py.text "," ++ [10%N] in
  match v with
  | VNone => Py.text "null"
  | VBool b => Py.text (if b then "true" else "false")
  | VInt n =>
      (if n <? 0 then Py.text "-" else []) ++ Loaders.decimal (Z.abs_nat n)
  | VStr s => quoted s
  | VList [] => Py.text "[]"
  | VList l =>
      Py.text "[" ++ [10%N]
      ++ Py.join sep
           ((λ x, pad (S level) ++ dumps_indent (S level) x) <$> l)
      ++ [10%N] ++ pad level ++ Py.text "]"
  | VDict [] => Py.text "{}"
  | VDict kv =>
      Py.text "{" ++ [10%N]
      ++ Py.join sep
           ((λ '(k, x), pad (S level) ++ quoted k ++ Py.text ": "
                        ++ dumps_indent (S level) x) <$> kv)
      ++ [10%N] ++ pad level ++ Py.text "}"
  end.

#[local] Instance example_indent : Loaders.Indent :=
  {| Loaders.json_dumps_indent := dumps_indent 0 |}.

(** Four files of a documents directory, in listing order: a text file,
    a JSON file that does not parse, a product list whose second member
    is a number, and a file of an extension no loader takes. *)
Definition notes_txt : Loaders.file :=
  {| Loaders.file_stem := Py.text "notes";
     Loaders.file_name := Py.text "notes.TXT";
     Loaders.file_path := Py.text "documents/notes.TXT";
     Loaders.file_suffix := Py.text ".TXT";
     Loaders.read_text := Some (Py.text "Son 2K do bong cao");
     Loaders.json_load := None;
     Loaders.csv_rows := [];
     Loaders.csv_complete := false;
     Loaders.pdf_pages := None |}.

Definition broken_json : Loaders.file :=
  {| Loaders.file_stem := Py.text "broken";
     Loaders.file_name := Py.text "broken.json";
     Loaders.file_path := Py.text "documents/broken.json";
     Loaders.file_suffix := Py.text ".json";
     Loaders.read_text := Some (Py.text "{");
     Loaders.json_load := None;
     Loaders.csv_rows := [];
     Loaders.csv_complete := false;
     Loaders.pdf_pages := None |}.

Definition son_2k : pydict :=
  [(Py.text "id", VStr (Py.text "son-2k"));
   (Py.text "name", VStr (Py.text "Son 2K"))].

Definition son_1k : pydict := [(Py.text "name", VStr (Py.text "Son 1K"))].

Definition catalog_json : Loaders.file :=
  {| Loaders.file_stem := Py.text "catalog";
     Loaders.file_name := Py.text "catalog.json";
     Loaders.file_path := Py.text "documents/catalog.json";
     Loaders.file_suffix := Py.text ".json";
     Loaders.read_text := None;
     Loaders.json_load := Some (VList [VDict son_2k; VInt 7; VDict son_1k]);
     Loaders.csv_rows := [];
     Loaders.csv_complete := false;
     Loaders.pdf_pages := None |}.

Definition readme_md : Loaders.file :=
  {| Loaders.file_stem := Py.text "README";
     Loaders.file_name := Py.text "README.md";
     Loaders.file_path := Py.text "documents/README.md";
     Loaders.file_suffix := Py.text ".md";
     Loaders.read_text := Some (Py.text "# Documents");
     Loaders.json_load := None;
     Loaders.csv_rows := [];
     Loaders.csv_complete := false;
     Loaders.pdf_pages := None |}.

Definition directory : list Loaders.file :=
  [notes_txt; broken_json; catalog_json; readme_md].

Definition empty_handler : DocumentHandler.handler :=
  {| DocumentHandler.documents := []; DocumentHandler.products_cache := [] |}.

(** Two text files loaded in this order: [son_2k.txt] mentions the word
    "son" once, [bang_gia.txt] twice. *)
Definition two_files : DocumentHandler.handler :=
  DocumentHandler.load_txt
    (Py.text "bang_gia") (Py.text "bang_gia.txt")
    (Py.text "documents/bang_gia.txt") (Py.text "Son 1K va son 2K")
    (DocumentHandler.load_txt
       (Py.text "son_2k") (Py.text "son_2k.txt")
       (Py.text "documents/son_2k.txt") (Py.text "Son 2K do bong cao")
       empty_handler).

(** The two files and two cached products, the second one stored under
    its name. *)
Definition shop : DocumentHandler.handler :=
  {| DocumentHandler.documents := DocumentHandler.documents two_files;
     DocumentHandler.products_cache :=
       [(KStr (Py.text "son-2k-trang"),
         [(Py.text "id", VStr (Py.text "son-2k-trang"));
          (Py.text "name", VStr (Py.text "Son 2K Trang"))]);
        (KStr (Py.text "Son 1K Do"),
         [(Py.text "name", VStr (Py.text "Son 1K Do"))])] |}.

(** A configuration with a cap of two messages, and one with none. *)
Definition cap_two : Config.t := {| Config.MAX_CONVERSATION_HISTORY := 2 |}.
Definition cap_zero : Config.t := {| Config.MAX_CONVERSATION_HISTORY := 0 |}.

(** A user message stamped [t]. *)
Definition user_msg (t : Z) : MemoryManager.entry :=
  {| MemoryManager.role := Py.text "user";
     MemoryManager.content := Py.text "xin chao";
     MemoryManager.timestamp := t |}.

(** The memory after a first contact of session [user_123]. *)
Definition one_session : MemoryManager.memory :=
  MemoryManager._ensure_session (Py.text "user_123") ∅.

(** The logs of [user_123] after one consulting message at instant 0. *)
Definition one_message : gmap str (list MemoryManager.entry) :=
  <[Py.text "consulting" := [user_msg 0]]> MemoryManager.new_session.

(** A handler without a completion capability, and one whose capability
    answers every request with [topic_only_response]. *)
Definition no_model : SmartDocumentHandler.state :=
  {| SmartDocumentHandler.base_handler := two_files;
     SmartDocumentHandler.model := None;
     SmartDocumentHandler.conversation_context := ∅ |}.

Definition topic_only_model : SmartDocumentHandler.state :=
  {| SmartDocumentHandler.base_handler := two_files;
     SmartDocumentHandler.model :=
       Some (λ _ _, SmartDocumentHandler.Returned topic_only_response);
     SmartDocumentHandler.conversation_context := ∅ |}.

(** The data of [full_response]. *)
Definition full_data : pydict :=
  [(Py.text "main_topic", VStr (Py.text "son 2k"));
   (Py.text "search_queries",
    VList [VStr (Py.text "son 2k"); VStr (Py.text "gia son")]);
   (Py.text "entities", VList [VStr (Py.text "son 2k")])].

(** A handler whose capability answers every request with
    [full_response], after an earlier question of [user_123] about
    another topic and one of [khach_2]. *)
Definition full_model : SmartDocumentHandler.state :=
  {| SmartDocumentHandler.base_handler := two_files;
     SmartDocumentHandler.model :=
       Some (λ _ _, SmartDocumentHandler.Returned full_response);
     SmartDocumentHandler.conversation_context :=
       {[ Py.text "user_123" :=
            {| SmartDocumentHandler.topic := VStr (Py.text "son 1k");
               SmartDocumentHandler.entities :=
                 VList [VStr (Py.text "son 1k"); VStr (Py.text "gia")] |};
          Py.text "khach_2" :=
            {| SmartDocumentHandler.topic := VStr (Py.text "son dau");
               SmartDocumentHandler.entities := VList [] |} ]} |}.

(** ** Vocabulary of the statements *)

(** Largest key first. *)
Definition descending {A} (key : A → nat) : relation A :=
  λ a b, (key b ≤ key a)%nat.

Section SearchVocabulary.
Context `{!Runtime}.
Import DocumentHandler.

(** The loaded document [kv] contains the lower-cased query [q]. *)
Definition matches (q : str) (kv : str * document) : Prop :=
  Py.contains q (lower (doc_content kv.2)) = true.

#[global] Instance matches_dec q kv : Decision (matches q kv).
Proof. unfold matches. apply _. Defined.

(** The hits of the matching documents, in insertion order. *)
Definition matching_hits (q : str) (h : handler) : list hit :=
  (λ kv, make_hit q kv.1 kv.2) <$> filter (matches q) (documents h).

End SearchVocabulary.

Section MemoryVocabulary.
Import MemoryManager.

(** The agent types [_ensure_session] creates. *)
Definition known_agents : list str :=
  [Py.text "phanloai"; Py.text "create_order"; Py.text "consulting"].

(** Every session holds a log for each known agent type: true of the
    empty memory and kept by every method of [MemoryManager]. *)
Definition wf_memory (mem : memory) : Prop :=
  ∀ sid agents agent,
    mem !! sid = Some agents → agent ∈ known_agents →
    is_Some (agents !! agent).

(** The log of one agent in one session; empty when there is none. *)
Definition log_of (sid agent : str) (mem : memory) : list entry :=
  default [] (mem !! sid ≫= λ agents, agents !! agent).

(** The last [n] elements. *)
Definition newest {A} (n : nat) (l : list A) : list A :=
  drop (length l - n) l.

(** [add_message] called once per entry of [msgs], in order, for one
    session and agent, until a call raises. *)
Fixpoint add_messages `{!Config.t} (session_id : option str) (agent : str)
    (msgs : list entry) (mem : memory) : result () * memory :=
  match msgs with
  | [] => (Ok (), mem)
  | m :: rest =>
      match add_message (timestamp m) session_id agent (role m) (content m) mem with
      | (Ok _, mem) => add_messages session_id agent rest mem
      | (Raise e, mem) => (Raise e, mem)
      end
  end.

(** [t] is the latest among the time stamps of the last messages of the
    session's logs. *)
Definition latest (agents : gmap str (list entry)) (t : Z) : Prop :=
  (∃ agent log msg,
      agents !! agent = Some log ∧ last log = Some msg ∧ timestamp msg = t)
  ∧ ∀ agent log msg,
      agents !! agent = Some log → last log = Some msg → timestamp msg ≤ t.

(** No log of the session holds a message. *)
Definition silent (agents : gmap str (list entry)) : Prop :=
  ∀ agent log, agents !! agent = Some log → log = [].

(** The numbers of hours [timedelta(hours=h)] accepts: those of at most
    999999999 whole days either way. *)
Definition representable (h : Z) : Prop := -23999999976 ≤ h ≤ 23999999999.

(** The sessions the sweep puts on [sessions_to_delete]. *)
Definition swept (current_time max_age_hours : Z) (mem : memory) : list str :=
  (filter (λ kv, is_old current_time max_age_hours kv.2 = Ok true)
          (map_to_list mem)).*1.

End MemoryVocabulary.

Section ExpansionVocabulary.
Context `{!Runtime}.
Import SmartDocumentHandler.

(** The ways [rewrite_query] reaches its last line: there is no
    capability; the call raises; the response holds no brace-delimited
    span; [json.loads] rejects the span; the parsed value is not an
    object, so that [data.get] raises. *)
Inductive falls_back (user_input : str) (session_id : option str)
    (st : state) : Prop :=
| no_capability :
    model st = None → falls_back user_input session_id st
| call_raises generate :
    model st = Some generate →
    generate system_prompt (sent_prompt user_input session_id st) = Failed →
    falls_back user_input session_id st
| no_json generate response :
    model st = Some generate →
    generate system_prompt (sent_prompt user_input session_id st)
    = Returned response →
    re_search_braces response = None →
    falls_back user_input session_id st
| unparseable generate response json_match :
    model st = Some generate →
    generate system_prompt (sent_prompt user_input session_id st)
    = Returned response →
    re_search_braces response = Some json_match →
    json_loads json_match = None →
    falls_back user_input session_id st
| not_an_object generate response json_match v :
    model st = Some generate →
    generate system_prompt (sent_prompt user_input session_id st)
    = Returned response →
    re_search_braces response = Some json_match →
    json_loads json_match = Some v →
    (∀ data, v ≠ VDict data) →
    falls_back user_input session_id st.

(** The response holds a span that parses to the object [data]. *)
Inductive rewrites_to (user_input : str) (session_id : option str)
    (st : state) (data : pydict) : Prop :=
| parsed generate response json_match :
    model st = Some generate →
    generate system_prompt (sent_prompt user_input session_id st)
    = Returned response →
    re_search_braces response = Some json_match →
    json_loads json_match = Some (VDict data) →
    rewrites_to user_input session_id st data.

End ExpansionVocabulary.

Section GatherVocabulary.
Context {A K : Type} `{Countable K} (key : A → K).

(** The elements of [l] whose key is neither in [seen] nor carried by an
    earlier element of [l], in order. *)
Fixpoint first_occurrences (seen : gset K) (l : list A) : list A :=
  match l with
  | [] => []
  | x :: rest =>
      if decide (key x ∈ seen) then first_occurrences seen rest
      else x :: first_occurrences ({[key x]} ∪ seen) rest
  end.

(** [x] is a hit of the [i]-th sub-query, the first of that sub-query's
    hits with its key, and no hit of an earlier sub-query has that key. *)
Definition first_hit (search : str → list A) (queries : list str) (x : A)
    : Prop :=
  ∃ i query before after,
    queries !! i = Some query
    ∧ search query = before ++ x :: after
    ∧ (∀ y, y ∈ before → key y ≠ key x)
    ∧ ∀ j earlier y,
        (j < i)%nat → queries !! j = Some earlier → y ∈ search earlier →
        key y ≠ key x.

End GatherVocabulary.

Section ProductVocabulary.
Context `{!Runtime}.
Import DocumentHandler SmartDocumentHandler.

(** The member of [seen_products] a product hit stands for. *)
Definition product_key (prod : pydict) : pykey :=
  default KNone (hash_key (prod_key prod)).

(** The id, or else the name, of every cached product can be hashed, as
    it can for every product the loaders stored under that very key. *)
Definition hashable_products (h : handler) : Prop :=
  Forall (λ kv, is_Some (hash_key (prod_key (product_hit kv.1 kv.2))))
         (products_cache h).

End ProductVocabulary.

Section MoreSearchVocabulary.
Context `{!Runtime}.
Import DocumentHandler.

(** The serialised product [kv] contains the lower-cased query [q]. *)
Definition product_matches (q : str) (kv : pykey * pydict) : Prop :=
  Py.contains q (lower (json_dumps (VDict kv.2))) = true.

#[global] Instance product_matches_dec q kv : Decision (product_matches q kv).
Proof. unfold product_matches. apply _. Defined.

(** The hits of the matching products, in cache order. *)
Definition matching_products (q : str) (h : handler) : list pydict :=
  (λ kv, product_hit kv.1 kv.2) <$> filter (product_matches q) (products_cache h).

End MoreSearchVocabulary.

Section MoreMemoryVocabulary.
Import MemoryManager.

(** Every session holds a log for the three known agent types and for no
    other. *)
Definition exact_channels (mem : memory) : Prop :=
  ∀ sid agents agent,
    mem !! sid = Some agents →
    (is_Some (agents !! agent) ↔ agent ∈ known_agents).

End MoreMemoryVocabulary.

Section LoaderVocabulary.
Context `{!Runtime} `{!Loaders.Indent}.
Import DocumentHandler Loaders.

(** The members of a product list as the JSON loader finds it: the file
    itself when it is a list, or its ['products'] field. *)
Definition product_items (data : value) : list value :=
  match data with
  | VList items => items
  | VDict d =>
      match dict_get (Py.text "products") d with
      | Some (VList items) => items
      | _ => []
      end
  | _ => []
  end.

(** A cell of a CSV row: a string, or [None] for a missing field. *)
Definition cell (v : value) : Prop :=
  match v with
  | VStr _ | VNone => True
  | _ => False
  end.

(** What the readers yield are Python objects: a dictionary has distinct
    keys, and the fields of a CSV row are cells. *)
Definition well_read (f : file) : Prop :=
  (∀ data d, json_load f = Some data → VDict d ∈ product_items data →
             NoDup d.*1)
  ∧ Forall (λ row : pydict, NoDup row.*1 ∧ Forall (λ kv, cell kv.2) row)
           (csv_rows f).

(** The document a file leaves under its stem, if it leaves one. *)
Definition stored_document (f : file) : option document :=
  let ext := lower (file_suffix f) in
  let doc type content :=
    {| doc_filename := file_name f; doc_filepath := file_path f;
       doc_type := type; doc_content := content |} in
  if decide (ext = Py.text ".txt") then doc text <$> read_text f
  else if decide (ext = Py.text ".json") then
    (λ data, doc json (json_dumps_indent data)) <$> json_load f
  else if decide (ext = Py.text ".csv") then
    if csv_complete f
    then Some (doc csv (json_dumps_indent (VList (VDict <$> csv_rows f))))
    else None
  else if decide (ext = Py.text ".pdf") then
    (λ pages, doc pdf (concat (imap page_text pages))) <$> pdf_pages f
  else None.

(** The key the list loop of the JSON loader stores an item under: that
    of a dictionary with an ['id'] or a ['name']. *)
Definition item_key (item : value) : option pykey :=
  match item with
  | VDict d =>
      if bool_decide (is_Some (dict_get (Py.text "id") d))
         || bool_decide (is_Some (dict_get (Py.text "name") d))
      then key_of (default (default VNone (dict_get (Py.text "name") d))
                           (dict_get (Py.text "id") d))
      else None
  | _ => None
  end.

Definition item_dict (item : value) : option pydict :=
  match item with
  | VDict d => Some d
  | _ => None
  end.

(** A cache as the loaders leave it: keys that are distinct up to [==],
    and every product a dictionary whose ['id'], if it has one, can be
    hashed. *)
Definition cache_ok (cache : list (pykey * pydict)) : Prop :=
  NoDup (canon <$> cache.*1)
  ∧ Forall (λ kv : pykey * pydict,
              NoDup kv.2.*1
              ∧ ∀ v, dict_get (Py.text "id") kv.2 = Some v →
                     is_Some (hash_key v)) cache.

End LoaderVocabulary.

(** * Properties of the embedded code *)

(** ** Strings, slices and the stable sort *)

Lemma contains_count needle hay :
  Py.contains needle hay = true → (1 ≤ Py.count needle hay)%nat.
Proof.
  destruct needle as [|a p]; [cbn; lia|].
  unfold Py.count.
  induction hay as [|c t IH]; [done|].
  intros Hin. cbn [Py.count_from].
  destruct (Py.startswith (a :: p) (c :: t)) eqn:Hhead; [lia|].
  apply IH. cbn [Py.contains] in Hin. by rewrite Hhead in Hin.
Qed.

Lemma contains_nil hay : Py.contains [] hay = true.
Proof. destruct hay; reflexivity. Qed.

Lemma count_from_contains needle skip hay :
  (1 ≤ Py.count_from needle skip hay)%nat → Py.contains needle hay = true.
Proof.
  revert skip. induction hay as [|c t IH]; intros skip; cbn [Py.count_from].
  { lia. }
  intros Hcount. cbn [Py.contains]. apply orb_true_iff.
  destruct skip as [|k]; [|right; by eapply IH].
  destruct (Py.startswith needle (c :: t)); [by left|right; by eapply IH].
Qed.

(** A content is counted at least once exactly when it contains the
    needle; occurrences that overlap an occurrence already counted are
    not counted again. *)
Lemma count_positive needle hay :
  (1 ≤ Py.count needle hay)%nat ↔ Py.contains needle hay = true.
Proof.
  split; [|apply contains_count].
  destruct needle as [|a p]; [intros _; apply contains_nil|].
  apply count_from_contains.
Qed.

Lemma count_skips_overlaps :
  Py.count (Py.text "aa") (Py.text "aaa") = 1%nat.
Proof. reflexivity. Qed.

Lemma slice_to_take {A} (limit : Z) (l : list A) :
  0 ≤ limit → Py.slice_to limit l = take (Z.to_nat limit) l.
Proof.
  intros Hpos. unfold Py.slice_to, Py.norm_index.
  destruct (Z.ltb_spec limit 0) as [|_]; [lia|].
  destruct (decide (limit ≤ Z.of_nat (length l))) as [Hle|Hgt].
  - by rewrite Z.min_r.
  - rewrite Z.min_l, Nat2Z.id by lia.
    rewrite firstn_all. symmetry. apply take_ge. lia.
Qed.

Lemma slice_to_prefix {A} (limit : Z) (l : list A) :
  Py.slice_to limit l `prefix_of` l.
Proof. apply prefix_take. Qed.

Lemma slice_to_length {A} (limit : Z) (l : list A) :
  0 ≤ limit → Z.of_nat (length (Py.slice_to limit l)) ≤ limit.
Proof. intros ?. rewrite slice_to_take, length_take by done. lia. Qed.

Lemma slice_from_neg {A} (n : Z) (l : list A) :
  1 ≤ n → Py.slice_from (- n) l = drop (length l - Z.to_nat n) l.
Proof.
  intros Hn. unfold Py.slice_from, Py.norm_index.
  destruct (Z.ltb_spec (- n) 0) as [_|]; [|lia].
  f_equal. lia.
Qed.

Section SortFacts.
Context {A : Type} (key : A → nat).

Lemma insert_desc_perm x l : Py.insert_desc key x l ≡ₚ x :: l.
Proof.
  induction l as [|y t IH]; cbn [Py.insert_desc]; [done|].
  destruct (key x <? key y)%nat; [|done].
  rewrite IH. apply Permutation_swap.
Qed.

Lemma sort_desc_perm l : Py.sort_desc key l ≡ₚ l.
Proof.
  induction l as [|x t IH]; [done|]. cbn [Py.sort_desc foldr].
  by rewrite insert_desc_perm, IH.
Qed.

Lemma insert_desc_sorted x l :
  StronglySorted (descending key) l →
  StronglySorted (descending key) (Py.insert_desc key x l).
Proof.
  induction 1 as [|y t Hs IH Hall]; cbn [Py.insert_desc].
  - repeat constructor.
  - destruct (Nat.ltb_spec (key x) (key y)) as [Hlt|Hge].
    + constructor; [done|].
      rewrite insert_desc_perm. constructor; [unfold descending; lia|done].
    + constructor; [by constructor|].
      constructor; [done|].
      eapply Forall_impl; [exact Hall|]. unfold descending. intros; lia.
Qed.

Lemma sort_desc_sorted l : StronglySorted (descending key) (Py.sort_desc key l).
Proof.
  induction l as [|x t IH]; cbn [Py.sort_desc foldr];
    [constructor|by apply insert_desc_sorted].
Qed.

(** Stability: the elements of one key keep their relative order. *)
Lemma insert_desc_stable r x l :
  filter (λ a, key a = r) (Py.insert_desc key x l)
  = filter (λ a, key a = r) (x :: l).
Proof.
  induction l as [|y t IH]; [done|]. cbn [Py.insert_desc].
  destruct (Nat.ltb_spec (key x) (key y)) as [Hlt|Hge]; [|done].
  rewrite filter_cons, IH, !filter_cons.
  repeat case_decide; try done; lia.
Qed.

Lemma sort_desc_stable r l :
  filter (λ a, key a = r) (Py.sort_desc key l) = filter (λ a, key a = r) l.
Proof.
  induction l as [|x t IH]; [done|]. cbn [Py.sort_desc foldr].
  rewrite insert_desc_stable, !filter_cons.
  fold (Py.sort_desc key t). by rewrite IH.
Qed.

Lemma sorted_prefix (l1 l2 : list A) :
  l1 `prefix_of` l2 → StronglySorted (descending key) l2 →
  StronglySorted (descending key) l1.
Proof.
  intros [k ->] Hs. revert Hs. induction l1 as [|x t IH]; [constructor|].
  cbn. inversion 1 as [|? ? Ht Hall]; subst.
  constructor; [by apply IH|]. by apply Forall_app in Hall as [? _].
Qed.

End SortFacts.

Lemma filter_prefix {A} (P : A → Prop) `{!∀ x, Decision (P x)} (l1 l2 : list A) :
  l1 `prefix_of` l2 → filter P l1 `prefix_of` filter P l2.
Proof. intros [k ->]. rewrite filter_app. by eexists. Qed.

(** ** document_handler.py: the two searches *)

Section DocumentSearch.
Context `{!Runtime}.
Import DocumentHandler.

Lemma collect_hits_spec q items results :
  collect_hits q items results
  = results ++ ((λ kv, make_hit q kv.1 kv.2) <$> filter (matches q) items).
Proof.
  revert results. induction items as [|[name d] rest IH]; intros results.
  - cbn. by rewrite app_nil_r.
  - cbn [collect_hits]. rewrite filter_cons.
    destruct (decide (matches q (name, d))) as [Hin|Hin];
      unfold matches in Hin; cbn [snd] in Hin.
    + rewrite Hin, IH, <- app_assoc. done.
    + apply not_true_is_false in Hin. rewrite Hin. apply IH.
Qed.

Lemma search_in_documents_unfold h query limit :
  search_in_documents h query limit
  = Py.slice_to limit
      (Py.sort_desc hit_relevance (matching_hits (lower query) h)).
Proof. unfold search_in_documents. by rewrite collect_hits_spec. Qed.

(** C1, as the code has it: the hits are the first [limit] entries of a
    ranking of all matching documents.  Every document whose lower-cased
    content contains the lower-cased query is in the ranking, with
    relevance [count] of the query in the content, which is at least 1;
    the ranking is in descending relevance and hits of equal relevance
    keep insertion order; for a non-negative [limit] at most [limit] hits
    are returned, and all of them when [limit] is at least the number of
    matching documents. *)
Theorem search_in_documents_ranked (h : handler) (query : str) (limit : Z) :
  0 ≤ limit →
  ∃ ranking,
    ranking ≡ₚ matching_hits (lower query) h
    ∧ (∀ name d,
         (name, d) ∈ documents h →
         Py.contains (lower query) (lower (doc_content d)) = true →
         make_hit (lower query) name d ∈ ranking
         ∧ hit_relevance (make_hit (lower query) name d)
           = Py.count (lower query) (lower (doc_content d))
         ∧ (1 ≤ hit_relevance (make_hit (lower query) name d))%nat)
    ∧ StronglySorted (descending hit_relevance) ranking
    ∧ (∀ r, filter (λ x, hit_relevance x = r) ranking
            = filter (λ x, hit_relevance x = r)
                (matching_hits (lower query) h))
    ∧ search_in_documents h query limit = take (Z.to_nat limit) ranking
    ∧ Z.of_nat (length (search_in_documents h query limit)) ≤ limit
    ∧ (Z.of_nat (length (matching_hits (lower query) h)) ≤ limit →
       search_in_documents h query limit = ranking).
Proof.
  intros Hlimit.
  exists (Py.sort_desc hit_relevance (matching_hits (lower query) h)).
  rewrite search_in_documents_unfold.
  split_and!.
  - apply sort_desc_perm.
  - intros name d Hd Hin. split_and!.
    + rewrite sort_desc_perm. unfold matching_hits.
      apply (list_elem_of_fmap_2 (λ kv, make_hit (lower query) kv.1 kv.2)
               _ (name, d)).
      apply list_elem_of_filter. done.
    + done.
    + cbn. by apply contains_count.
  - apply sort_desc_sorted.
  - intros r. apply sort_desc_stable.
  - by apply slice_to_take.
  - by apply slice_to_length.
  - intros Hall. rewrite slice_to_take by done. apply take_ge.
    rewrite sort_desc_perm. lia.
Qed.

(** C4, as the code has it: on an empty corpus both searches return the
    empty list for every query and limit.  The empty query is not
    rejected: it is contained in every content, so [search_in_documents]
    returns as many hits as [limit] and the number of loaded documents
    allow. *)
Theorem search_empty_corpus_or_query (h : handler) (query : str) (limit : Z) :
  (documents h = [] → search_in_documents h query limit = [])
  ∧ (products_cache h = [] → search_products h query limit = [])
  ∧ (lower [] = [] → 0 ≤ limit →
     length (search_in_documents h [] limit)
     = Nat.min (Z.to_nat limit) (length (documents h))).
Proof.
  split_and!.
  - intros Hdocs. unfold search_in_documents. rewrite Hdocs. apply take_nil.
  - intros Hprods. unfold search_products. by rewrite Hprods.
  - intros Hlower Hlimit.
    rewrite search_in_documents_unfold, slice_to_take, length_take by done.
    rewrite sort_desc_perm. unfold matching_hits.
    rewrite length_fmap, Hlower.
    replace (filter (matches []) (documents h)) with (documents h); [done|].
    induction (documents h) as [|kv rest IH]; [done|].
    rewrite filter_cons, decide_True by apply contains_nil.
    by rewrite <- IH.
Qed.

End DocumentSearch.

Import DocumentHandler.

(** The ranking on the two files, for the query "son" and limit 1. *)
Lemma search_in_documents_ranked_witness :
  0 ≤ 1
  ∧ Z.of_nat (length (search_in_documents two_files (Py.text "son") 1)) ≤ 1.
Proof.
  split; [lia|].
  destruct (search_in_documents_ranked two_files (Py.text "son") 1)
    as (ranking & _ & _ & _ & _ & _ & Hlen & _); [lia|exact Hlen].
Defined.

(** C1 as stated fails: with [limit = 1] the file [son_2k.txt], whose
    content contains the query "son", is not among the hits; the only hit
    is the file with the higher relevance. *)
Lemma search_in_documents_limit_drops_match :
  (∃ d, (Py.text "son_2k", d) ∈ documents two_files
        ∧ Py.contains (lower (Py.text "son")) (lower (doc_content d)) = true)
  ∧ Py.text "son" ≠ []
  ∧ hit_document <$> search_in_documents two_files (Py.text "son") 1
    = [Py.text "bang_gia"].
Proof.
  split_and!.
  - eexists. split; [vm_compute; apply list_elem_of_here|reflexivity].
  - discriminate.
  - reflexivity.
Qed.

(** The empty corpus, and the empty query on the two files. *)
Lemma search_empty_corpus_or_query_witness :
  search_in_documents empty_handler (Py.text "son") 5 = []
  ∧ search_products empty_handler (Py.text "son") 5 = []
  ∧ length (search_in_documents two_files [] 1) = 1%nat.
Proof.
  destruct (search_empty_corpus_or_query empty_handler (Py.text "son") 5)
    as (Hdocs & Hprods & _).
  destruct (search_empty_corpus_or_query two_files [] 1) as (_ & _ & Hall).
  split_and!; [by apply Hdocs|by apply Hprods|].
  apply Hall; [reflexivity|lia].
Defined.

(** C4 as stated fails: the empty query returns every loaded document
    and every cached product. *)
Lemma search_in_documents_empty_query_hits :
  hit_document <$> search_in_documents shop [] 5
  = [Py.text "son_2k"; Py.text "bang_gia"]
  ∧ length (search_products shop [] 5) = 2%nat.
Proof. split; reflexivity. Qed.

(** ** memory_manager.py *)

Section Memory.
Import MemoryManager Config.

Lemma newest_newest_app {A} (n : nat) (l r : list A) :
  newest n (newest n l ++ r) = newest n (l ++ r).
Proof.
  unfold newest. destruct (decide (length l ≤ n)%nat) as [Hle|Hgt].
  - by replace (length l - n)%nat with 0%nat by lia.
  - rewrite !length_app, length_drop.
    replace (length l - (length l - n) + length r - n)%nat
      with (length r) by lia.
    destruct (decide (length r ≤ n)%nat) as [Hr|Hr].
    + rewrite !drop_app_le by (rewrite ?length_drop; lia).
      rewrite drop_drop. do 2 f_equal. lia.
    + rewrite !drop_app_ge by (rewrite ?length_drop; lia).
      rewrite length_drop. f_equal. lia.
Qed.

Lemma newest_length {A} (n : nat) (l : list A) :
  (length (newest n l) ≤ n)%nat.
Proof. unfold newest. rewrite length_drop. lia. Qed.

Lemma new_session_known agent :
  agent ∈ known_agents → new_session !! agent = Some [].
Proof.
  unfold known_agents. rewrite !elem_of_cons, elem_of_nil.
  intros [->|[->|[->|[]]]]; reflexivity.
Qed.

Lemma new_session_logs agent : default [] (new_session !! agent) = [].
Proof.
  unfold new_session.
  rewrite !lookup_insert, lookup_empty. by repeat case_decide.
Qed.

Lemma ensure_session_lookup sid mem :
  _ensure_session sid mem !! sid = Some (default new_session (mem !! sid)).
Proof.
  unfold _ensure_session. destruct (mem !! sid) eqn:Hsid; [done|].
  by rewrite lookup_insert_eq.
Qed.

Lemma ensure_session_other sid sid' mem :
  sid ≠ sid' → _ensure_session sid mem !! sid' = mem !! sid'.
Proof.
  intros Hne. unfold _ensure_session. destruct (mem !! sid); [done|].
  by rewrite lookup_insert_ne.
Qed.

Lemma ensure_session_log_of sid sid' agent mem :
  log_of sid' agent (_ensure_session sid mem) = log_of sid' agent mem.
Proof.
  unfold log_of. destruct (decide (sid = sid')) as [<-|Hne].
  - rewrite ensure_session_lookup. destruct (mem !! sid); [done|].
    cbn. apply new_session_logs.
  - by rewrite ensure_session_other.
Qed.

Lemma wf_memory_empty : wf_memory ∅.
Proof. intros sid agents agent Hsid. by rewrite lookup_empty in Hsid. Qed.

Lemma wf_memory_ensure sid mem :
  wf_memory mem → wf_memory (_ensure_session sid mem).
Proof.
  intros Hwf sid' agents agent Hsid Hknown.
  destruct (decide (sid = sid')) as [<-|Hne].
  - rewrite ensure_session_lookup in Hsid. injection Hsid as <-.
    destruct (mem !! sid) eqn:Hmem; cbn; [by eapply Hwf|].
    rewrite new_session_known by done. by eexists.
  - rewrite ensure_session_other in Hsid by done. by eapply Hwf.
Qed.

Lemma wf_memory_update sid agent log agents mem :
  wf_memory mem → mem !! sid = Some agents →
  wf_memory (<[sid := <[agent := log]> agents]> mem).
Proof.
  intros Hwf Hagents sid' agents' agent' Hsid Hknown.
  destruct (decide (sid = sid')) as [<-|Hne].
  - rewrite lookup_insert_eq in Hsid. injection Hsid as <-.
    destruct (decide (agent = agent')) as [<-|Hne].
    + rewrite lookup_insert_eq. by eexists.
    + rewrite lookup_insert_ne by done. by eapply Hwf.
  - rewrite lookup_insert_ne in Hsid by done. by eapply Hwf.
Qed.

Lemma get_history_log_of sid agent mem :
  sid ≠ [] →
  (get_history (Some sid) agent mem).1 = Ok (log_of sid agent mem).
Proof.
  intros Hsid. unfold get_history.
  destruct sid as [|c sid]; [done|]. cbn [nonempty].
  rewrite ensure_session_lookup. cbn [fst]. f_equal.
  unfold log_of. destruct (mem !! (c :: sid)); [done|].
  cbn. apply new_session_logs.
Qed.

Section Append.
Context `{!Config.t}.

(** One call of [add_message] on a known agent type. *)
Lemma add_message_known now sid agent role content mem :
  sid ≠ [] → agent ∈ known_agents → wf_memory mem →
  ∃ mem',
    add_message now (Some sid) agent role content mem = (Ok (), mem')
    ∧ wf_memory mem'
    ∧ log_of sid agent mem'
      = (let log := log_of sid agent mem
                    ++ [{| MemoryManager.role := role;
                           MemoryManager.content := content;
                           timestamp := now |}] in
         if MAX_CONVERSATION_HISTORY <? Z.of_nat (length log)
         then Py.slice_from (- MAX_CONVERSATION_HISTORY) log
         else log).
Proof.
  intros Hsid Hknown Hwf. unfold add_message.
  destruct sid as [|c sid]; [done|]. cbn [nonempty].
  pose proof (wf_memory_ensure (c :: sid) mem Hwf) as Hwf'.
  pose proof (ensure_session_log_of (c :: sid) (c :: sid) agent mem) as Hlog.
  destruct (_ensure_session (c :: sid) mem !! (c :: sid))
    as [agents|] eqn:Hagents;
    [|by rewrite ensure_session_lookup in Hagents].
  destruct (Hwf' _ _ _ Hagents Hknown) as [log Hlog0].
  rewrite Hlog0. eexists. split_and!; [done|by apply wf_memory_update|].
  unfold log_of in Hlog |- *. rewrite Hagents in Hlog. cbn in Hlog.
  rewrite Hlog0 in Hlog. cbn in Hlog. subst log.
  rewrite lookup_insert_eq. cbn. by rewrite lookup_insert_eq.
Qed.

Lemma truncate_newest (log : list entry) :
  1 ≤ MAX_CONVERSATION_HISTORY →
  (if MAX_CONVERSATION_HISTORY <? Z.of_nat (length log)
   then Py.slice_from (- MAX_CONVERSATION_HISTORY) log
   else log)
  = newest (Z.to_nat MAX_CONVERSATION_HISTORY) log.
Proof.
  intros Hcap. unfold newest.
  destruct (Z.ltb_spec MAX_CONVERSATION_HISTORY (Z.of_nat (length log))).
  - by apply slice_from_neg.
  - by replace (length log - Z.to_nat MAX_CONVERSATION_HISTORY)%nat
      with 0%nat by lia.
Qed.

Lemma add_messages_known sid agent msgs mem :
  1 ≤ MAX_CONVERSATION_HISTORY →
  sid ≠ [] → agent ∈ known_agents → wf_memory mem → msgs ≠ [] →
  ∃ mem',
    add_messages (Some sid) agent msgs mem = (Ok (), mem')
    ∧ wf_memory mem'
    ∧ log_of sid agent mem'
      = newest (Z.to_nat MAX_CONVERSATION_HISTORY)
          (log_of sid agent mem ++ msgs).
Proof.
  intros Hcap Hsid Hknown. revert mem.
  induction msgs as [|[r c t] rest IH]; intros mem Hwf Hne; [done|].
  cbn [add_messages timestamp role content].
  destruct (add_message_known t sid agent r c mem Hsid Hknown Hwf)
    as (mem1 & -> & Hwf1 & Hlog1).
  rewrite truncate_newest in Hlog1 by done.
  destruct rest as [|m rest].
  - cbn [add_messages]. by eexists.
  - destruct (IH mem1 Hwf1) as (mem' & Hrun & Hwf' & Hlog'); [done|].
    exists mem'. split_and!; [done..|].
    rewrite Hlog', Hlog1, newest_newest_app, <- app_assoc. done.
Qed.

(** Where [add_message] keeps the cap: for a cap of at least 1, a
    non-empty session id and one of the agent types [_ensure_session]
    creates, every [add_message] succeeds; after any non-empty run of
    calls the log is the newest [cap] messages of the old log followed by
    the new ones, in order, so it never holds more than [cap] messages;
    after [cap + 1] calls on an empty log it holds all but the first
    message. *)
Theorem add_message_keeps_newest (sid agent : str) (msgs : list entry)
    (mem : memory) :
  1 ≤ MAX_CONVERSATION_HISTORY →
  sid ≠ [] → agent ∈ known_agents → wf_memory mem → msgs ≠ [] →
  ∃ mem',
    add_messages (Some sid) agent msgs mem = (Ok (), mem')
    ∧ (get_history (Some sid) agent mem').1 = Ok (log_of sid agent mem')
    ∧ log_of sid agent mem'
      = newest (Z.to_nat MAX_CONVERSATION_HISTORY)
          (log_of sid agent mem ++ msgs)
    ∧ Z.of_nat (length (log_of sid agent mem')) ≤ MAX_CONVERSATION_HISTORY
    ∧ (log_of sid agent mem = [] →
       Z.of_nat (length msgs) = MAX_CONVERSATION_HISTORY + 1 →
       log_of sid agent mem' = drop 1 msgs).
Proof.
  intros Hcap Hsid Hknown Hwf Hne.
  destruct (add_messages_known sid agent msgs mem) as (mem' & Hrun & _ & Hlog);
    [done..|].
  exists mem'. split_and!; [done|by apply get_history_log_of|done| |].
  - rewrite Hlog. pose proof (newest_length
      (Z.to_nat MAX_CONVERSATION_HISTORY) (log_of sid agent mem ++ msgs)). lia.
  - intros Hempty Hlen. rewrite Hlog, Hempty. cbn [app]. unfold newest.
    f_equal. lia.
Qed.

End Append.

Lemma new_session_unknown agent :
  agent ∉ known_agents → new_session !! agent = None.
Proof.
  unfold known_agents, new_session. rewrite !not_elem_of_cons.
  intros (? & ? & ? & _). by rewrite !lookup_insert_ne, lookup_empty.
Qed.

(** [add_message] raises on every agent type that the session, once
    ensured, does not hold. *)
Lemma add_message_unknown_agent `{!Config.t} now sid agent role content mem :
  sid ≠ [] → agent ∉ known_agents →
  (∀ agents, mem !! sid = Some agents → agents !! agent = None) →
  (add_message now (Some sid) agent role content mem).1
  = Raise (KeyError agent).
Proof.
  intros Hsid Hagent Hmem. unfold add_message.
  destruct sid as [|c sid]; [done|]. cbn [nonempty].
  rewrite ensure_session_lookup.
  destruct (mem !! (c :: sid)) as [agents|] eqn:Hagents;
    cbn [default from_option id].
  - by rewrite (Hmem _ eq_refl).
  - by rewrite new_session_unknown.
Qed.

Lemma wf_memory_delete sid mem : wf_memory mem → wf_memory (delete sid mem).
Proof.
  intros Hwf sid' agents agent [_ Hsid]%lookup_delete_Some. by eapply Hwf.
Qed.

(** The statement of C10 at the input the order-lookup endpoint sends:
    [add_message] on the agent type [check_order], which no session has,
    raises [KeyError], where [get_history] and [clear_session] on the same
    agent type return normally. *)
Theorem add_message_check_order_raises :
  (@add_message Config.defaults 0 (Some (Py.text "user_123"))
     (Py.text "check_order") (Py.text "user") (Py.text "don hang cua toi") ∅).1
  = Raise (KeyError (Py.text "check_order"))
  ∧ (get_history (Some (Py.text "user_123")) (Py.text "check_order") ∅).1
    = Ok []
  ∧ (clear_session (Some (Py.text "user_123")) (Some (Py.text "check_order"))
       one_session).1 = false.
Proof. split_and!; reflexivity. Qed.

(** [get_history] always returns, and a missing session id makes the
    three operations do nothing. *)
Lemma memory_operations_without_session `{!Config.t} sid agent mem :
  nonempty sid = None →
  get_history sid agent mem = (Ok [], mem)
  ∧ (∀ now role content,
       add_message now sid agent role content mem = (Ok (), mem))
  ∧ clear_session None (Some agent) mem = (false, mem).
Proof.
  intros Hsid. unfold get_history, add_message. by rewrite Hsid.
Qed.

Lemma get_history_returns sid agent mem :
  ∃ log, (get_history sid agent mem).1 = Ok log.
Proof.
  unfold get_history. destruct (nonempty sid) as [s|]; [|by eexists].
  rewrite ensure_session_lookup. by eexists.
Qed.

(** C9, as the code has it.  A session that does not exist: [false],
    nothing changes.  An agent type the session has: its log becomes
    empty, everything else stays, [true].  An agent type the session does
    not have: nothing changes and the result is [false] although the
    session exists.  No agent type: the session is deleted, the result
    tells whether it existed, and [get_history] on any agent type of it
    then returns the empty list. *)
Theorem clear_session_cases (sid : str) (mem : memory) :
  (mem !! sid = None →
   ∀ agent, clear_session (Some sid) agent mem = (false, mem))
  ∧ (∀ agents agent,
       mem !! sid = Some agents → agent ≠ [] → is_Some (agents !! agent) →
       clear_session (Some sid) (Some agent) mem
       = (true, <[sid := <[agent := []]> agents]> mem)
       ∧ log_of sid agent (clear_session (Some sid) (Some agent) mem).2 = [])
  ∧ (∀ agents agent,
       mem !! sid = Some agents → agent ≠ [] → agents !! agent = None →
       clear_session (Some sid) (Some agent) mem = (false, mem))
  ∧ (∀ agent,
       nonempty agent = None →
       (clear_session (Some sid) agent mem).1
       = bool_decide (is_Some (mem !! sid))
       ∧ (clear_session (Some sid) agent mem).2 = delete sid mem
       ∧ ∀ channel,
           (get_history (Some sid) channel
              (clear_session (Some sid) agent mem).2).1 = Ok []).
Proof.
  unfold clear_session. cbn [mbind option_bind]. split_and!.
  - intros ->. done.
  - intros agents agent -> Hagent [log Hlog]. cbn [fmap option_fmap option_map].
    destruct agent as [|c agent]; [done|]. cbn [nonempty]. rewrite Hlog.
    split; [done|]. cbn [snd]. unfold log_of.
    rewrite lookup_insert_eq. cbn. by rewrite lookup_insert_eq.
  - intros agents agent -> Hagent Hnone. cbn [fmap option_fmap option_map].
    destruct agent as [|c agent]; [done|]. cbn [nonempty]. by rewrite Hnone.
  - intros agent Hagent.
    assert ((clear_session (Some sid) agent mem).2 = delete sid mem) as Hmem.
    { unfold clear_session. cbn [mbind option_bind].
      destruct (mem !! sid) eqn:Hsid; cbn; [by rewrite Hagent|].
      symmetry. by apply delete_id. }
    unfold clear_session in Hmem. cbn [mbind option_bind] in Hmem.
    split_and!; [|done|].
    + destruct (mem !! sid) eqn:Hsid; cbn; [by rewrite Hagent|done].
    + intros channel. rewrite Hmem.
      destruct sid as [|c sid]; [done|].
      rewrite get_history_log_of by done. unfold log_of.
      by rewrite lookup_delete_eq.
Qed.

Lemma foldl_delete_lookup (sids : list str) (mem : memory) (sid : str) :
  foldl (λ m k, delete k m) mem sids !! sid
  = if decide (sid ∈ sids) then None else mem !! sid.
Proof.
  revert mem. induction sids as [|k sids IH]; intros mem; [done|].
  cbn [foldl]. rewrite IH.
  destruct (decide (sid = k)) as [->|Hne].
  - rewrite lookup_delete_eq.
    rewrite (decide_True (P := k ∈ k :: sids)) by left. by case_decide.
  - rewrite lookup_delete_ne by done.
    destruct (decide (sid ∈ sids)) as [Hin|Hin].
    + by rewrite decide_True by by right.
    + rewrite decide_False; [done|]. by intros [?|?]%elem_of_cons.
Qed.

(** The loop over the logs, started from any intermediate value. *)
Lemma most_recent_fold (logs : list (list entry)) (start : option Z) :
  match
    foldl (λ most_recent agent_messages,
             match last agent_messages with
             | None => most_recent
             | Some msg =>
                 match most_recent with
                 | None => Some (timestamp msg)
                 | Some t => if t <? timestamp msg then Some (timestamp msg)
                             else most_recent
                 end
             end) start logs
  with
  | Some t =>
      (start = Some t
       ∨ ∃ log msg, log ∈ logs ∧ last log = Some msg ∧ timestamp msg = t)
      ∧ (∀ t0, start = Some t0 → t0 ≤ t)
      ∧ (∀ log msg, log ∈ logs → last log = Some msg → timestamp msg ≤ t)
  | None => start = None ∧ ∀ log, log ∈ logs → last log = None
  end.
Proof.
  revert start. induction logs as [|log logs IH]; intros start.
  - cbn. destruct start as [t|].
    + split_and!; [by left|by intros ? [= ->]|]. intros ?? Hin.
      by apply elem_of_nil in Hin.
    + split; [done|]. intros ? Hin. by apply elem_of_nil in Hin.
  - cbn [foldl]. set (start' := match last log with None => _ | _ => _ end).
    specialize (IH start').
    destruct (foldl _ start' logs) as [t|].
    + destruct IH as (Hfrom & Hstart & Hlogs).
      assert (∀ msg, last log = Some msg → timestamp msg ≤ t) as Hlog.
      { intros msg Hmsg. subst start'. rewrite Hmsg in Hstart.
        destruct start as [t0|]; [|by apply Hstart].
        destruct (Z.ltb_spec t0 (timestamp msg)); [by apply Hstart|].
        specialize (Hstart t0 eq_refl). lia. }
      split_and!.
      * destruct Hfrom as [Hfrom|(log' & msg & Hin & Hlast & Ht)].
        -- subst start'. destruct (last log) as [msg|] eqn:Hmsg; [|by left].
           destruct start as [t0|].
           ++ destruct (Z.ltb_spec t0 (timestamp msg)); [|by left].
              right. exists log, msg. injection Hfrom as <-.
              split_and!; [left|done..].
           ++ right. exists log, msg. injection Hfrom as <-.
              split_and!; [left|done..].
        -- right. exists log', msg. split_and!; [by right|done..].
      * intros t0 ->. subst start'.
        destruct (last log) as [msg|]; [|by apply Hstart].
        destruct (Z.ltb_spec t0 (timestamp msg)); [|by apply Hstart].
        specialize (Hstart _ eq_refl). lia.
      * intros log' msg [->|Hin]%elem_of_cons Hlast; [by apply Hlog|].
        by eapply Hlogs.
    + destruct IH as (Hstart & Hlogs). subst start'.
      destruct (last log) as [msg|] eqn:Hmsg.
      { by destruct start as [t0|]; [destruct (t0 <? timestamp msg)|]. }
      split; [done|]. by intros log' [->|Hin]%elem_of_cons; [|apply Hlogs].
Qed.

Lemma elem_of_logs (agents : gmap str (list entry)) (log : list entry) :
  log ∈ (map_to_list agents).*2 ↔ ∃ agent, agents !! agent = Some log.
Proof.
  rewrite list_elem_of_fmap. split.
  - intros ([agent log'] & -> & Hin). exists agent.
    by apply elem_of_map_to_list.
  - intros (agent & Hagent). exists (agent, log). split; [done|].
    by apply elem_of_map_to_list.
Qed.

Lemma most_recent_spec (agents : gmap str (list entry)) :
  match most_recent agents with
  | Some t => latest agents t
  | None => silent agents
  end.
Proof.
  unfold most_recent.
  pose proof (most_recent_fold (map_to_list agents).*2 None) as Hfold.
  destruct (foldl _ None _) as [t|].
  - destruct Hfold as ([?|(log & msg & Hin & Hlast & Ht)] & _ & Hmax); [done|].
    split.
    + apply elem_of_logs in Hin as [agent Hagent]. by exists agent, log, msg.
    + intros agent log' msg' Hagent Hlast'. eapply Hmax; [|done].
      apply elem_of_logs. by exists agent.
  - destruct Hfold as [_ Hnone]. intros agent log Hagent.
    apply last_None, Hnone, elem_of_logs. by exists agent.
Qed.

Lemma latest_unique agents t1 t2 : latest agents t1 → latest agents t2 → t1 = t2.
Proof.
  intros [(a1 & l1 & m1 & H1 & Hl1 & <-) Hmax1]
         [(a2 & l2 & m2 & H2 & Hl2 & <-) Hmax2].
  pose proof (Hmax1 _ _ _ H2 Hl2). pose proof (Hmax2 _ _ _ H1 Hl1). lia.
Qed.

Lemma filter_none {A} (P : A → Prop) `{!∀ x, Decision (P x)} (l : list A) :
  (∀ x, x ∈ l → ¬ P x) → filter P l = [].
Proof.
  induction l as [|x l IH]; intros Hnone; [done|].
  rewrite filter_cons, decide_False by (apply Hnone; left).
  apply IH. intros y Hy. apply Hnone. by right.
Qed.

Lemma timedelta_hours_spec (h : Z) :
  (representable h ∧ timedelta_hours h = Ok (h * 3600000000))
  ∨ (¬ representable h ∧ timedelta_hours h = Raise OverflowError).
Proof.
  unfold timedelta_hours, representable.
  pose proof (Z.div_mod h 24). pose proof (Z.mod_pos_bound h 24).
  destruct (Z.leb_spec (-999999999) (h / 24));
    destruct (Z.leb_spec (h / 24) 999999999); cbn [andb];
    [left|right..]; (split; [lia|done]).
Qed.

Lemma latest_not_silent agents t : latest agents t → silent agents → False.
Proof.
  intros [(agent & log & msg & Hlog & Hlast & _) _] Hsilent.
  apply Hsilent in Hlog. by subst log.
Qed.

(** The three outcomes of the test on one session. *)
Lemma is_old_cases current_time max_age_hours agents :
  match is_old current_time max_age_hours agents with
  | Ok true =>
      representable max_age_hours
      ∧ ∃ t, latest agents t ∧ max_age_hours * 3600000000 < current_time - t
  | Ok false =>
      silent agents
      ∨ (representable max_age_hours
         ∧ ∃ t, latest agents t
                ∧ ¬ max_age_hours * 3600000000 < current_time - t)
  | Raise e =>
      e = OverflowError ∧ ¬ representable max_age_hours
      ∧ ∃ t, latest agents t
  end.
Proof.
  unfold is_old. pose proof (most_recent_spec agents) as Hspec.
  destruct (most_recent agents) as [t|]; [|by left].
  destruct (timedelta_hours_spec max_age_hours) as [[Hrep ->]|[Hrep ->]].
  - destruct (Z.ltb_spec (max_age_hours * 3600000000) (current_time - t)).
    + split; [done|]. by exists t.
    + right. split; [done|]. exists t. split; [done|lia].
  - split_and!; [done|done|by exists t].
Qed.

Lemma is_old_spec current_time max_age_hours agents :
  is_old current_time max_age_hours agents = Ok true
  ↔ representable max_age_hours
    ∧ ∃ t, latest agents t ∧ max_age_hours * 3600000000 < current_time - t.
Proof.
  pose proof (is_old_cases current_time max_age_hours agents) as Hcases.
  split.
  - intros Hold. by rewrite Hold in Hcases.
  - intros (Hrep & t & Hlatest & Hage).
    destruct (is_old current_time max_age_hours agents) as [[|]|e];
      [done| |by destruct Hcases as (_ & ? & _)].
    destruct Hcases as [Hsilent|(_ & t' & Hlatest' & Hyoung)].
    + destruct (latest_not_silent _ _ Hlatest Hsilent).
    + by rewrite (latest_unique _ _ _ Hlatest Hlatest') in Hage.
Qed.

Lemma collect_old_spec current_time max_age_hours items acc :
  match collect_old current_time max_age_hours items acc with
  | Ok sids =>
      sids = acc ++ (filter (λ kv, is_old current_time max_age_hours kv.2
                                   = Ok true) items).*1
      ∧ ∀ kv, kv ∈ items →
              ∃ b, is_old current_time max_age_hours kv.2 = Ok b
  | Raise e =>
      ∃ kv, kv ∈ items ∧ is_old current_time max_age_hours kv.2 = Raise e
  end.
Proof.
  revert acc. induction items as [|[sid agents] rest IH]; intros acc;
    cbn [collect_old].
  { split; [by rewrite app_nil_r|]. intros kv Hkv. by apply elem_of_nil in Hkv. }
  rewrite filter_cons. cbn [snd].
  destruct (is_old current_time max_age_hours agents) as [[|]|e] eqn:Hold.
  - rewrite decide_True by done. specialize (IH (acc ++ [sid])).
    destruct (collect_old _ _ rest _) as [sids|e].
    + destruct IH as [-> Hall]. split; [by rewrite <- app_assoc|].
      intros kv [->|Hkv]%elem_of_cons; [by eexists|by apply Hall].
    + destruct IH as (kv & Hkv & Hraise). exists kv. split; [by right|done].
  - rewrite decide_False by done. specialize (IH acc).
    destruct (collect_old _ _ rest _) as [sids|e].
    + destruct IH as [-> Hall]. split; [done|].
      intros kv [->|Hkv]%elem_of_cons; [by eexists|by apply Hall].
    + destruct IH as (kv & Hkv & Hraise). exists kv. split; [by right|done].
  - exists (sid, agents). split; [left|done].
Qed.

(** The sweep either returns, having deleted the sessions it collected,
    or raises at some session's test and changes nothing. *)
Lemma cleanup_old_sessions_spec current_time max_age_hours mem :
  match (cleanup_old_sessions current_time max_age_hours mem).1 with
  | Ok n =>
      cleanup_old_sessions current_time max_age_hours mem
      = (Ok (length (swept current_time max_age_hours mem)),
         foldl (λ m sid, delete sid m) mem
               (swept current_time max_age_hours mem))
      ∧ ∀ sid agents, mem !! sid = Some agents →
          ∃ b, is_old current_time max_age_hours agents = Ok b
  | Raise e =>
      cleanup_old_sessions current_time max_age_hours mem = (Raise e, mem)
      ∧ ∃ sid agents,
          mem !! sid = Some agents
          ∧ is_old current_time max_age_hours agents = Raise e
  end.
Proof.
  unfold cleanup_old_sessions, swept.
  pose proof (collect_old_spec current_time max_age_hours (map_to_list mem) [])
    as Hspec.
  destruct (collect_old _ _ _ _) as [sids|e]; cbn [fst].
  - destruct Hspec as [-> Hall]. cbn [app]. split; [done|].
    intros sid agents Hsid. apply (Hall (sid, agents)).
    by apply elem_of_map_to_list.
  - destruct Hspec as ([sid agents] & Hin & Hraise). split; [done|].
    exists sid, agents. split; [by apply elem_of_map_to_list|done].
Qed.

Lemma elem_of_swept current_time max_age_hours mem sid agents :
  mem !! sid = Some agents →
  sid ∈ swept current_time max_age_hours mem
  ↔ is_old current_time max_age_hours agents = Ok true.
Proof.
  intros Hsid. unfold swept. rewrite list_elem_of_fmap. split.
  - intros ([sid' agents'] & Heq & [Hold Hmem]%list_elem_of_filter).
    cbn in Heq. subst sid'. apply elem_of_map_to_list in Hmem.
    rewrite Hsid in Hmem. by injection Hmem as <-.
  - intros Hold. exists (sid, agents). split; [done|].
    apply list_elem_of_filter. split; [done|].
    by apply elem_of_map_to_list.
Qed.

(** The memory after a sweep is the memory before it less some
    sessions. *)
Lemma cleanup_old_sessions_memory current_time max_age_hours mem :
  ∃ sids,
    (cleanup_old_sessions current_time max_age_hours mem).2
    = foldl (λ m sid, delete sid m) mem sids.
Proof.
  pose proof (cleanup_old_sessions_spec current_time max_age_hours mem)
    as Hspec.
  destruct (cleanup_old_sessions current_time max_age_hours mem).1 as [n|e].
  - destruct Hspec as [-> _]. by eexists.
  - destruct Hspec as [-> _]. by exists [].
Qed.

(** C5, as the code has it.  For a threshold that [timedelta] can hold
    the sweep returns, and a session is deleted exactly when one of its
    logs holds a message and the latest of the last messages' time stamps
    is older than the threshold; every other session, a session without
    any message among them, is kept as it was.  No session is created.
    For a threshold outside that range nothing is deleted: the sweep
    raises [OverflowError] as soon as some session holds a message, and
    returns 0 when none does. *)
Theorem cleanup_old_sessions_deletes (current_time max_age_hours : Z)
    (mem : memory) :
  let out := cleanup_old_sessions current_time max_age_hours mem in
  (representable max_age_hours →
   (∃ n, out.1 = Ok n)
   ∧ ∀ sid agents,
       mem !! sid = Some agents →
       (out.2 !! sid = None
        ↔ ∃ t, latest agents t
               ∧ max_age_hours * 3600000000 < current_time - t)
       ∧ (out.2 !! sid = None ∨ out.2 !! sid = Some agents)
       ∧ (silent agents → out.2 !! sid = Some agents))
  ∧ (∀ sid, mem !! sid = None → out.2 !! sid = None)
  ∧ (¬ representable max_age_hours →
     out.2 = mem
     ∧ ((∃ sid agents t, mem !! sid = Some agents ∧ latest agents t) →
        out.1 = Raise OverflowError)
     ∧ ((∀ sid agents, mem !! sid = Some agents → silent agents) →
        out.1 = Ok 0%nat)).
Proof.
  cbn zeta.
  pose proof (cleanup_old_sessions_spec current_time max_age_hours mem)
    as Hspec.
  split_and!.
  - intros Hrep.
    destruct (cleanup_old_sessions current_time max_age_hours mem).1
      as [n|e] eqn:Hout.
    2:{ destruct Hspec as (_ & sid & agents & _ & Hraise).
        pose proof (is_old_cases current_time max_age_hours agents) as Hcases.
        rewrite Hraise in Hcases. by destruct Hcases as (_ & ? & _). }
    destruct Hspec as [Hrun _]. split; [by eexists|].
    intros sid agents Hsid. rewrite Hrun. cbn [snd].
    rewrite foldl_delete_lookup, Hsid.
    pose proof (elem_of_swept current_time max_age_hours mem sid agents Hsid)
      as Hin.
    rewrite is_old_spec in Hin.
    assert (sid ∈ swept current_time max_age_hours mem
            ↔ ∃ t, latest agents t
                   ∧ max_age_hours * 3600000000 < current_time - t) as Hin'.
    { rewrite Hin. split; [by intros [_ ?]|done]. }
    split_and!.
    + case_decide; [by rewrite <- Hin'|]. split; [done|]. by rewrite <- Hin'.
    + case_decide; [by left|by right].
    + intros Hsilent. rewrite decide_False; [done|].
      rewrite Hin'. intros (t & Hlatest & _).
      by apply (latest_not_silent _ _ Hlatest).
  - intros sid Hsid.
    destruct (cleanup_old_sessions_memory current_time max_age_hours mem)
      as [sids ->].
    rewrite foldl_delete_lookup, Hsid. by case_decide.
  - intros Hrep.
    assert (swept current_time max_age_hours mem = []) as Hnone.
    { unfold swept. rewrite filter_none; [done|].
      intros [sid agents] _ Hold. cbn [snd] in Hold.
      apply is_old_spec in Hold as [? _]. done. }
    assert ((cleanup_old_sessions current_time max_age_hours mem).2 = mem)
      as Hmem.
    { destruct (cleanup_old_sessions current_time max_age_hours mem).1
        as [n|e]; destruct Hspec as [-> _]; [|done].
      cbn [snd]. by rewrite Hnone. }
    split_and!; [done| |].
    + intros (sid & agents & t & Hsid & Hlatest).
      destruct (cleanup_old_sessions current_time max_age_hours mem).1
        as [n|e].
      * destruct Hspec as [_ Hall]. destruct (Hall sid agents Hsid) as [b Hb].
        pose proof (is_old_cases current_time max_age_hours agents) as Hcases.
        rewrite Hb in Hcases. destruct b.
        -- by destruct Hcases as [? _].
        -- destruct Hcases as [Hsilent|[? _]]; [|done].
           destruct (latest_not_silent _ _ Hlatest Hsilent).
      * destruct Hspec as (_ & sid' & agents' & _ & Hraise).
        pose proof (is_old_cases current_time max_age_hours agents') as Hcases.
        rewrite Hraise in Hcases. by destruct Hcases as [-> _].
    + intros Hsilent.
      destruct (cleanup_old_sessions current_time max_age_hours mem).1
        as [n|e] eqn:Hout.
      * destruct Hspec as [Hrun _]. rewrite Hrun in Hout. cbn [fst] in Hout.
        by rewrite <- Hout, Hnone.
      * destruct Hspec as (_ & sid & agents & Hsid & Hraise).
        pose proof (is_old_cases current_time max_age_hours agents) as Hcases.
        rewrite Hraise in Hcases. destruct Hcases as (_ & _ & t & Hlatest).
        destruct (latest_not_silent _ _ Hlatest (Hsilent _ _ Hsid)).
Qed.

(** Sessions are only ever deleted, never created or changed, by the
    sweep. *)
Lemma cleanup_old_sessions_absent current_time max_age_hours mem sid :
  mem !! sid = None →
  (cleanup_old_sessions current_time max_age_hours mem).2 !! sid = None.
Proof.
  intros Hsid.
  destruct (cleanup_old_sessions_memory current_time max_age_hours mem)
    as [sids ->].
  rewrite foldl_delete_lookup, Hsid. by case_decide.
Qed.

(** Every method keeps the memory well formed. *)
Lemma wf_memory_preserved `{!Config.t} mem :
  wf_memory mem →
  (∀ sid agent, wf_memory (get_history sid agent mem).2)
  ∧ (∀ now sid agent role content,
       wf_memory (add_message now sid agent role content mem).2)
  ∧ (∀ sid agent, wf_memory (clear_session sid agent mem).2)
  ∧ (∀ now age, wf_memory (cleanup_old_sessions now age mem).2).
Proof.
  intros Hwf. split_and!.
  - intros sid agent. unfold get_history.
    destruct (nonempty sid) as [s|]; [|done].
    pose proof (wf_memory_ensure s mem Hwf).
    by destruct (_ensure_session s mem !! s).
  - intros now sid agent role content. unfold add_message.
    destruct (nonempty sid) as [s|]; [|done].
    pose proof (wf_memory_ensure s mem Hwf) as Hwf'.
    destruct (_ensure_session s mem !! s) as [agents|] eqn:Hs; [|done].
    destruct (agents !! agent); [|done].
    by apply wf_memory_update.
  - intros [sid|] agent; unfold clear_session; cbn [mbind option_bind];
      [|done].
    destruct (mem !! sid) as [agents|] eqn:Hs; [|done]. cbn.
    destruct (nonempty agent) as [a|]; [|by apply wf_memory_delete].
    destruct (agents !! a); [|done]. by apply wf_memory_update.
  - intros now age sid agents agent.
    destruct (cleanup_old_sessions_memory now age mem) as [sids ->].
    rewrite foldl_delete_lookup. case_decide; [done|]. by apply Hwf.
Qed.

End Memory.

Import MemoryManager.

(** Three messages under a cap of two: the last two remain. *)
Lemma add_message_keeps_newest_witness :
  ∃ mem',
    @add_messages cap_two (Some (Py.text "user_123")) (Py.text "consulting")
      [user_msg 1; user_msg 2; user_msg 3] ∅ = (Ok (), mem')
    ∧ log_of (Py.text "user_123") (Py.text "consulting") mem'
      = [user_msg 2; user_msg 3].
Proof.
  destruct (@add_message_keeps_newest cap_two (Py.text "user_123")
              (Py.text "consulting") [user_msg 1; user_msg 2; user_msg 3] ∅)
    as (mem' & Hrun & _ & _ & _ & Hdrop).
  - cbn. lia.
  - discriminate.
  - do 2 apply list_elem_of_further. apply list_elem_of_here.
  - apply wf_memory_empty.
  - discriminate.
  - exists mem'. split; [exact Hrun|]. apply Hdrop; reflexivity.
Defined.

(** C2 at two inputs the code can receive, where it misses what it sets
    out to do.  With cap 1, two messages for [check_order], the agent
    type of the order-lookup endpoint: the first call raises [KeyError]
    and the log read back is empty, not the newest message.  With cap 0,
    one message for [consulting]: the truncation keeps [log[-0:]], which
    is the whole log, so the log holds one message and exceeds the
    cap. *)
Lemma add_message_unknown_agent_or_zero_cap :
  (let cap_one : Config.t := {| Config.MAX_CONVERSATION_HISTORY := 1 |} in
   @add_messages cap_one (Some (Py.text "user_123")) (Py.text "check_order")
     [user_msg 1; user_msg 2] ∅
   = (Raise (KeyError (Py.text "check_order")), one_session)
   ∧ (get_history (Some (Py.text "user_123")) (Py.text "check_order")
        one_session).1 = Ok [])
  ∧ (∃ mem',
       @add_message cap_zero 1 (Some (Py.text "user_123"))
         (Py.text "consulting") (Py.text "user") (Py.text "xin chao") ∅
       = (Ok (), mem')
       ∧ log_of (Py.text "user_123") (Py.text "consulting") mem'
         = [user_msg 1]
       ∧ ¬ Z.of_nat (length (log_of (Py.text "user_123")
                                  (Py.text "consulting") mem'))
           ≤ @Config.MAX_CONVERSATION_HISTORY cap_zero).
Proof.
  split; [split; reflexivity|].
  eexists. split_and!; [reflexivity|reflexivity|].
  vm_compute. intros H. apply H. reflexivity.
Qed.

(** The four cases on the memory of session [user_123]. *)
Lemma clear_session_cases_witness :
  clear_session (Some (Py.text "user_123")) (Some (Py.text "consulting"))
    (<[Py.text "user_123" := one_message]> ∅)
  = (true, one_session)
  ∧ clear_session (Some (Py.text "user_123")) (Some (Py.text "check_order"))
      one_session = (false, one_session)
  ∧ (clear_session (Some (Py.text "user_123")) None one_session).1 = true
  ∧ clear_session (Some (Py.text "khach_la")) None one_session
    = (false, one_session).
Proof.
  destruct (clear_session_cases (Py.text "user_123")
              (<[Py.text "user_123" := one_message]> ∅))
    as (_ & Hknown & _ & _).
  destruct (clear_session_cases (Py.text "user_123") one_session)
    as (_ & _ & Hunknown & Hall).
  destruct (clear_session_cases (Py.text "khach_la") one_session)
    as (Habsent & _ & _ & _).
  split_and!.
  - destruct (Hknown one_message (Py.text "consulting")) as [-> _];
      [reflexivity|discriminate|by eexists|reflexivity].
  - apply (Hunknown new_session); [reflexivity|discriminate|reflexivity].
  - destruct (Hall None) as (-> & _); reflexivity.
  - apply Habsent. reflexivity.
Defined.

(** C9 as stated fails: the session exists, yet clearing an agent type it
    does not hold returns [false]. *)
Lemma clear_session_unknown_agent_false :
  is_Some (one_session !! Py.text "user_123")
  ∧ clear_session (Some (Py.text "user_123")) (Some (Py.text "check_order"))
      one_session = (false, one_session).
Proof. split; [by eexists|reflexivity]. Qed.

(** A sweep 25 hours after the only message of [user_123], with a
    threshold of 24 hours: the session is deleted, while a session
    without any message is kept. *)
Lemma cleanup_old_sessions_deletes_witness :
  (cleanup_old_sessions (25 * 3600000000) 24
     (<[Py.text "khach_moi" := new_session]>
        (<[Py.text "user_123" := one_message]> ∅))).2
  !! Py.text "user_123" = None
  ∧ (cleanup_old_sessions (25 * 3600000000) 24
       (<[Py.text "khach_moi" := new_session]>
          (<[Py.text "user_123" := one_message]> ∅))).2
    !! Py.text "khach_moi" = Some new_session.
Proof.
  destruct (cleanup_old_sessions_deletes (25 * 3600000000) 24
              (<[Py.text "khach_moi" := new_session]>
                 (<[Py.text "user_123" := one_message]> ∅)))
    as (Hswept & _ & _).
  destruct Hswept as [_ Hswept]; [unfold representable; lia|].
  split.
  - destruct (Hswept (Py.text "user_123") one_message) as (Hgone & _ & _);
      [reflexivity|].
    apply Hgone. exists 0. split; [|lia].
    exact (most_recent_spec one_message).
  - destruct (Hswept (Py.text "khach_moi") new_session) as (_ & _ & Hkept);
      [reflexivity|].
    apply Hkept. exact (most_recent_spec new_session).
Defined.

(** C5 as stated fails: a session without any message is never deleted,
    however long ago it was created. *)
Lemma cleanup_old_sessions_keeps_silent :
  silent new_session
  ∧ cleanup_old_sessions (1000 * 3600000000) 24 one_session
    = (Ok 0%nat, one_session)
  ∧ one_session !! Py.text "user_123" = Some new_session.
Proof.
  split_and!; [|reflexivity..].
  intros agent log. unfold new_session.
  rewrite !lookup_insert, lookup_empty.
  repeat case_decide; by intros [= <-].
Qed.

(** ** smart_document_handler.py: query expansion *)

Section Expansion.
Context `{!Runtime} `{!HashOrder}.
Import SmartDocumentHandler.

Lemma rewrite_query_fallback user_input session_id st :
  falls_back user_input session_id st →
  rewrite_query user_input session_id st = (fallback user_input, st).
Proof.
  unfold rewrite_query.
  intros [Hmodel|g Hmodel Hcall|g r Hmodel Hcall Hre|g r js Hmodel Hcall Hre Hjs
         |g r js v Hmodel Hcall Hre Hjs Hobj]; rewrite Hmodel;
    [reflexivity|..]; rewrite Hcall.
  - reflexivity.
  - rewrite Hre. reflexivity.
  - rewrite Hre, Hjs. reflexivity.
  - rewrite Hre, Hjs.
    destruct v as [| | | | |data]; [reflexivity..|destruct (Hobj data eq_refl)].
Qed.

Lemma rewrite_query_parsed user_input session_id st data :
  rewrites_to user_input session_id st data →
  rewrite_query user_input session_id st
  = (default (VList []) (dict_get (Py.text "search_queries") data),
     match nonempty session_id with
     | Some sid =>
         set_context (<[sid := context_of data]> (conversation_context st)) st
     | None => st
     end).
Proof.
  intros [g r js Hmodel Hcall Hre Hjs]. unfold rewrite_query.
  rewrite Hmodel, Hcall, Hre, Hjs. reflexivity.
Qed.

Lemma rewrite_query_paths user_input session_id st :
  falls_back user_input session_id st
  ∨ ∃ data, rewrites_to user_input session_id st data.
Proof.
  destruct (model st) as [g|] eqn:Hmodel; [|left; by apply no_capability].
  destruct (g system_prompt (sent_prompt user_input session_id st))
    as [r|] eqn:Hcall; [|left; eapply call_raises; eassumption].
  destruct (re_search_braces r) as [js|] eqn:Hre;
    [|left; eapply no_json; eassumption].
  destruct (json_loads js) as [v|] eqn:Hjs;
    [|left; eapply unparseable; eassumption].
  destruct v as [| | | | |data];
    try (left; eapply not_an_object; [eassumption..|discriminate]).
  right. exists data. eapply parsed; eassumption.
Qed.

Lemma paths_exclusive user_input session_id st data :
  falls_back user_input session_id st →
  rewrites_to user_input session_id st data → False.
Proof.
  intros Hfall [g r js Hmodel Hcall Hre Hjs].
  destruct Hfall as [Hm|g' Hm Hc|g' r' Hm Hc Hr|g' r' js' Hm Hc Hr Hj
                    |g' r' js' v Hm Hc Hr Hj Hobj]; congruence.
Qed.

Lemma rewrites_to_unique user_input session_id st data data' :
  rewrites_to user_input session_id st data →
  rewrites_to user_input session_id st data' → data = data'.
Proof.
  intros [g r js Hmodel Hcall Hre Hjs] [g' r' js' Hm Hc Hr Hj]. congruence.
Qed.

Lemma join_nonempty sep (ws : list str) :
  ws ≠ [] → Forall (λ w, w ≠ []) ws → Py.join sep ws ≠ [].
Proof.
  destruct ws as [|w ws]; [done|]. intros _ Hws.
  apply Forall_cons in Hws as [Hw _].
  destruct w as [|c w]; [done|]. by destruct ws.
Qed.

Lemma bigrams_nonempty (kws : list str) :
  Forall (λ q, q ≠ []) (bigrams kws).
Proof.
  induction kws as [|a [|b rest] IH]; cbn [bigrams]; [constructor..|].
  constructor; [|exact IH].
  intros [_ Hnil]%app_eq_nil. apply app_eq_nil in Hnil as [Hsp _].
  vm_compute in Hsp. discriminate.
Qed.

Lemma remove_dups_nonempty {A} `{EqDecision A} (l : list A) :
  l ≠ [] → remove_dups l ≠ [].
Proof.
  destruct l as [|x l]; [done|]. intros _ Hnil.
  assert (x ∈ remove_dups (x :: l)) as Hin by (apply elem_of_remove_dups; left).
  rewrite Hnil in Hin. by apply elem_of_nil in Hin.
Qed.

(** The list [queries] that [_simple_keyword_extraction] builds before it
    removes duplicates. *)
Lemma simple_keyword_extraction_unfold text :
  _simple_keyword_extraction text
  = take 5 (set_iter
      ((if decide (length (extract_keywords text) ≤ 3)%nat
        then [Py.join (Py.text " ") (extract_keywords text)] else [])
       ++ take 3 (extract_keywords text) ++ bigrams (extract_keywords text))).
Proof.
  unfold _simple_keyword_extraction. cbv zeta.
  rewrite !slice_to_take by lia. by case_decide.
Qed.

Lemma extract_keywords_long text :
  Forall (λ w, (2 < length w)%nat) (extract_keywords text).
Proof.
  apply Forall_forall. intros w Hw. unfold extract_keywords in Hw.
  apply list_elem_of_filter in Hw. tauto.
Qed.

(** The shape of the rule-based result: one to five distinct strings;
    none of them empty when a keyword was found; the single empty string
    when none was. *)
Lemma simple_keyword_extraction_shape text :
  (1 ≤ length (_simple_keyword_extraction text) ≤ 5)%nat
  ∧ NoDup (_simple_keyword_extraction text)
  ∧ (extract_keywords text ≠ [] →
     Forall (λ q, q ≠ []) (_simple_keyword_extraction text))
  ∧ (extract_keywords text = [] → _simple_keyword_extraction text = [[]]).
Proof.
  rewrite simple_keyword_extraction_unfold.
  pose proof (extract_keywords_long text) as Hlong.
  set (kws := extract_keywords text) in *.
  set (queries := _ ++ _ ++ bigrams kws).
  assert (Forall (λ w : str, w ≠ []) kws) as Hkws.
  { eapply Forall_impl; [exact Hlong|]. intros [|c w]; cbn; [lia|done]. }
  assert (queries ≠ []) as Hsome.
  { subst queries. case_decide; [done|].
    destruct kws as [|w kws]; [cbn in *; lia|done]. }
  pose proof (set_iter_perm queries) as Hperm.
  split; [|split; [|split]].
  - rewrite length_take, Hperm.
    apply remove_dups_nonempty in Hsome.
    destruct (remove_dups queries); [done|]. cbn [length]. lia.
  - eapply sublist_NoDup; [|apply sublist_take].
    rewrite Hperm. apply NoDup_remove_dups.
  - intros Hne. apply Forall_forall. intros q Hq.
    apply elem_of_take in Hq as (i & Hq & _).
    apply list_elem_of_lookup_2 in Hq. rewrite Hperm in Hq.
    rewrite elem_of_remove_dups in Hq. subst queries.
    apply elem_of_app in Hq as [Hq|[Hq|Hq]%elem_of_app].
    + case_decide; [|by apply elem_of_nil in Hq].
      apply list_elem_of_singleton in Hq as ->. by apply join_nonempty.
    + apply elem_of_take in Hq as (j & Hq & _).
      apply list_elem_of_lookup_2 in Hq.
      by eapply (proj1 (Forall_forall _ _) Hkws).
    + by eapply (proj1 (Forall_forall _ _) (bigrams_nonempty kws)).
  - intros Hnone. subst queries. rewrite Hnone in Hperm |- *.
    cbn in Hperm |- *. apply Permutation_singleton_r in Hperm.
    by rewrite Hperm.
Qed.

(** C3, as the code has it: when there is no capability, the call
    raises or its output does not parse, [rewrite_query] returns the
    rule-based list and leaves the handler as it was.  That list holds
    one to five distinct strings.  They are all non-empty when the
    utterance has a keyword; when it has none the list is the single
    empty string.  When the output parses to an object, the result is
    that object's [search_queries], the empty list if it has none. *)
Theorem rewrite_query_fallback_shape (user_input : str)
    (session_id : option str) (st : state) :
  (falls_back user_input session_id st →
   ∃ queries,
     rewrite_query user_input session_id st = (VList (VStr <$> queries), st)
     ∧ (1 ≤ length queries ≤ 5)%nat
     ∧ NoDup queries
     ∧ (extract_keywords user_input ≠ [] → Forall (λ q, q ≠ []) queries)
     ∧ (extract_keywords user_input = [] → queries = [[]]))
  ∧ (∀ data,
       rewrites_to user_input session_id st data →
       dict_get (Py.text "search_queries") data = None →
       (rewrite_query user_input session_id st).1 = VList []).
Proof.
  split.
  - intros Hfall. exists (_simple_keyword_extraction user_input).
    split; [by apply rewrite_query_fallback|].
    apply simple_keyword_extraction_shape.
  - intros data Hdata Hnone.
    by rewrite (rewrite_query_parsed _ _ _ data), Hnone.
Qed.

(** C6, as the code has it: without a capability, on a raising call, on
    a response without a brace-delimited span and on a span that is not
    the JSON of an object, [rewrite_query] returns the rule-based list
    and changes nothing.  An object that parses is taken as it is: when
    it has no [search_queries] the result is the empty list. *)
Theorem rewrite_query_error_paths (user_input : str)
    (session_id : option str) (st : state) :
  (falls_back user_input session_id st →
   rewrite_query user_input session_id st
   = (VList (VStr <$> _simple_keyword_extraction user_input), st))
  ∧ (∀ data,
       rewrites_to user_input session_id st data →
       (rewrite_query user_input session_id st).1
       = default (VList []) (dict_get (Py.text "search_queries") data)).
Proof.
  split.
  - apply rewrite_query_fallback.
  - intros data Hdata. by rewrite (rewrite_query_parsed _ _ _ data).
Qed.

(** C8, as the code has it: [rewrite_query] never touches the base
    handler or the model.  The topic contexts change only when the
    response parsed to an object, whatever the object holds, and then,
    for a non-empty session id, the entry of the session is replaced by a
    new one, whatever it held before: its topic is the object's
    [main_topic], or [None] without one, and its entities are the
    object's [entities], or the empty list without them; the entries of
    the other sessions stay.  On every fallback path, and without a
    session id, the contexts are left as they were. *)
Theorem rewrite_query_context (user_input : str) (session_id : option str)
    (st : state) :
  base_handler (rewrite_query user_input session_id st).2 = base_handler st
  ∧ model (rewrite_query user_input session_id st).2 = model st
  ∧ (falls_back user_input session_id st →
     conversation_context (rewrite_query user_input session_id st).2
     = conversation_context st)
  ∧ (∀ data,
       rewrites_to user_input session_id st data →
       conversation_context (rewrite_query user_input session_id st).2
       = match nonempty session_id with
         | Some sid =>
             <[sid :=
                 {| topic :=
                      default VNone (dict_get (Py.text "main_topic") data);
                    entities :=
                      default (VList [])
                              (dict_get (Py.text "entities") data) |}]>
               (conversation_context st)
         | None => conversation_context st
         end)
  ∧ (∀ data sid,
       rewrites_to user_input session_id st data →
       nonempty session_id = Some sid →
       conversation_context (rewrite_query user_input session_id st).2 !! sid
       = Some {| topic :=
                   default VNone (dict_get (Py.text "main_topic") data);
                 entities :=
                   default (VList []) (dict_get (Py.text "entities") data) |}
       ∧ ∀ other,
           other ≠ sid →
           conversation_context (rewrite_query user_input session_id st).2
           !! other
           = conversation_context st !! other)
  ∧ (conversation_context (rewrite_query user_input session_id st).2
     ≠ conversation_context st →
     ∃ data, rewrites_to user_input session_id st data).
Proof.
  destruct (rewrite_query_paths user_input session_id st)
    as [Hfall|[data Hdata]].
  - rewrite (rewrite_query_fallback _ _ _ Hfall). cbn [snd].
    split_and!; [done|done|done| | |done].
    + intros data Hdata. destruct (paths_exclusive _ _ _ _ Hfall Hdata).
    + intros data sid Hdata. destruct (paths_exclusive _ _ _ _ Hfall Hdata).
  - rewrite (rewrite_query_parsed _ _ _ _ Hdata). cbn [snd].
    split_and!.
    + by destruct (nonempty session_id).
    + by destruct (nonempty session_id).
    + intros Hfall. destruct (paths_exclusive _ _ _ _ Hfall Hdata).
    + intros data' Hdata'.
      rewrite (rewrites_to_unique _ _ _ _ _ Hdata' Hdata).
      by destruct (nonempty session_id).
    + intros data' sid Hdata' Hsid.
      rewrite (rewrites_to_unique _ _ _ _ _ Hdata' Hdata), Hsid.
      cbn [conversation_context set_context]. split.
      * by rewrite lookup_insert_eq.
      * intros other Hother. by rewrite lookup_insert_ne.
    + intros _. by exists data.
Qed.

End Expansion.

Import SmartDocumentHandler.

(** The rule-based list for "son 2k gia bao nhieu". *)
Lemma rewrite_query_fallback_shape_witness :
  ∃ queries,
    rewrite_query (Py.text "son 2k gia bao nhieu")
      (Some (Py.text "user_123")) no_model
    = (VList (VStr <$> queries), no_model)
    ∧ (1 ≤ length queries ≤ 5)%nat.
Proof.
  destruct (rewrite_query_fallback_shape (Py.text "son 2k gia bao nhieu")
              (Some (Py.text "user_123")) no_model) as [Hfall _].
  destruct Hfall as (queries & Hrun & Hlen & _);
    [apply no_capability; reflexivity|].
  exists queries. split; [exact Hrun|exact Hlen].
Defined.

(** C3 as stated fails.  Without a capability the utterance "là gì", made
    of stop words only, yields one sub-query, the empty string, not the
    utterance.  With a capability whose answer parses to an object that
    has no [search_queries], no sub-query at all is returned. *)
Lemma rewrite_query_empty_subquery :
  Py.text "là gì" ≠ []
  ∧ rewrite_query (Py.text "là gì") (Some (Py.text "user_123")) no_model
    = (VList [VStr []], no_model)
  ∧ (rewrite_query (Py.text "son 2k gia bao nhieu")
       (Some (Py.text "user_123")) topic_only_model).1 = VList [].
Proof. split_and!; [discriminate|vm_compute; reflexivity..]. Qed.

(** The answer of [topic_only_model] parses to an object holding only
    [main_topic]. *)
Lemma topic_only_rewrites :
  rewrites_to (Py.text "son 2k gia bao nhieu") (Some (Py.text "user_123"))
    topic_only_model [(Py.text "main_topic", VStr (Py.text "son 2k"))].
Proof.
  apply (parsed _ _ _ _ (λ _ _, Returned topic_only_response)
           topic_only_response topic_only_response);
    [reflexivity|reflexivity|vm_compute; reflexivity..].
Qed.

(** No capability, and an answer without [search_queries]. *)
Lemma rewrite_query_error_paths_witness :
  rewrite_query (Py.text "son 2k gia bao nhieu")
    (Some (Py.text "user_123")) no_model
  = (VList (VStr <$> _simple_keyword_extraction
                       (Py.text "son 2k gia bao nhieu")), no_model)
  ∧ (rewrite_query (Py.text "son 2k gia bao nhieu")
       (Some (Py.text "user_123")) topic_only_model).1 = VList [].
Proof.
  destruct (rewrite_query_error_paths (Py.text "son 2k gia bao nhieu")
              (Some (Py.text "user_123")) no_model) as [Hfall _].
  destruct (rewrite_query_error_paths (Py.text "son 2k gia bao nhieu")
              (Some (Py.text "user_123")) topic_only_model) as [_ Hparsed].
  split; [apply Hfall, no_capability; reflexivity|].
  rewrite (Hparsed _ topic_only_rewrites). reflexivity.
Defined.

(** C6 as stated fails: the answer parses to an object without
    [search_queries], a malformed shape, and [rewrite_query] returns the
    empty list where the rule-based extraction yields five sub-queries. *)
Lemma rewrite_query_malformed_shape_no_fallback :
  rewrites_to (Py.text "son 2k gia bao nhieu") (Some (Py.text "user_123"))
    topic_only_model [(Py.text "main_topic", VStr (Py.text "son 2k"))]
  ∧ (rewrite_query (Py.text "son 2k gia bao nhieu")
       (Some (Py.text "user_123")) topic_only_model).1 = VList []
  ∧ length (_simple_keyword_extraction (Py.text "son 2k gia bao nhieu"))
    = 5%nat.
Proof.
  split_and!; [apply topic_only_rewrites|vm_compute; reflexivity..].
Qed.

(** The answer of [full_model] parses to [full_data]. *)
Lemma full_rewrites :
  rewrites_to (Py.text "son 2k gia bao nhieu") (Some (Py.text "user_123"))
    full_model full_data.
Proof.
  apply (parsed _ _ _ _ (λ _ _, Returned full_response)
           full_response full_response);
    [reflexivity|reflexivity|vm_compute; reflexivity..].
Qed.

(** The contexts after a fallback and after a parsed answer.  Without a
    capability nothing changes.  After the full answer the entry of
    [user_123], which held the topic "son 1k" and two entities, holds the
    topic and the one entity of the answer and nothing of the old entry,
    and the entry of [khach_2] is as before. *)
Lemma rewrite_query_context_witness :
  conversation_context
    (rewrite_query (Py.text "là gì") (Some (Py.text "user_123")) no_model).2
  = ∅
  ∧ conversation_context
      (rewrite_query (Py.text "son 2k gia bao nhieu")
         (Some (Py.text "user_123")) full_model).2 !! Py.text "user_123"
    = Some {| topic := VStr (Py.text "son 2k");
              entities := VList [VStr (Py.text "son 2k")] |}
  ∧ conversation_context
      (rewrite_query (Py.text "son 2k gia bao nhieu")
         (Some (Py.text "user_123")) full_model).2 !! Py.text "khach_2"
    = Some {| topic := VStr (Py.text "son dau"); entities := VList [] |}.
Proof.
  destruct (rewrite_query_context (Py.text "là gì")
              (Some (Py.text "user_123")) no_model)
    as (_ & _ & Hkeep & _).
  destruct (rewrite_query_context (Py.text "son 2k gia bao nhieu")
              (Some (Py.text "user_123")) full_model)
    as (_ & _ & _ & _ & Hset & _).
  destruct (Hset full_data (Py.text "user_123") full_rewrites)
    as [Hentry Hothers]; [reflexivity|].
  split_and!.
  - apply Hkeep, no_capability. reflexivity.
  - rewrite Hentry. vm_compute. reflexivity.
  - rewrite Hothers.
    + vm_compute. reflexivity.
    + intros Heq. vm_compute in Heq. discriminate.
Defined.

(** C8 as stated fails: the answer [{"main_topic": "son 2k"}] is no
    successful rewrite, it holds no sub-query and [rewrite_query] returns
    none, and yet the topic context of the session is overwritten. *)
Lemma rewrite_query_context_set_without_queries :
  dict_get (Py.text "search_queries")
    [(Py.text "main_topic", VStr (Py.text "son 2k"))] = None
  ∧ (rewrite_query (Py.text "son 2k gia bao nhieu")
       (Some (Py.text "user_123")) topic_only_model).1 = VList []
  ∧ conversation_context topic_only_model !! Py.text "user_123" = None
  ∧ conversation_context
      (rewrite_query (Py.text "son 2k gia bao nhieu")
         (Some (Py.text "user_123")) topic_only_model).2
    !! Py.text "user_123"
    = Some {| topic := VStr (Py.text "son 2k"); entities := VList [] |}.
Proof. split_and!; vm_compute; reflexivity. Qed.

(** ** smart_document_handler.py: gathering the hits of the sub-queries *)

Section FirstOccurrences.
Context {A K : Type} `{Countable K} (key : A → K).

Lemma first_occurrences_elem seen l x :
  x ∈ first_occurrences key seen l →
  (key x ∉ seen)
  ∧ ∃ before after,
      l = before ++ x :: after ∧ ∀ y, y ∈ before → key y ≠ key x.
Proof.
  revert seen. induction l as [|y rest IH]; intros seen Hin; cbn in Hin.
  { by apply elem_of_nil in Hin. }
  destruct (decide (key y ∈ seen)) as [Hseen|Hnew].
  - destruct (IH _ Hin) as (Hx & before & after & -> & Hbefore).
    split; [done|]. exists (y :: before), after. split; [done|].
    intros z [->|Hz]%elem_of_cons; [congruence|by apply Hbefore].
  - apply elem_of_cons in Hin as [->|Hin].
    + split; [done|]. exists [], rest. split; [done|].
      intros z Hz. by apply elem_of_nil in Hz.
    + destruct (IH _ Hin) as (Hx & before & after & -> & Hbefore).
      split; [set_solver|]. exists (y :: before), after. split; [done|].
      intros z [->|Hz]%elem_of_cons; [set_solver|by apply Hbefore].
Qed.

Lemma first_occurrences_NoDup seen l :
  NoDup (key <$> first_occurrences key seen l).
Proof.
  revert seen. induction l as [|y rest IH]; intros seen; cbn.
  { constructor. }
  destruct (decide (key y ∈ seen)); [apply IH|].
  cbn. constructor; [|apply IH].
  intros (x & Hkey & Hx)%list_elem_of_fmap.
  apply first_occurrences_elem in Hx as [Hx _]. set_solver.
Qed.

Lemma first_occurrences_app seen l1 l2 :
  first_occurrences key seen (l1 ++ l2)
  = first_occurrences key seen l1
    ++ first_occurrences key (seen ∪ list_to_set (key <$> l1)) l2.
Proof.
  revert seen. induction l1 as [|y rest IH]; intros seen; cbn.
  { f_equal. set_solver. }
  destruct (decide (key y ∈ seen)).
  - rewrite IH. do 2 f_equal. set_solver.
  - cbn. rewrite IH. do 3 f_equal. set_solver.
Qed.

End FirstOccurrences.

Lemma concat_split {A} (ls : list (list A)) (l1 l2 : list A) (x : A) :
  concat ls = l1 ++ x :: l2 →
  ∃ i l before after,
    ls !! i = Some l
    ∧ l = before ++ x :: after
    ∧ (∀ y, y ∈ before → y ∈ l1)
    ∧ ∀ j l' y, (j < i)%nat → ls !! j = Some l' → y ∈ l' → y ∈ l1.
Proof.
  revert l1. induction ls as [|l ls IH]; intros l1 Hcat; cbn in Hcat.
  { by destruct l1. }
  assert (∀ l1',
            l1 = l ++ l1' → concat ls = l1' ++ x :: l2 →
            ∃ i l0 before after,
              (l :: ls) !! i = Some l0
              ∧ l0 = before ++ x :: after
              ∧ (∀ y, y ∈ before → y ∈ l1)
              ∧ ∀ j l' y, (j < i)%nat → (l :: ls) !! j = Some l' →
                          y ∈ l' → y ∈ l1) as Hlater.
  { intros l1' -> Hrest.
    destruct (IH _ Hrest) as (i & l0 & before & after & Hi & -> & Hb & He).
    exists (S i), (before ++ x :: after), before, after.
    split_and!; [done|done| |].
    - intros y Hy. apply elem_of_app. right. by apply Hb.
    - intros [|j] l' y Hj Hl' Hy; apply elem_of_app.
      + left. cbn in Hl'. by injection Hl' as <-.
      + right. eapply (He j); [lia|done..]. }
  apply app_eq_app in Hcat as [mid [[-> Hmid]|[-> Hmid]]].
  - destruct mid as [|z mid].
    + cbn in Hmid. apply (Hlater []); [by rewrite !app_nil_r|done].
    + injection Hmid as <- ->.
      exists 0%nat, (l1 ++ x :: mid), l1, mid.
      split_and!; [done..|]. intros j ???. lia.
  - by eapply Hlater.
Qed.

Section Gather.
Context `{!Runtime} `{!HashOrder}.
Import SmartDocumentHandler.

Lemma dict_get_set {V} (k k' : str) (v : V) (d : list (str * V)) :
  dict_get k (dict_set k' v d)
  = if decide (k = k') then Some v else dict_get k d.
Proof.
  induction d as [|[k0 v0] d IH]; cbn [dict_set dict_get].
  { done. }
  destruct (decide (k' = k0)) as [->|Hne]; cbn [dict_get].
  - by destruct (decide (k = k0)).
  - rewrite IH. destruct (decide (k = k0)) as [->|]; [|done].
    by rewrite decide_False.
Qed.

(** In [{**base, **extra}] the last binding of a key in [extra] wins. *)
Lemma dict_get_merge {V} (k : str) (base extra : list (str * V)) :
  dict_get k (dict_merge base extra)
  = match dict_get k (reverse extra) with
    | Some v => Some v
    | None => dict_get k base
    end.
Proof.
  unfold dict_merge. induction extra as [|[k' v] extra IH] using rev_ind.
  { done. }
  rewrite foldl_app, reverse_snoc. cbn [foldl fst snd dict_get].
  rewrite dict_get_set, IH. by destruct (decide (k = k')).
Qed.

(** A product stored under its own id, or under its name when it has no
    id, as [_load_json] and [_load_csv] store it, is hashed to the key it
    is stored under. *)
Lemma loaded_product_key (product_id : pykey) (product_data : pydict) :
  (∀ v, dict_get (Py.text "id") (reverse product_data) = Some v →
        v = key_value product_id) →
  hash_key (prod_key (product_hit product_id product_data))
  = Some (canon product_id).
Proof.
  intros Hid. unfold prod_key, product_hit. rewrite !dict_get_merge.
  destruct (dict_get (Py.text "id") (reverse product_data)) as [v|] eqn:Hv.
  - rewrite (Hid v eq_refl). by destruct product_id.
  - cbn [dict_get].
    rewrite (decide_True (P := Py.text "id" = Py.text "id")) by done.
    by destruct product_id.
Qed.

Lemma loaded_products_hashable (h : DocumentHandler.handler) :
  Forall (λ kv, ∀ v, dict_get (Py.text "id") (reverse kv.2) = Some v →
                     v = key_value kv.1) (products_cache h) →
  hashable_products h.
Proof.
  intros Hloaded. eapply Forall_impl; [exact Hloaded|].
  intros [pid pdata] Hid. cbn [fst snd] in *.
  rewrite loaded_product_key by done. by eexists.
Qed.

Lemma products_loop_elem query_lower limit items results prod :
  prod ∈ products_loop query_lower limit items results →
  prod ∈ results
  ∨ ∃ kv, kv ∈ items ∧ prod = product_hit kv.1 kv.2.
Proof.
  revert results. induction items as [|[pid pdata] rest IH]; intros results;
    cbn [products_loop]; [by left|].
  set (results' := if Py.contains _ _ then _ else _).
  assert (prod ∈ results' →
          prod ∈ results
          ∨ ∃ kv, kv ∈ (pid, pdata) :: rest ∧ prod = product_hit kv.1 kv.2)
    as Hstep.
  { subst results'. destruct (Py.contains _ _); [|by left].
    intros [?|Heq%list_elem_of_singleton]%elem_of_app; [by left|].
    right. exists (pid, pdata). split; [left|done]. }
  destruct (limit <=? Z.of_nat (length results')); [exact Hstep|].
  intros [Hin|(kv & Hkv & ->)]%IH; [by apply Hstep|].
  right. exists kv. split; [by right|done].
Qed.

Lemma search_products_hashable h query limit :
  hashable_products h →
  Forall (λ prod, is_Some (hash_key (prod_key prod)))
         (search_products h query limit).
Proof.
  intros Hhash. apply Forall_forall. intros prod Hprod.
  apply products_loop_elem in Hprod as [Hnil|(kv & Hkv & ->)].
  { by apply elem_of_nil in Hnil. }
  by apply (proj1 (Forall_forall _ _) Hhash).
Qed.

Lemma add_docs_spec docs a :
  all_doc_results (add_docs docs a)
  = all_doc_results a ++ first_occurrences hit_filename (seen_docs a) docs
  ∧ seen_docs (add_docs docs a)
    = seen_docs a ∪ list_to_set (hit_filename <$> docs)
  ∧ all_product_results (add_docs docs a) = all_product_results a
  ∧ seen_products (add_docs docs a) = seen_products a.
Proof.
  revert a. unfold add_docs.
  induction docs as [|doc docs IH]; intros a; cbn [foldl first_occurrences].
  { rewrite app_nil_r. split_and!; [done| |done..]. set_solver. }
  destruct (decide (hit_filename doc ∈ seen_docs a)) as [Hseen|Hnew].
  - destruct (IH a) as (-> & -> & -> & ->).
    split_and!; [done| |done..]. set_solver.
  - match goal with |- context [foldl _ ?a' docs] =>
      destruct (IH a') as (-> & -> & -> & ->) end.
    cbn. rewrite <- app_assoc. split_and!; [done| |done..]. set_solver.
Qed.

Lemma add_products_spec products a :
  Forall (λ prod, is_Some (hash_key (prod_key prod))) products →
  ∃ a',
    add_products products a = Ok a'
    ∧ all_product_results a'
      = all_product_results a
        ++ first_occurrences product_key (seen_products a) products
    ∧ seen_products a'
      = seen_products a ∪ list_to_set (product_key <$> products)
    ∧ all_doc_results a' = all_doc_results a
    ∧ seen_docs a' = seen_docs a.
Proof.
  revert a. induction products as [|prod products IH]; intros a Hhash;
    cbn [add_products first_occurrences].
  { exists a. rewrite app_nil_r. split_and!; [done..| |done|done]. set_solver. }
  apply Forall_cons in Hhash as [[k Hk] Hhash].
  assert (product_key prod = k) as Hkey by (unfold product_key; by rewrite Hk).
  rewrite Hk, Hkey, fmap_cons, Hkey.
  destruct (decide (k ∈ seen_products a)) as [Hseen|Hnew].
  - destruct (IH a Hhash) as (a' & Hrun & Hres & Hkeys & Hdocs & Hseen').
    exists a'. rewrite Hrun, Hres, Hkeys, Hdocs, Hseen'.
    split_and!; [done..| |done|done]. set_solver.
  - match goal with |- context [add_products products ?a0] =>
      destruct (IH a0 Hhash) as (a' & Hrun & Hres & Hkeys & Hdocs & Hseen')
    end.
    exists a'. rewrite Hrun, Hres, Hkeys, Hdocs, Hseen'. cbn.
    rewrite <- app_assoc. split_and!; [done..| |done|done]. set_solver.
Qed.

(** The loop of [smart_search] over a list of strings. *)
Lemma search_loop_spec h (queries : list str) a :
  hashable_products h →
  ∃ a',
    search_loop h (VStr <$> queries) a = Ok a'
    ∧ all_doc_results a'
      = all_doc_results a
        ++ first_occurrences hit_filename (seen_docs a)
             (concat ((λ q, search_in_documents h q 2) <$> queries))
    ∧ all_product_results a'
      = all_product_results a
        ++ first_occurrences product_key (seen_products a)
             (concat ((λ q, search_products h q 2) <$> queries)).
Proof.
  intros Hhash. revert a.
  induction queries as [|q queries IH]; intros a;
    cbn [fmap list_fmap search_loop concat].
  { exists a. by rewrite !app_nil_r. }
  destruct (add_docs_spec (search_in_documents h q 2) a)
    as (Hdocs & Hseen & Hprods & Hpseen).
  destruct (add_products_spec (search_products h q 2)
              (add_docs (search_in_documents h q 2) a))
    as (a1 & -> & Hprods1 & Hpseen1 & Hdocs1 & Hseen1);
    [by apply search_products_hashable|].
  destruct (IH a1) as (a' & -> & Hdocs' & Hprods').
  exists a'. split; [done|].
  rewrite Hdocs', Hprods', !first_occurrences_app.
  rewrite Hdocs1, Hseen1, Hdocs, Hseen, Hprods1, Hpseen1, Hprods, Hpseen.
  by rewrite <- !app_assoc.
Qed.

Lemma first_occurrences_first_hit {A K} `{Countable K} (key : A → K)
    (search : str → list A) (queries : list str) (x : A) :
  x ∈ first_occurrences key ∅ (concat (search <$> queries)) →
  first_hit key search queries x.
Proof.
  intros (_ & l1 & l2 & Hcat & Hl1)%first_occurrences_elem.
  apply concat_split in Hcat
    as (i & l & before & after & Hi & -> & Hbefore & Hearlier).
  apply list_lookup_fmap_Some in Hi as (q & Hl & Hq).
  exists i, q, before, after. split_and!; [done|done| |].
  - intros y Hy. by apply Hl1, Hbefore.
  - intros j earlier y Hj Hearlier' Hy. apply Hl1.
    eapply (Hearlier j); [done| |done].
    by rewrite list_lookup_fmap, Hearlier'.
Qed.

End Gather.

(** * Further properties *)

(** ** memory_manager.py: reads, frames, the channel invariant, the sweep *)

Section MoreMemory.
Import MemoryManager Config.

Lemma ensure_session_idempotent sid mem :
  _ensure_session sid (_ensure_session sid mem) = _ensure_session sid mem.
Proof.
  unfold _ensure_session at 1. by rewrite ensure_session_lookup.
Qed.

Lemma ensure_session_size sid mem :
  mem !! sid = None → size (_ensure_session sid mem) = S (size mem).
Proof.
  intros Hsid. unfold _ensure_session. rewrite Hsid.
  by apply map_size_insert_None.
Qed.

(** [get_history] is a read as far as the logs go: no log of any session
    changes, and asking again gives the same answer and the same memory.
    It is not a read as far as the sessions go: on a non-empty id that
    is not in memory it answers the empty list and creates the session,
    which [get_active_sessions] and [get_session_info] then report.
    Without an id nothing is created. *)
Theorem get_history_reads (session_id : option str) (agent : str)
    (mem : memory) :
  (∀ sid' agent',
     log_of sid' agent' (get_history session_id agent mem).2
     = log_of sid' agent' mem)
  ∧ get_history session_id agent (get_history session_id agent mem).2
    = get_history session_id agent mem
  ∧ (∀ sid, nonempty session_id = Some sid → mem !! sid = None →
       (get_history session_id agent mem).1 = Ok []
       ∧ get_active_sessions (get_history session_id agent mem).2
         = S (get_active_sessions mem)
       ∧ info_exists (get_session_info (Some sid) mem) = false
       ∧ info_exists
           (get_session_info (Some sid) (get_history session_id agent mem).2)
         = true)
  ∧ (nonempty session_id = None →
     get_history session_id agent mem = (Ok [], mem)).
Proof.
  unfold get_history.
  destruct (nonempty session_id) as [sid|] eqn:Hid; [|by split_and!].
  assert (∀ m, (match _ensure_session sid m !! sid with
                | Some agents => (Ok (default [] (agents !! agent)),
                                  _ensure_session sid m)
                | None => (Raise (KeyError sid), _ensure_session sid m)
                end : result (list entry) * memory).2
               = _ensure_session sid m) as Hmem.
  { intros m. by destruct (_ensure_session sid m !! sid). }
  split_and!.
  - intros sid' agent'. rewrite Hmem. apply ensure_session_log_of.
  - rewrite Hmem, ensure_session_idempotent. done.
  - intros ? [= <-] Hnew. rewrite Hmem.
    rewrite ensure_session_lookup, Hnew. cbn [default from_option id fst].
    split_and!.
    + by rewrite new_session_logs.
    + by apply ensure_session_size.
    + unfold get_session_info. cbn. by rewrite Hnew.
    + unfold get_session_info. cbn. by rewrite ensure_session_lookup.
  - done.
Qed.

Section MoreAppend.
Context `{!Config.t}.

(** [add_message] touches one log only: whether it succeeds or raises,
    the log of every other session and of every other agent type of the
    same session is what it was. *)
Theorem add_message_frame (now : Z) (session_id : option str)
    (agent role content : str) (mem : memory) (sid' agent' : str) :
  nonempty session_id ≠ Some sid' ∨ agent' ≠ agent →
  log_of sid' agent'
    (add_message now session_id agent role content mem).2
  = log_of sid' agent' mem.
Proof.
  intros Hother. unfold add_message.
  destruct (nonempty session_id) as [sid|]; [|done].
  rewrite <- (ensure_session_log_of sid sid' agent' mem).
  destruct (_ensure_session sid mem !! sid) as [agents|] eqn:Hsid; [|done].
  destruct (agents !! agent) as [log|]; [|done].
  cbn [snd]. unfold log_of.
  destruct (decide (sid = sid')) as [<-|Hne].
  - rewrite lookup_insert_eq, Hsid. cbn.
    destruct Hother as [Hsame|Hagent]; [done|].
    by rewrite lookup_insert_ne.
  - by rewrite lookup_insert_ne.
Qed.

End MoreAppend.

Lemma exact_channels_empty : exact_channels ∅.
Proof. intros sid agents agent Hsid. by rewrite lookup_empty in Hsid. Qed.

Lemma exact_channels_new agent :
  is_Some (new_session !! agent) ↔ agent ∈ known_agents.
Proof.
  split.
  - intros Hsome. destruct (decide (agent ∈ known_agents)); [done|].
    rewrite new_session_unknown in Hsome by done. by destruct Hsome.
  - intros Hknown. rewrite new_session_known by done. by eexists.
Qed.

Lemma exact_channels_ensure sid mem :
  exact_channels mem → exact_channels (_ensure_session sid mem).
Proof.
  intros Hex sid' agents agent Hsid.
  destruct (decide (sid = sid')) as [<-|Hne].
  - rewrite ensure_session_lookup in Hsid. injection Hsid as <-.
    destruct (mem !! sid) eqn:Hmem; cbn; [by eapply Hex|].
    apply exact_channels_new.
  - rewrite ensure_session_other in Hsid by done. by eapply Hex.
Qed.

Lemma exact_channels_update sid agent log agents mem :
  exact_channels mem → mem !! sid = Some agents → is_Some (agents !! agent) →
  exact_channels (<[sid := <[agent := log]> agents]> mem).
Proof.
  intros Hex Hagents Hsome sid' agents' agent' Hsid.
  destruct (decide (sid = sid')) as [<-|Hne].
  - rewrite lookup_insert_eq in Hsid. injection Hsid as <-.
    destruct (decide (agent = agent')) as [<-|Hne].
    + rewrite lookup_insert_eq. split; [|by eexists].
      intros _. by eapply Hex.
    + rewrite lookup_insert_ne by done. by eapply Hex.
  - rewrite lookup_insert_ne in Hsid by done. by eapply Hex.
Qed.

(** Every method keeps the invariant, which the empty memory has, that a
    session holds exactly the three logs [_ensure_session] creates:
    no method adds or drops an agent type of an existing session. *)
Theorem exact_channels_invariant `{!Config.t} (mem : memory) :
  exact_channels mem →
  (∀ sid agent, exact_channels (get_history sid agent mem).2)
  ∧ (∀ now sid agent role content,
       exact_channels (add_message now sid agent role content mem).2)
  ∧ (∀ sid agent, exact_channels (clear_session sid agent mem).2)
  ∧ (∀ now age, exact_channels (cleanup_old_sessions now age mem).2).
Proof.
  intros Hex. split_and!.
  - intros sid agent. unfold get_history.
    destruct (nonempty sid) as [s|]; [|done].
    pose proof (exact_channels_ensure s mem Hex).
    by destruct (_ensure_session s mem !! s).
  - intros now sid agent role content. unfold add_message.
    destruct (nonempty sid) as [s|]; [|done].
    pose proof (exact_channels_ensure s mem Hex) as Hex'.
    destruct (_ensure_session s mem !! s) as [agents|] eqn:Hs; [|done].
    destruct (agents !! agent) eqn:Hagent; [|done].
    apply exact_channels_update; [done..|by eexists].
  - intros [sid|] agent; unfold clear_session; cbn [mbind option_bind];
      [|done].
    destruct (mem !! sid) as [agents|] eqn:Hs; [|done]. cbn.
    destruct (nonempty agent) as [a|].
    + destruct (agents !! a) eqn:Ha; [|done].
      apply exact_channels_update; [done..|by eexists].
    + cbn [snd]. intros sid' agents' agent' [_ Hsid]%lookup_delete_Some.
      by eapply Hex.
  - intros now age sid agents agent.
    destruct (cleanup_old_sessions_memory now age mem) as [sids ->].
    rewrite foldl_delete_lookup. case_decide; [done|]. by apply Hex.
Qed.

(** Under that invariant the outcome of [add_message] depends on the
    agent type alone: without a session id nothing happens; with one, the
    call succeeds for the three known agent types and raises [KeyError]
    for every other name. *)
Theorem add_message_outcome `{!Config.t} (now : Z)
    (session_id : option str) (agent role content : str) (mem : memory) :
  exact_channels mem →
  (add_message now session_id agent role content mem).1
  = match nonempty session_id with
    | None => Ok ()
    | Some _ =>
        if decide (agent ∈ known_agents) then Ok ()
        else Raise (KeyError agent)
    end.
Proof.
  intros Hex. unfold add_message.
  destruct (nonempty session_id) as [sid|]; [|done].
  pose proof (exact_channels_ensure sid mem Hex) as Hex'.
  destruct (_ensure_session sid mem !! sid) as [agents|] eqn:Hsid;
    [|by rewrite ensure_session_lookup in Hsid].
  specialize (Hex' sid agents agent Hsid).
  destruct (agents !! agent) as [log|] eqn:Hagent.
  - rewrite decide_True; [done|]. apply Hex'. by eexists.
  - rewrite decide_False; [done|]. intros Hknown%Hex'. by destruct Hknown.
Qed.

Lemma foldl_delete_size (sids : list str) (mem : memory) :
  NoDup sids → (∀ sid, sid ∈ sids → is_Some (mem !! sid)) →
  (length sids + size (foldl (λ m k, delete k m) mem sids))%nat = size mem.
Proof.
  revert mem. induction sids as [|sid sids IH]; intros mem Hnodup Hin;
    cbn [foldl length]; [done|].
  apply NoDup_cons in Hnodup as [Hfresh Hnodup].
  assert (∀ sid', sid' ∈ sids → is_Some (delete sid mem !! sid')) as Hrest.
  { intros sid' Hsid'. rewrite lookup_delete_ne by (by intros ->).
    apply Hin. by right. }
  specialize (IH (delete sid mem) Hnodup Hrest).
  rewrite map_size_delete_Some in IH by (apply Hin; left).
  assert (size mem ≠ 0%nat); [|lia].
  destruct (Hin sid) as [agents Hsid]; [left|].
  by eapply map_size_ne_0_lookup_2.
Qed.

Lemma cleanup_lookup (current_time max_age_hours : Z) (mem : memory)
    (sid : str) (n : nat) :
  (cleanup_old_sessions current_time max_age_hours mem).1 = Ok n →
  (cleanup_old_sessions current_time max_age_hours mem).2 !! sid
  = match mem !! sid with
    | Some agents =>
        if decide (is_old current_time max_age_hours agents = Ok true)
        then None else Some agents
    | None => None
    end.
Proof.
  intros Hout.
  pose proof (cleanup_old_sessions_spec current_time max_age_hours mem)
    as Hspec.
  rewrite Hout in Hspec. destruct Hspec as [-> _]. cbn [snd].
  rewrite foldl_delete_lookup.
  destruct (mem !! sid) as [agents|] eqn:Hsid; [|by case_decide].
  pose proof (elem_of_swept current_time max_age_hours mem sid agents Hsid)
    as Hin.
  destruct (decide (is_old current_time max_age_hours agents = Ok true)).
  - by rewrite decide_True by by apply Hin.
  - rewrite decide_False; [done|]. by rewrite Hin.
Qed.

(** When [cleanup_old_sessions] returns, the number it returns is the
    number of sessions that are gone: it is the drop in
    [get_active_sessions].  When it raises, no session is gone.  It
    returns for every threshold that [timedelta] can hold. *)
Theorem cleanup_old_sessions_count (current_time max_age_hours : Z)
    (mem : memory) :
  match (cleanup_old_sessions current_time max_age_hours mem).1 with
  | Ok n =>
      (n + get_active_sessions
             (cleanup_old_sessions current_time max_age_hours mem).2)%nat
      = get_active_sessions mem
  | Raise e =>
      e = OverflowError
      ∧ ¬ representable max_age_hours
      ∧ (cleanup_old_sessions current_time max_age_hours mem).2 = mem
  end.
Proof.
  pose proof (cleanup_old_sessions_spec current_time max_age_hours mem)
    as Hspec.
  destruct (cleanup_old_sessions current_time max_age_hours mem).1 as [n|e]
    eqn:Hout.
  - destruct Hspec as [Hrun _]. rewrite Hrun in Hout |- *.
    injection Hout as <-. cbn [snd]. unfold get_active_sessions.
    apply foldl_delete_size.
    + eapply sublist_NoDup; [apply (NoDup_fst_map_to_list mem)|].
      apply fmap_sublist, sublist_filter.
    + intros sid
        ([sid' agents] & -> & [_ Hmem]%list_elem_of_filter)%list_elem_of_fmap.
      apply elem_of_map_to_list in Hmem. by eexists.
  - destruct Hspec as (-> & sid & agents & _ & Hraise).
    pose proof (is_old_cases current_time max_age_hours agents) as Hcases.
    rewrite Hraise in Hcases. by destruct Hcases as (-> & ? & _).
Qed.

(** A second sweep at the same instant with the same threshold finds
    nothing to delete: when the first sweep returned, the second returns
    0 and leaves the memory as the first left it; when the first sweep
    raised, the second raises the same way on the same memory. *)
Theorem cleanup_old_sessions_twice (current_time max_age_hours : Z)
    (mem : memory) :
  cleanup_old_sessions current_time max_age_hours
    (cleanup_old_sessions current_time max_age_hours mem).2
  = (match (cleanup_old_sessions current_time max_age_hours mem).1 with
     | Ok _ => Ok 0%nat
     | Raise e => Raise e
     end,
     (cleanup_old_sessions current_time max_age_hours mem).2).
Proof.
  pose proof (cleanup_old_sessions_spec current_time max_age_hours mem)
    as Hspec.
  destruct (cleanup_old_sessions current_time max_age_hours mem).1 as [n|e]
    eqn:Hout.
  2:{ destruct Hspec as [Hrun _]. rewrite Hrun. cbn [snd]. exact Hrun. }
  set (mem' := (cleanup_old_sessions current_time max_age_hours mem).2).
  assert (∀ sid agents, mem' !! sid = Some agents →
            is_old current_time max_age_hours agents = Ok false) as Hyoung.
  { intros sid agents Hsid. subst mem'.
    rewrite (cleanup_lookup _ _ _ _ n Hout) in Hsid.
    destruct (mem !! sid) as [agents'|] eqn:Hmem; [|done].
    destruct Hspec as [_ Hall]. destruct (Hall _ _ Hmem) as [b Hb].
    case_decide; [done|]. injection Hsid as <-. by destruct b. }
  pose proof (cleanup_old_sessions_spec current_time max_age_hours mem')
    as Hspec'.
  destruct (cleanup_old_sessions current_time max_age_hours mem').1 as [n'|e].
  - destruct Hspec' as [-> _].
    assert (swept current_time max_age_hours mem' = []) as ->; [|done].
    unfold swept. rewrite filter_none; [done|].
    intros [sid agents] Hin%elem_of_map_to_list Hold. cbn [snd] in Hold.
    by rewrite (Hyoung _ _ Hin) in Hold.
  - destruct Hspec' as (_ & sid & agents & Hsid & Hraise).
    by rewrite (Hyoung _ _ Hsid) in Hraise.
Qed.

End MoreMemory.

(** ** document_handler.py: snippets, products, documents, the context *)

Lemma find_from_lower needle hay i : -1 ≤ i → -1 ≤ Py.find_from needle hay i.
Proof.
  revert i. induction hay as [|c t IH]; intros i Hi; cbn [Py.find_from].
  - destruct (Py.startswith needle []); lia.
  - destruct (Py.startswith needle (c :: t)); [lia|]. apply IH. lia.
Qed.

Lemma slice_length {A} (lo hi : Z) (l : list A) :
  0 ≤ lo → 0 ≤ hi → Z.of_nat (length (Py.slice lo hi l)) ≤ Z.max 0 (hi - lo).
Proof.
  intros Hlo Hhi. unfold Py.slice, Py.norm_index.
  destruct (Z.ltb_spec lo 0); [lia|]. destruct (Z.ltb_spec hi 0); [lia|].
  rewrite length_take, length_drop. lia.
Qed.

Lemma lstrip_length s : (length (Py.lstrip s) ≤ length s)%nat.
Proof.
  induction s as [|c t IH]; cbn [Py.lstrip]; [done|].
  destruct (Py.isspace c); cbn [length]; lia.
Qed.

Lemma strip_length s : (length (Py.strip s) ≤ length s)%nat.
Proof.
  unfold Py.strip, Py.rstrip. rewrite length_reverse.
  etrans; [apply lstrip_length|]. rewrite length_reverse. apply lstrip_length.
Qed.

Lemma lstrip_head s c t : Py.lstrip s = c :: t → Py.isspace c = false.
Proof.
  induction s as [|c' s IH]; cbn [Py.lstrip]; [done|].
  destruct (Py.isspace c') eqn:Hc; [done|]. by intros [= <- _].
Qed.

Lemma lstrip_suffix s : Py.lstrip s `suffix_of` s.
Proof.
  induction s as [|x s IH]; cbn [Py.lstrip]; [done|].
  destruct (Py.isspace x); [by apply suffix_cons_r|done].
Qed.

Lemma rstrip_prefix s : Py.rstrip s `prefix_of` s.
Proof.
  unfold Py.rstrip. destruct (lstrip_suffix (reverse s)) as [k Hk].
  exists (reverse k). rewrite <- reverse_app, <- Hk.
  by rewrite reverse_involutive.
Qed.

Lemma strip_head s c : head (Py.strip s) = Some c → Py.isspace c = false.
Proof.
  unfold Py.strip. destruct (rstrip_prefix (Py.lstrip s)) as [k Hk].
  destruct (Py.rstrip (Py.lstrip s)) as [|c' rest]; [done|].
  intros [= ->]. by eapply lstrip_head.
Qed.

Lemma strip_last s c : last (Py.strip s) = Some c → Py.isspace c = false.
Proof.
  unfold Py.strip, Py.rstrip. rewrite last_reverse.
  destruct (Py.lstrip (reverse (Py.lstrip s))) as [|c' rest] eqn:Hstrip;
    [done|].
  intros [= ->]. by eapply lstrip_head.
Qed.

Section MoreDocuments.
Context `{!Runtime}.
Import DocumentHandler.

(** A snippet is cut from at most 200 code points on either side of the
    first occurrence: it never holds more than 400 code points, whatever
    the content and the query, and it neither starts nor ends with white
    space. *)
Theorem make_hit_snippet_bounded (query_lower doc_name : str)
    (doc_data : document) :
  (length (hit_snippet (make_hit query_lower doc_name doc_data)) ≤ 400)%nat
  ∧ (∀ c, head (hit_snippet (make_hit query_lower doc_name doc_data)) = Some c →
          Py.isspace c = false)
  ∧ (∀ c, last (hit_snippet (make_hit query_lower doc_name doc_data)) = Some c →
          Py.isspace c = false).
Proof.
  unfold make_hit. cbn [hit_snippet]. split_and!.
  - etrans; [apply strip_length|].
    pose proof (find_from_lower query_lower (lower (doc_content doc_data)) 0)
      as Hfind.
    fold (Py.find query_lower (lower (doc_content doc_data))) in Hfind.
    set (index := Py.find _ _) in *.
    pose proof (slice_length (Z.max 0 (index - 200))
                  (Z.min (Z.of_nat (length (doc_content doc_data)))
                     (index + 200))
                  (doc_content doc_data)).
    lia.
  - apply strip_head.
  - apply strip_last.
Qed.

Lemma products_loop_spec query_lower limit items results :
  Z.of_nat (length results) < limit →
  products_loop query_lower limit items results
  = take (Z.to_nat limit)
      (results
       ++ ((λ kv, product_hit kv.1 kv.2)
           <$> filter (product_matches query_lower) items)).
Proof.
  revert results. induction items as [|[pid pdata] rest IH];
    intros results Hroom; cbn [products_loop].
  { rewrite filter_nil, app_nil_r. symmetry. apply take_ge. lia. }
  rewrite filter_cons.
  destruct (decide (product_matches query_lower (pid, pdata))) as [Hin|Hin];
    unfold product_matches in Hin; cbn [snd] in Hin.
  - rewrite Hin, fmap_cons. cbn [fst snd].
    set (tail := _ <$> filter _ rest) in *.
    replace (results ++ product_hit pid pdata :: tail)
      with ((results ++ [product_hit pid pdata]) ++ tail)
      by (by rewrite <- app_assoc).
    destruct (Z.leb_spec limit (Z.of_nat (length (results ++ [product_hit pid pdata]))))
      as [Hfull|Hroom'].
    + rewrite length_app in Hfull. cbn [length] in Hfull.
      rewrite take_app_le by (rewrite length_app; cbn [length]; lia).
      symmetry. apply take_ge. rewrite length_app. cbn [length]. lia.
    + by rewrite IH.
  - apply not_true_is_false in Hin. rewrite Hin.
    destruct (Z.leb_spec limit (Z.of_nat (length results))); [lia|].
    by apply IH.
Qed.

(** For a limit of at least 1, [search_products] returns the first
    [limit] matching products in cache order.  For a limit of 0 or less
    the length test, made after the first product was looked at, lets
    that product through: the result is the first cached product if it
    matches, and nothing else. *)
Theorem search_products_limit (h : handler) (query : str) (limit : Z) :
  (1 ≤ limit →
   search_products h query limit
   = take (Z.to_nat limit) (matching_products (lower query) h))
  ∧ (limit ≤ 0 →
     search_products h query limit
     = take 1 (matching_products (lower query)
                 {| documents := documents h;
                    products_cache := take 1 (products_cache h) |})).
Proof.
  unfold search_products, matching_products. split; intros Hlimit.
  - by rewrite products_loop_spec by (cbn; lia).
  - destruct (products_cache h) as [|[pid pdata] rest]; [done|].
    cbn [products_loop products_cache firstn].
    rewrite filter_cons, take_0, filter_nil.
    destruct (decide (product_matches (lower query) (pid, pdata)))
      as [Hin|Hin]; unfold product_matches in Hin; cbn [snd] in Hin.
    + rewrite Hin. cbn [app length].
      by destruct (Z.leb_spec limit (Z.of_nat 1)); [|lia].
    + apply not_true_is_false in Hin. rewrite Hin. cbn [length].
      by destruct (Z.leb_spec limit (Z.of_nat 0)); [|lia].
Qed.

Lemma dict_get_elem {V} (k : str) (v : V) (d : list (str * V)) :
  NoDup d.*1 → (dict_get k d = Some v ↔ (k, v) ∈ d).
Proof.
  induction d as [|[k' v'] d IH]; intros Hnodup; cbn [dict_get].
  { split; [done|]. intros Hin. by apply elem_of_nil in Hin. }
  cbn in Hnodup. apply NoDup_cons in Hnodup as [Hfresh Hnodup].
  rewrite elem_of_cons. destruct (decide (k = k')) as [<-|Hne].
  - split; [intros [= <-]; by left|]. intros [[= <-]|Hin]; [done|].
    destruct Hfresh. apply list_elem_of_fmap. by exists (k, v).
  - rewrite IH by done. split; [by right|]. intros [[= ? ?]|?]; done.
Qed.

Lemma dict_get_reverse {V} (k : str) (d : list (str * V)) :
  NoDup d.*1 → dict_get k (reverse d) = dict_get k d.
Proof.
  intros Hnodup.
  assert (NoDup (reverse d).*1) as Hrev.
  { by rewrite fmap_reverse, reverse_Permutation. }
  apply option_eq. intros v.
  rewrite !dict_get_elem by done. by rewrite elem_of_reverse.
Qed.

(** A product hit always carries an ['id']: the product's own when it has
    one, else the key object it is cached under ([True] for a product
    cached under [True]).  Every other field of the product is in the hit
    unchanged, and the hit has no further field. *)
Theorem product_hit_fields (product_id : pykey) (product_data : pydict) :
  NoDup product_data.*1 →
  dict_get (Py.text "id") (product_hit product_id product_data)
  = Some (default (key_value product_id)
            (dict_get (Py.text "id") product_data))
  ∧ ∀ k, k ≠ Py.text "id" →
         dict_get k (product_hit product_id product_data)
         = dict_get k product_data.
Proof.
  intros Hnodup. unfold product_hit. split.
  - rewrite dict_get_merge, dict_get_reverse by done.
    destruct (dict_get _ product_data); [done|].
    cbn [dict_get]. by rewrite decide_True.
  - intros k Hk. rewrite dict_get_merge, dict_get_reverse by done.
    destruct (dict_get k product_data); [done|].
    cbn [dict_get]. by rewrite decide_False.
Qed.

Lemma dict_set_keys {V} (k : str) (v : V) (d : list (str * V)) :
  (dict_set k v d).*1 = if decide (k ∈ d.*1) then d.*1 else d.*1 ++ [k].
Proof.
  induction d as [|[k' v'] d IH]; cbn [dict_set]; [done|].
  destruct (decide (k = k')) as [<-|Hne].
  - cbn. by rewrite decide_True by left.
  - cbn. rewrite IH. destruct (decide (k ∈ d.*1)) as [Hin|Hin].
    + by rewrite decide_True by by right.
    + rewrite decide_False; [done|]. by intros [?|?]%elem_of_cons.
Qed.

(** Loading a text file and looking it up: the document stored under the
    stem is the one just loaded, the other documents and the products are
    untouched, a stem already present keeps its place in the listing and
    a new one goes last, and the listing stays free of duplicates. *)
Theorem load_txt_get_document (stem name path content : str) (h : handler) :
  get_document stem (load_txt stem name path content h)
  = Some {| doc_filename := name; doc_filepath := path;
            doc_type := text; doc_content := content |}
  ∧ (∀ other, other ≠ stem →
       get_document other (load_txt stem name path content h)
       = get_document other h)
  ∧ list_all_documents (load_txt stem name path content h)
    = (if decide (stem ∈ list_all_documents h) then list_all_documents h
       else list_all_documents h ++ [stem])
  ∧ (NoDup (list_all_documents h) →
     NoDup (list_all_documents (load_txt stem name path content h)))
  ∧ products_cache (load_txt stem name path content h) = products_cache h.
Proof.
  unfold get_document, list_all_documents, load_txt.
  cbn [documents products_cache]. split_and!.
  - rewrite dict_get_set. by rewrite decide_True.
  - intros other Hother. rewrite dict_get_set. by rewrite decide_False.
  - apply dict_set_keys.
  - intros Hnodup. rewrite dict_set_keys. case_decide; [done|].
    apply NoDup_app. split_and!; [done| |apply NoDup_singleton].
    intros k Hk ->%list_elem_of_singleton. done.
  - done.
Qed.

(** One search never returns a document twice: when the loaded documents
    have distinct names, so have the hits. *)
Theorem search_in_documents_distinct (h : handler) (query : str) (limit : Z) :
  NoDup (list_all_documents h) →
  NoDup (hit_document <$> search_in_documents h query limit).
Proof.
  intros Hnodup. rewrite search_in_documents_unfold.
  eapply sublist_NoDup; [|apply fmap_sublist, sublist_take].
  rewrite sort_desc_perm. unfold matching_hits.
  rewrite <- list_fmap_compose.
  eapply sublist_NoDup; [exact Hnodup|].
  unfold list_all_documents. apply fmap_sublist, sublist_filter.
Qed.

Lemma truncated_length (context marker : str) (max_length : Z) :
  0 ≤ max_length →
  Z.of_nat (length (if max_length <? Z.of_nat (length context)
                    then Py.slice_to max_length context ++ marker
                    else context))
  ≤ max_length + Z.of_nat (length marker).
Proof.
  intros Hmax. destruct (Z.ltb_spec max_length (Z.of_nat (length context))).
  - rewrite length_app. pose proof (slice_to_length max_length context Hmax).
    lia.
  - lia.
Qed.

(** [get_relevant_context] never returns the empty string.  For a
    non-negative [max_length] the result is at most [max_length + 3] code
    points long, or is the fixed "nothing found" sentence; when neither
    search has a hit the result is that sentence, unless [max_length] is
    negative, in which case it is the bare truncation mark. *)
Theorem get_relevant_context_shape (h : handler) (query : str)
    (max_length : Z) :
  get_relevant_context h query max_length ≠ []
  ∧ (0 ≤ max_length →
     get_relevant_context h query max_length = not_found
     ∨ Z.of_nat (length (get_relevant_context h query max_length))
       ≤ max_length + 3)
  ∧ (search_in_documents h query 3 = [] → search_products h query 3 = [] →
     get_relevant_context h query max_length
     = if max_length <? 0 then Py.text "..." else not_found).
Proof.
  unfold get_relevant_context. cbv zeta.
  set (context := match search_products h query 3 with [] => _ | _ => _ end).
  split_and!.
  - destruct (Z.ltb_spec max_length (Z.of_nat (length context))).
    + destruct (Py.slice_to max_length context); discriminate.
    + destruct context; discriminate.
  - intros Hmax. pose proof (truncated_length context (Py.text "...") _ Hmax)
      as Hlen.
    destruct (if max_length <? _ then _ else _) eqn:Hctx; [by left|].
    right. exact Hlen.
  - intros Hdocs Hprods. subst context. rewrite Hdocs, Hprods. cbn [length].
    change (Z.of_nat 0) with 0. destruct (max_length <? 0); [|done].
    unfold Py.slice_to. rewrite take_nil. reflexivity.
Qed.

End MoreDocuments.

(** ** smart_document_handler.py: what the search returns and when it raises *)

Lemma first_occurrences_sublist {A K} `{Countable K} (key : A → K)
    (seen : gset K) (l : list A) :
  first_occurrences key seen l `sublist_of` l.
Proof.
  revert seen. induction l as [|x l IH]; intros seen; cbn; [done|].
  destruct (decide (key x ∈ seen)); [by apply sublist_cons|by apply sublist_skip].
Qed.

Lemma concat_length_bound {A} (n : nat) (ls : list (list A)) :
  Forall (λ l, (length l ≤ n)%nat) ls →
  (length (concat ls) ≤ n * length ls)%nat.
Proof.
  induction 1 as [|l ls Hl _ IH]; cbn [concat length]; [lia|].
  rewrite length_app. lia.
Qed.

Section MoreGather.
Context `{!Runtime} `{!HashOrder}.
Import DocumentHandler SmartDocumentHandler.

(** The result of [gather] on a list of strings, spelled out. *)
Lemma gather_spec h (queries : list str) limit :
  hashable_products h →
  gather h (VList (VStr <$> queries)) limit
  = Ok {| res_documents :=
            Py.slice_to limit
              (Py.sort_desc hit_relevance
                 (first_occurrences hit_filename ∅
                    (concat ((λ q, search_in_documents h q 2) <$> queries))));
          res_products :=
            Py.slice_to limit
              (first_occurrences product_key ∅
                 (concat ((λ q, search_products h q 2) <$> queries)));
          queries_used := VList (VStr <$> queries) |}.
Proof.
  intros Hhash. unfold gather. cbn [iter_queries].
  destruct (search_loop_spec h queries acc0 Hhash)
    as (a & -> & Hdocs & Hprods).
  cbn [acc0 all_doc_results seen_docs all_product_results seen_products app]
    in Hdocs, Hprods.
  by rewrite Hdocs, Hprods.
Qed.

Lemma search_loop_not_strings h (l : list value) a :
  hashable_products h →
  (¬ ∃ queries : list str, l = VStr <$> queries) →
  search_loop h l a = Raise AttributeError.
Proof.
  intros Hhash. revert a. induction l as [|v l IH]; intros a Hnot.
  { destruct Hnot. by exists []. }
  destruct v as [| | |query| |]; cbn [search_loop]; try done.
  destruct (add_products_spec (search_products h query 2)
              (add_docs (search_in_documents h query 2) a))
    as (a1 & -> & _); [by apply search_products_hashable|].
  apply IH. intros [queries ->]. apply Hnot. by exists (query :: queries).
Qed.

(** [rewrite_query] hands on whatever [search_queries] the parsed answer
    holds, and [smart_search] iterates over it unchecked.  After a parsed
    answer the topic context is already stored, and then: without
    [search_queries] the search runs on no query and returns no hit; a
    number, a Boolean or null makes [smart_search] raise [TypeError]; a
    list that holds anything but strings makes it raise
    [AttributeError]. *)
Theorem smart_search_unchecked_queries (user_input : str)
    (session_id : option str) (limit : Z) (st : state) (data : pydict) :
  rewrites_to user_input session_id st data →
  hashable_products (base_handler st) →
  (smart_search user_input session_id limit st).2
  = (rewrite_query user_input session_id st).2
  ∧ (dict_get (Py.text "search_queries") data = None →
     ∃ r, (smart_search user_input session_id limit st).1 = Ok r
          ∧ res_documents r = [] ∧ res_products r = [])
  ∧ (∀ v, dict_get (Py.text "search_queries") data = Some v →
          v = VNone ∨ (∃ b, v = VBool b) ∨ (∃ n, v = VInt n) →
          (smart_search user_input session_id limit st).1 = Raise TypeError)
  ∧ (∀ l, dict_get (Py.text "search_queries") data = Some (VList l) →
          (¬ ∃ queries : list str, l = VStr <$> queries) →
          (smart_search user_input session_id limit st).1
          = Raise AttributeError).
Proof.
  intros Hdata Hhash. unfold smart_search.
  rewrite (rewrite_query_parsed _ _ _ _ Hdata). cbn [fst snd].
  assert (base_handler
            match nonempty session_id with
            | Some sid =>
                set_context
                  (<[sid:=context_of data]> (conversation_context st)) st
            | None => st
            end = base_handler st) as ->.
  { by destruct (nonempty session_id). }
  split_and!.
  - done.
  - intros ->. cbn [default from_option id].
    pose proof (gather_spec _ [] limit Hhash) as Hgather.
    change (VList (VStr <$> [])) with (VList []) in Hgather.
    rewrite Hgather. eexists. split; [done|].
    cbn [res_documents res_products]. split; apply take_nil.
  - intros v -> [->|[[b ->]|[n ->]]]; reflexivity.
  - intros l -> Hnot. cbn [default from_option id]. unfold gather.
    cbn [iter_queries]. by rewrite search_loop_not_strings.
Qed.

Lemma search_in_documents_length h query limit :
  0 ≤ limit →
  (length (search_in_documents h query limit) ≤ Z.to_nat limit)%nat.
Proof.
  intros Hlimit. rewrite search_in_documents_unfold.
  pose proof (slice_to_length limit
                (Py.sort_desc hit_relevance (matching_hits (lower query) h))
                Hlimit). lia.
Qed.

Lemma search_products_length h query limit :
  1 ≤ limit → (length (search_products h query limit) ≤ Z.to_nat limit)%nat.
Proof.
  intros Hlimit. unfold search_products.
  rewrite products_loop_spec by (cbn; lia). rewrite length_take. lia.
Qed.

(** On the fallback path [smart_search] returns, changes nothing and
    reports the rule-based list as [queries_used].  The documents come
    in descending relevance; for a non-negative [limit] there are at most
    [limit] documents and [limit] products, and never more than two of
    either per sub-query. *)
Theorem smart_search_fallback (user_input : str) (session_id : option str)
    (limit : Z) (st : state) :
  falls_back user_input session_id st →
  hashable_products (base_handler st) →
  ∃ r,
    smart_search user_input session_id limit st = (Ok r, st)
    ∧ queries_used r = VList (VStr <$> _simple_keyword_extraction user_input)
    ∧ StronglySorted (descending hit_relevance) (res_documents r)
    ∧ (length (res_documents r)
       ≤ 2 * length (_simple_keyword_extraction user_input))%nat
    ∧ (length (res_products r)
       ≤ 2 * length (_simple_keyword_extraction user_input))%nat
    ∧ (0 ≤ limit →
       Z.of_nat (length (res_documents r)) ≤ limit
       ∧ Z.of_nat (length (res_products r)) ≤ limit).
Proof.
  intros Hfall Hhash. unfold smart_search.
  rewrite (rewrite_query_fallback _ _ _ Hfall). unfold fallback.
  rewrite (gather_spec _ _ limit Hhash). eexists. split; [done|].
  cbn [queries_used res_documents res_products].
  set (queries := _simple_keyword_extraction user_input).
  set (docs := first_occurrences hit_filename ∅ _).
  set (prods := first_occurrences product_key ∅ _).
  assert (length docs ≤ 2 * length queries)%nat as Hdocs.
  { subst docs. etrans; [apply sublist_length, first_occurrences_sublist|].
    etrans; [apply (concat_length_bound 2)|by rewrite length_fmap].
    apply Forall_fmap, Forall_forall. intros q _.
    by apply (search_in_documents_length _ _ 2). }
  assert (length prods ≤ 2 * length queries)%nat as Hprods.
  { subst prods. etrans; [apply sublist_length, first_occurrences_sublist|].
    etrans; [apply (concat_length_bound 2)|by rewrite length_fmap].
    apply Forall_fmap, Forall_forall. intros q _.
    by apply (search_products_length _ _ 2). }
  split_and!.
  - done.
  - eapply sorted_prefix; [apply slice_to_prefix|apply sort_desc_sorted].
  - etrans; [apply prefix_length, slice_to_prefix|].
    by rewrite sort_desc_perm.
  - etrans; [apply prefix_length, slice_to_prefix|]. done.
  - intros Hlimit. split; by apply slice_to_length.
Qed.

(** [get_context_aware_info] raises exactly when [smart_search] with
    limit 3 does, and leaves the handler in the state that search left.
    When it returns, the text is never empty; for a non-negative
    [max_length] it is the fixed "nothing found" text or at most
    [max_length] code points plus the 28 of the truncation mark; and
    without any hit it is the "nothing found" text. *)
Theorem get_context_aware_info_shape (user_input : str)
    (session_id : option str) (max_length : Z) (st : state) :
  (get_context_aware_info user_input session_id max_length st).2
  = (smart_search user_input session_id 3 st).2
  ∧ (∀ e, (smart_search user_input session_id 3 st).1 = Raise e →
          (get_context_aware_info user_input session_id max_length st).1
          = Raise e)
  ∧ (∀ r, (smart_search user_input session_id 3 st).1 = Ok r →
          ∃ context,
            (get_context_aware_info user_input session_id max_length st).1
            = Ok context
            ∧ context ≠ []
            ∧ (0 ≤ max_length →
               context = nothing_found
               ∨ Z.of_nat (length context) ≤ max_length + 28)
            ∧ (res_documents r = [] → res_products r = [] →
               0 ≤ max_length → context = nothing_found)).
Proof.
  unfold get_context_aware_info.
  destruct (smart_search user_input session_id 3 st) as [[r|e] st'];
    cbn [fst snd].
  2: { split_and!; [done|by intros e' [= <-]|by intros r [=]]. }
  split_and!; [done|by intros e [=]|].
  intros ? [= <-]. eexists. split; [done|]. cbv zeta.
  set (context := match res_products r with [] => _ | _ => _ end).
  split_and!.
  - destruct (Z.ltb_spec max_length (Z.of_nat (length context))).
    + destruct (Py.slice_to max_length context); discriminate.
    + destruct context; discriminate.
  - intros Hmax.
    pose proof (truncated_length context truncated_marker _ Hmax) as Hlen.
    destruct (if max_length <? _ then _ else _) eqn:Hctx; [by left|].
    right. exact Hlen.
  - intros Hdocs Hprods Hmax. subst context. rewrite Hdocs, Hprods.
    cbn [length]. change (Z.of_nat 0) with 0.
    by destruct (Z.ltb_spec max_length 0); [lia|].
Qed.

End MoreGather.

(** ** smart_document_handler.py: the first hit of an entry wins *)

Section FirstHit.
Context {A K : Type} `{Countable K} (key : A → K).

Lemma first_occurrences_intro seen before x after :
  (key x ∉ seen) → (∀ y, y ∈ before → key y ≠ key x) →
  x ∈ first_occurrences key seen (before ++ x :: after).
Proof.
  revert seen. induction before as [|y before IH]; intros seen Hseen Hbefore;
    cbn [app first_occurrences].
  { rewrite decide_False by done. left. }
  assert (key y ≠ key x) as Hy by (apply Hbefore; left).
  assert (∀ z, z ∈ before → key z ≠ key x) as Hrest.
  { intros z Hz. apply Hbefore. by right. }
  destruct (decide (key y ∈ seen)); [by apply IH|].
  right. apply IH; [set_solver|done].
Qed.

Lemma first_hit_first_occurrences (search : str → list A)
    (queries : list str) (x : A) :
  first_hit key search queries x →
  x ∈ first_occurrences key ∅ (concat (search <$> queries)).
Proof.
  intros (i & query & before & after & Hi & Hsearch & Hbefore & Hearlier).
  rewrite <- (take_drop_middle queries i query Hi).
  rewrite fmap_app, fmap_cons, concat_app. cbn [concat].
  rewrite Hsearch, <- !app_assoc, app_assoc. cbn [app].
  apply first_occurrences_intro; [set_solver|].
  intros y [Hy|Hy]%elem_of_app; [|by apply Hbefore].
  apply list_elem_of_In, in_concat in Hy as (l & Hl & Hy).
  apply list_elem_of_In, list_elem_of_fmap in Hl as (earlier & -> & Hin).
  apply list_elem_of_lookup in Hin as [j Hj].
  apply lookup_take_Some in Hj as [Hj Hlt].
  apply (Hearlier j earlier); [done|done|]. by apply list_elem_of_In.
Qed.

End FirstHit.

Section GatherFirstHit.
Context `{!Runtime} `{!HashOrder}.
Import DocumentHandler SmartDocumentHandler.

(** C7: for a list of string sub-queries and a product cache whose keys
    can be hashed, [gather] returns.  The documents it returns are the
    hits kept by the loop, sorted by relevance and cut at [limit]; the
    products are the kept hits cut at [limit].  A hit is kept exactly
    when it is the first hit of its entry: a hit of some sub-query such
    that no earlier sub-query, and no earlier hit of the same sub-query,
    hit the same file name (documents) or the same id-or-name key
    (products); it is kept as that sub-query produced it.  So no two
    returned hits share an entry, every returned hit is a first hit, and
    when [limit] is at least twice the number of sub-queries every first
    hit is returned. *)
Theorem gather_first_hit_wins (h : DocumentHandler.handler)
    (queries : list str) (limit : Z) :
  hashable_products h →
  let kept_docs :=
    first_occurrences hit_filename ∅
      (concat ((λ q, search_in_documents h q 2) <$> queries)) in
  let kept_products :=
    first_occurrences product_key ∅
      (concat ((λ q, search_products h q 2) <$> queries)) in
  ∃ r,
    gather h (VList (VStr <$> queries)) limit = Ok r
    ∧ res_documents r
      = Py.slice_to limit (Py.sort_desc hit_relevance kept_docs)
    ∧ res_products r = Py.slice_to limit kept_products
    ∧ (∀ doc, doc ∈ kept_docs
              ↔ first_hit hit_filename (λ q, search_in_documents h q 2)
                  queries doc)
    ∧ (∀ prod, prod ∈ kept_products
               ↔ first_hit product_key (λ q, search_products h q 2)
                   queries prod)
    ∧ NoDup (hit_filename <$> res_documents r)
    ∧ NoDup (product_key <$> res_products r)
    ∧ (∀ doc, doc ∈ res_documents r →
         first_hit hit_filename (λ q, search_in_documents h q 2) queries doc)
    ∧ (∀ prod, prod ∈ res_products r →
         first_hit product_key (λ q, search_products h q 2) queries prod)
    ∧ (2 * Z.of_nat (length queries) ≤ limit →
       (∀ doc,
          first_hit hit_filename (λ q, search_in_documents h q 2) queries doc →
          doc ∈ res_documents r)
       ∧ (∀ prod,
            first_hit product_key (λ q, search_products h q 2) queries prod →
            prod ∈ res_products r)).
Proof.
  intros Hhash kept_docs kept_products.
  rewrite (gather_spec h queries limit Hhash). eexists. split; [done|].
  cbn [res_documents res_products]. fold kept_docs kept_products.
  assert (∀ doc, doc ∈ kept_docs
                 ↔ first_hit hit_filename (λ q, search_in_documents h q 2)
                     queries doc) as Hdocs.
  { intros doc. split; [apply first_occurrences_first_hit|].
    apply first_hit_first_occurrences. }
  assert (∀ prod, prod ∈ kept_products
                  ↔ first_hit product_key (λ q, search_products h q 2)
                      queries prod) as Hprods.
  { intros prod. split; [apply first_occurrences_first_hit|].
    apply first_hit_first_occurrences. }
  split_and!; [done|done|done|done| | | | |].
  - eapply sublist_NoDup; [|apply fmap_sublist, sublist_take].
    rewrite sort_desc_perm. apply first_occurrences_NoDup.
  - eapply sublist_NoDup; [|apply fmap_sublist, sublist_take].
    apply first_occurrences_NoDup.
  - intros doc Hdoc. apply Hdocs.
    apply subseteq_take in Hdoc. by rewrite sort_desc_perm in Hdoc.
  - intros prod Hprod. apply Hprods. by apply subseteq_take in Hprod.
  - intros Hlimit.
    assert (length kept_docs ≤ 2 * length queries)%nat as Hlen_docs.
    { subst kept_docs.
      etransitivity; [apply sublist_length, first_occurrences_sublist|].
      etransitivity; [apply (concat_length_bound 2)|by rewrite length_fmap].
      apply Forall_fmap, Forall_forall. intros q _.
      by apply (search_in_documents_length h q 2). }
    assert (length kept_products ≤ 2 * length queries)%nat as Hlen_prods.
    { subst kept_products.
      etransitivity; [apply sublist_length, first_occurrences_sublist|].
      etransitivity; [apply (concat_length_bound 2)|by rewrite length_fmap].
      apply Forall_fmap, Forall_forall. intros q _.
      by apply (search_products_length h q 2). }
    rewrite !slice_to_take by lia. split.
    + intros doc Hdoc%Hdocs. rewrite take_ge.
      * by rewrite sort_desc_perm.
      * rewrite (Permutation_length (sort_desc_perm hit_relevance kept_docs)).
        lia.
    + intros prod Hprod%Hprods. rewrite take_ge; [done|lia].
Qed.

End GatherFirstHit.

(** The sub-queries "son 2k" and "son" on the shop: both hit both files.
    The hits of "son 2k" are kept, with the relevance 1 that query gave
    them; the hit of [bang_gia.txt] for "son", of relevance 2, is dropped
    and does not change the order.  Each product is returned once. *)
Lemma gather_first_hit_wins_witness :
  ∃ r,
    gather shop (VList (VStr <$> [Py.text "son 2k"; Py.text "son"])) 4 = Ok r
    ∧ hit_filename <$> res_documents r
      = [Py.text "son_2k.txt"; Py.text "bang_gia.txt"]
    ∧ hit_relevance <$> res_documents r = [1%nat; 1%nat]
    ∧ hit_relevance <$> search_in_documents shop (Py.text "son") 2
      = [2%nat; 1%nat]
    ∧ length (res_products r) = 2%nat
    ∧ NoDup (product_key <$> res_products r).
Proof.
  destruct (gather_first_hit_wins shop [Py.text "son 2k"; Py.text "son"] 4)
    as (r & Hrun & Hdocs & Hprods & _ & _ & _ & Hnodup & _).
  - repeat constructor; by eexists.
  - exists r. rewrite Hdocs, Hprods in *.
    split_and!; [exact Hrun|vm_compute; reflexivity..|exact Hnodup].
Defined.

(** ** smart_document_handler.py: what the sub-queries are made of *)

Lemma split_from_word (w cur rest : str) :
  Forall (λ c, Py.isspace c = false) w →
  Py.split_from cur (w ++ rest) = Py.split_from (reverse w ++ cur) rest.
Proof.
  intros Hw. revert cur. induction Hw as [|c w Hc _ IH]; intros cur; [done|].
  cbn [app Py.split_from]. rewrite Hc, IH, reverse_cons, <- app_assoc. done.
Qed.

Lemma split_join (ws : list str) :
  Forall (λ w, w ≠ [] ∧ Forall (λ c, Py.isspace c = false) w) ws →
  Py.split (Py.join (Py.text " ") ws) = ws.
Proof.
  unfold Py.split. induction 1 as [|w ws [Hne Hw] Hws IH]; [done|].
  assert (∀ rest, Py.split_from [] (w ++ rest)
                  = Py.split_from (reverse w) rest) as Hword.
  { intros rest. by rewrite split_from_word, app_nil_r. }
  assert (reverse w ≠ []) as Hrev.
  { intros Hnil%(f_equal reverse). by rewrite reverse_involutive in Hnil. }
  destruct ws as [|w2 ws]; cbn [Py.join].
  - rewrite <- (app_nil_r w) at 1. rewrite Hword. cbn [Py.split_from].
    destruct (reverse w) eqn:Hw'; [done|].
    by rewrite <- Hw', reverse_involutive.
  - rewrite Hword. change (Py.text " ") with [32%N].
    cbn [app Py.split_from]. change (Py.isspace 32) with true. cbv iota.
    destruct (reverse w) eqn:Hw'; [done|].
    rewrite <- Hw', reverse_involutive. f_equal. exact IH.
Qed.

Lemma split_from_words (cur s : str) :
  Forall (λ c, Py.isspace c = false) cur →
  Forall (λ w, w ≠ [] ∧ Forall (λ c, Py.isspace c = false) w)
         (Py.split_from cur s).
Proof.
  revert cur. induction s as [|c s IH]; intros cur Hcur; cbn [Py.split_from].
  - destruct cur as [|x cur]; [constructor|]. repeat constructor.
    + intros Hnil%(f_equal reverse).
      by rewrite reverse_involutive in Hnil.
    + by rewrite reverse_Permutation.
  - destruct (Py.isspace c) eqn:Hc; [|apply IH; by constructor].
    destruct cur as [|x cur]; [by apply IH|].
    constructor; [|by apply IH]. split.
    + intros Hnil%(f_equal reverse).
      by rewrite reverse_involutive in Hnil.
    + by rewrite reverse_Permutation.
Qed.

Lemma bigrams_elem (kws : list str) (q : str) :
  q ∈ bigrams kws →
  ∃ a b, a ∈ kws ∧ b ∈ kws ∧ q = Py.join (Py.text " ") [a; b].
Proof.
  induction kws as [|a [|b rest] IH]; cbn [bigrams];
    [by intros ?%elem_of_nil..|].
  intros [->|Hq]%elem_of_cons.
  - exists a, b. split_and!; [left|right; left|done].
  - destruct (IH Hq) as (a' & b' & Ha & Hb & ->).
    exists a', b'. split_and!; [by right|by right|done].
Qed.

Section MoreExpansion.
Context `{!Runtime} `{!HashOrder}.
Import SmartDocumentHandler.

(** The words of every rule-based sub-query are keywords of the
    utterance: lower-cased words of it that are longer than two code
    points and are not stop words.  No stop word and no short word ever
    reaches the search through the fallback. *)
Theorem simple_keyword_extraction_tokens (text query token : str) :
  query ∈ _simple_keyword_extraction text →
  token ∈ Py.split query →
  token ∈ Py.split (lower text)
  ∧ (token ∉ stop_words)
  ∧ (2 < length token)%nat.
Proof.
  intros Hquery Htoken.
  assert (token ∈ extract_keywords text) as Hkw.
  { rewrite simple_keyword_extraction_unfold in Hquery.
    apply subseteq_take in Hquery. rewrite set_iter_perm in Hquery.
    rewrite elem_of_remove_dups in Hquery.
    assert (Forall (λ w, w ≠ [] ∧ Forall (λ c, Py.isspace c = false) w)
                   (extract_keywords text)) as Hwords.
    { unfold extract_keywords. apply Forall_forall.
      intros w [_ Hw]%list_elem_of_filter. revert w Hw.
      apply Forall_forall. by apply split_from_words. }
    assert (∀ ws, Forall (λ w, w ∈ extract_keywords text) ws →
                  query = Py.join (Py.text " ") ws →
                  token ∈ extract_keywords text) as Hjoin.
    { intros ws Hws ->. rewrite split_join in Htoken.
      - by apply (proj1 (Forall_forall _ _) Hws).
      - eapply Forall_impl; [exact Hws|]. intros w Hw.
        by apply (proj1 (Forall_forall _ _) Hwords). }
    apply elem_of_app in Hquery as [Hq|[Hq|Hq]%elem_of_app].
    - case_decide; [|by apply elem_of_nil in Hq].
      apply list_elem_of_singleton in Hq.
      apply (Hjoin (extract_keywords text)); [|done].
      by apply Forall_forall.
    - apply subseteq_take in Hq. apply (Hjoin [query]); [|done].
      by repeat constructor.
    - apply bigrams_elem in Hq as (a & b & Ha & Hb & ->).
      apply (Hjoin [a; b]); [|done]. by repeat constructor. }
  unfold extract_keywords in Hkw. apply list_elem_of_filter in Hkw. tauto.
Qed.

(** The [main_topic] of a parsed answer is what the next request of the
    same session carries: the prompt then embeds it after the question
    when it is a non-empty value, and embeds nothing when it is missing,
    null or empty.  Requests of
    other sessions, and requests without a session, are built as
    before. *)
Theorem rewrite_query_carries_topic (user_input next_input sid : str)
    (st : state) (data : pydict) :
  rewrites_to user_input (Some sid) st data →
  sid ≠ [] →
  sent_prompt next_input (Some sid)
    (rewrite_query user_input (Some sid) st).2
  = query_rewrite_prompt next_input
      (if truthy (default VNone (dict_get (Py.text "main_topic") data))
       then nl ++ Py.text "Câu hỏi trước đó về: "
            ++ format_value
                 (default VNone (dict_get (Py.text "main_topic") data))
       else [])
  ∧ ∀ other,
      nonempty other ≠ Some sid →
      sent_prompt next_input other (rewrite_query user_input (Some sid) st).2
      = sent_prompt next_input other st.
Proof.
  intros Hdata Hsid. rewrite (rewrite_query_parsed _ _ _ _ Hdata).
  destruct sid as [|c sid]; [done|]. cbn [nonempty snd].
  unfold sent_prompt, previous_topic.
  cbn [nonempty conversation_context set_context mbind option_bind].
  split.
  - by rewrite lookup_insert_eq.
  - intros other Hother. destruct (nonempty other) as [sid'|]; [|done].
    cbn [mbind option_bind]. rewrite lookup_insert_ne; [done|]. congruence.
Qed.

End MoreExpansion.

Lemma from_first_spec (c : N) (s : str) :
  (from_first c s = [] ∧ c ∉ s)
  ∨ ∃ pre rest,
      s = pre ++ c :: rest ∧ (c ∉ pre) ∧ from_first c s = c :: rest.
Proof.
  induction s as [|x s IH]; cbn [from_first].
  { left. split; [done|]. apply not_elem_of_nil. }
  destruct (N.eqb_spec x c) as [->|Hne].
  - right. exists [], s. split_and!; [done|apply not_elem_of_nil|done].
  - destruct IH as [[Hnone Hnot]|(pre & rest & -> & Hpre & Hfound)].
    + left. split; [done|]. by intros [?|?]%elem_of_cons.
    + right. exists (x :: pre), rest. split_and!; [done| |done].
      by intros [?|?]%elem_of_cons.
Qed.

(** The span [rewrite_query] hands to [json.loads] runs from the first
    opening brace of the response to its last closing brace: text before
    and after the braces is dropped.  There is no span exactly when no
    closing brace follows an opening one. *)
Theorem re_search_braces_span (response : str) :
  match re_search_braces response with
  | Some json_match =>
      ∃ pre body post,
        response = pre ++ json_match ++ post
        ∧ json_match = [123%N] ++ body ++ [125%N]
        ∧ (123%N ∉ pre) ∧ (125%N ∉ post)
  | None =>
      ∀ pre mid post, response ≠ pre ++ [123%N] ++ mid ++ [125%N] ++ post
  end.
Proof.
  unfold re_search_braces.
  destruct (from_first_spec 123 response)
    as [[-> Hnone]|(pre & rest & -> & Hpre & ->)].
  { intros pre mid post ->. apply Hnone. set_solver. }
  destruct (from_first_spec 125 (reverse rest))
    as [[-> Hnone]|(pre2 & rest2 & Hrest & Hpre2 & ->)].
  - rewrite reverse_nil. intros pre' mid post Heq.
    rewrite elem_of_reverse in Hnone.
    apply app_eq_app in Heq as [l [[-> Heq]|[-> Heq]]];
      destruct l as [|x l]; simplify_eq/=.
    + apply Hnone. set_solver.
    + apply Hpre. set_solver.
    + apply Hnone. set_solver.
    + apply Hnone. set_solver.
  - apply (f_equal reverse) in Hrest.
    rewrite reverse_involutive, reverse_app, reverse_cons in Hrest.
    rewrite reverse_cons.
    destruct (reverse rest2 ++ [125%N]) as [|y body] eqn:Hbody.
    { by destruct (reverse rest2). }
    rewrite <- Hbody.
    exists pre, (reverse rest2), (reverse pre2).
    split; [|split; [done|split; [done|by rewrite elem_of_reverse]]].
    by rewrite Hrest, <- Hbody.
Qed.

(** ** document_handler.py: the loaders *)

Section MoreLoaders.
Context `{!Runtime} `{!Loaders.Indent}.
Import DocumentHandler Loaders.

Lemma cache_set_keys k v cache :
  (cache_set k v cache).*1
  = if decide (canon k ∈ canon <$> cache.*1) then cache.*1
    else cache.*1 ++ [k].
Proof.
  induction cache as [|[k' v'] cache IH]; cbn [cache_set]; [done|].
  destruct (decide (canon k = canon k')) as [Heq|Hne].
  - cbn. rewrite Heq. by rewrite decide_True by left.
  - cbn. rewrite IH.
    destruct (decide (canon k ∈ canon <$> cache.*1)) as [Hin|Hin].
    + by rewrite decide_True by by right.
    + rewrite decide_False; [done|]. by intros [?|?]%elem_of_cons.
Qed.

Lemma cache_get_set k k' v cache :
  cache_get k (cache_set k' v cache)
  = if decide (canon k = canon k') then Some v else cache_get k cache.
Proof.
  induction cache as [|[k0 v0] cache IH]; cbn [cache_set cache_get].
  { done. }
  destruct (decide (canon k' = canon k0)) as [Heq|Hne]; cbn [cache_get].
  - rewrite Heq. by destruct (decide (canon k = canon k0)).
  - rewrite IH. destruct (decide (canon k = canon k0)) as [Heq|]; [|done].
    rewrite decide_False; [done|]. congruence.
Qed.

Lemma cache_set_Forall (P : pydict → Prop) k v cache :
  P v → Forall (λ kv, P kv.2) cache →
  Forall (λ kv, P kv.2) (cache_set k v cache).
Proof.
  intros Hnew. induction 1 as [|[k' v'] cache Hhead Htail IH];
    cbn [cache_set].
  { by constructor. }
  destruct (decide (canon k = canon k')); constructor; done.
Qed.

Lemma cache_set_ok k d cache :
  NoDup d.*1 →
  (∀ v, dict_get (Py.text "id") d = Some v → is_Some (hash_key v)) →
  cache_ok cache → cache_ok (cache_set k d cache).
Proof.
  intros Hd Hid [Hkeys Hall]. split.
  - rewrite cache_set_keys. case_decide; [done|].
    rewrite fmap_app. apply NoDup_app. split_and!; [done| |apply NoDup_singleton].
    intros k' Hk' ->%list_elem_of_singleton. done.
  - by apply (cache_set_Forall
                (λ d, NoDup d.*1
                      ∧ ∀ v, dict_get (Py.text "id") d = Some v →
                             is_Some (hash_key v))).
Qed.

Lemma hash_key_key_of (v : value) : hash_key v = canon <$> key_of v.
Proof. by destruct v. Qed.

Lemma store_product_ok item cache cache' :
  (∀ d, item = VDict d → NoDup d.*1) →
  cache_ok cache →
  store_product item cache = Ok cache' →
  cache_ok cache'.
Proof.
  intros Hitem Hcache. destruct item as [| | | | |d]; try discriminate.
  cbn [store_product].
  destruct (key_of _) as [k|] eqn:Hk; [|discriminate].
  intros [= <-]. apply cache_set_ok; [by apply Hitem| |done].
  intros v Hv. rewrite Hv in Hk. cbn [default from_option id] in Hk.
  rewrite hash_key_key_of, Hk. by eexists.
Qed.

Lemma load_items_ok items cache :
  (∀ d, VDict d ∈ items → NoDup d.*1) →
  cache_ok cache →
  cache_ok (load_items items cache).2.
Proof.
  revert cache. induction items as [|item rest IH]; intros cache Hitems Hcache;
    cbn [load_items]; [done|].
  assert (∀ d, VDict d ∈ rest → NoDup d.*1) as Hrest.
  { intros d Hd. apply Hitems. by right. }
  destruct (match has_key (Py.text "id") item with
            | Ok false => has_key (Py.text "name") item
            | r => r
            end) as [[|]|e]; [|by apply IH|done].
  destruct (store_product item cache) as [cache'|e] eqn:Hstore; [|done].
  apply IH; [done|]. eapply store_product_ok; [|done|exact Hstore].
  intros d ->. apply Hitems. left.
Qed.

Lemma load_products_ok items cache :
  (∀ d, VDict d ∈ items → NoDup d.*1) →
  cache_ok cache →
  cache_ok (load_products items cache).2.
Proof.
  revert cache. induction items as [|item rest IH]; intros cache Hitems Hcache;
    cbn [load_products]; [done|].
  destruct (store_product item cache) as [cache'|e] eqn:Hstore; [|done].
  apply IH; [intros d Hd; apply Hitems; by right|].
  eapply store_product_ok; [|done|exact Hstore].
  intros d ->. apply Hitems. left.
Qed.

Lemma cache_ok_hashable (h : handler) :
  cache_ok (products_cache h) → hashable_products h.
Proof.
  intros [_ Hall]. eapply Forall_impl; [exact Hall|].
  intros [k d] [Hd Hid]. cbn [fst snd] in *.
  unfold SmartDocumentHandler.prod_key, product_hit.
  rewrite !dict_get_merge, !dict_get_reverse by done.
  destruct (dict_get (Py.text "id") d) as [v|] eqn:Hv.
  - cbn [default from_option id]. by apply Hid.
  - cbn [dict_get].
    rewrite (decide_True (P := Py.text "id" = Py.text "id")) by done.
    cbn [default from_option id]. by destruct k.
Qed.

Lemma load_items_rows (rows : list pydict) cache :
  Forall (λ row : pydict, Forall (λ kv, cell kv.2) row) rows →
  (load_items (VDict <$> rows) cache).1 = Ok ().
Proof.
  intros Hrows. revert cache.
  induction Hrows as [|row rows Hrow _ IH]; intros cache; [done|].
  cbn [fmap list_fmap load_items has_key store_product].
  assert (∀ k v, dict_get k row = Some v → cell v) as Hcell.
  { intros k v. clear -Hrow. induction Hrow as [|[k' v'] row Hkv _ IH];
      cbn [dict_get]; [done|].
    case_decide; [by intros [= <-]|done]. }
  set (key := default _ _).
  assert (is_Some (key_of key)) as [k Hk].
  { subst key.
    destruct (dict_get (Py.text "id") row) as [v|] eqn:Hid.
    { apply Hcell in Hid. by destruct v. }
    destruct (dict_get (Py.text "name") row) as [v|] eqn:Hname.
    { apply Hcell in Hname. by destruct v. }
    by eexists. }
  rewrite Hk.
  destruct (bool_decide (is_Some (dict_get (Py.text "id") row)));
    [apply IH|].
  destruct (bool_decide (is_Some (dict_get (Py.text "name") row)));
    apply IH.
Qed.

Lemma load_file_documents (f : file) (h : handler) :
  well_read f →
  documents (load_file f h)
  = match stored_document f with
    | Some doc => dict_set (file_stem f) doc (documents h)
    | None => documents h
    end.
Proof.
  intros [_ Hrows]. unfold load_file, stored_document.
  repeat case_decide.
  - by destruct (read_text f).
  - destruct (json_load f) as [data|]; [|done].
    unfold _load_json. cbn [fmap option_fmap option_map].
    by destruct (match data with VList _ => _ | _ => _ end).
  - unfold _load_csv.
    pose proof (load_items_rows (csv_rows f) (products_cache h)) as Hok.
    destruct (load_items _ _) as [r cache]. cbn [fst] in Hok.
    rewrite Hok.
    { by destruct (csv_complete f). }
    eapply Forall_impl; [exact Hrows|]. by intros row [_ ?].
  - by destruct (pdf_pages f).
  - done.
Qed.

Lemma iterate_dicts (v : value) (items : list value) (d : pydict) :
  iterate v = Ok items → VDict d ∈ items → v = VList items.
Proof.
  destruct v as [| | |s|l|kv]; try discriminate; intros [= <-].
  - intros (c & [=] & _)%list_elem_of_fmap.
  - done.
  - intros (k & [=] & _)%list_elem_of_fmap.
Qed.

Lemma load_file_cache (f : file) (h : handler) :
  well_read f →
  cache_ok (products_cache h) →
  cache_ok (products_cache (load_file f h)).
Proof.
  intros [Hjson Hrows] Hcache. unfold load_file. repeat case_decide.
  - by destruct (read_text f).
  - destruct (json_load f) as [data|] eqn:Hdata; [|done].
    unfold _load_json.
    destruct data as [| | | |items|d]; cbn [snd products_cache]; try done.
    + pose proof (load_items_ok items (products_cache h)) as Hok.
      destruct (load_items _ _) as [r cache]. cbn [snd products_cache] in *.
      apply Hok; [|done]. intros d Hd. by apply (Hjson (VList items)).
    + destruct (dict_get (Py.text "products") d) as [products|] eqn:Hprod;
        [|done].
      destruct (iterate products) as [items|e] eqn:Hiter; [|done].
      pose proof (load_products_ok items (products_cache h)) as Hok.
      destruct (load_products _ _) as [r cache]. cbn [snd products_cache] in *.
      apply Hok; [|done]. intros d' Hd'.
      apply (Hjson (VDict d)); [done|]. cbn [product_items]. rewrite Hprod.
      by rewrite (iterate_dicts _ _ _ Hiter Hd').
  - unfold _load_csv.
    pose proof (load_items_ok (VDict <$> csv_rows f) (products_cache h)) as Hok.
    destruct (load_items _ _) as [r cache]. cbn [snd] in Hok.
    assert (cache_ok cache) as Hcache'.
    { apply Hok; [|done]. intros d (row & [= <-] & Hrow)%list_elem_of_fmap.
      by apply (proj1 (Forall_forall _ _) Hrows) in Hrow as [? _]. }
    by destruct r, (csv_complete f).
  - by destruct (pdf_pages f).
  - done.
Qed.

Lemma load_all_documents_snoc (files : list file) (f : file) (h : handler) :
  load_all_documents (files ++ [f]) h
  = load_file f (load_all_documents files h).
Proof. unfold load_all_documents. by rewrite foldl_app. Qed.

(** Whatever the files hold and whichever of them fail to load, the
    corpus [load_all_documents] builds lists every document name once,
    caches every product key once, and holds only products whose id, or
    else name, can be hashed: the precondition under which gathering
    search hits never raises.  The keys are distinct up to [==]: [True]
    and 1 are never both keys. *)
Theorem load_all_documents_corpus (files : list file) (h : handler) :
  Forall well_read files →
  NoDup (list_all_documents (load_all_documents files h))
  ∧ NoDup (products_cache (load_all_documents files h)).*1
  ∧ hashable_products (load_all_documents files h)
  ∧ NoDup (canon <$> (products_cache (load_all_documents files h)).*1).
Proof.
  intros Hfiles.
  assert (NoDup (list_all_documents (load_all_documents files h))
          ∧ cache_ok (products_cache (load_all_documents files h)))
    as [Hdocs Hcache].
  { induction files as [|f files IH] using rev_ind.
    { split; [apply NoDup_nil_2|]. split; [apply NoDup_nil_2|constructor]. }
    apply Forall_app in Hfiles as [Hfiles [Hf _]%Forall_cons].
    destruct (IH Hfiles) as [Hdocs Hcache].
    rewrite load_all_documents_snoc. split; [|by apply load_file_cache].
    unfold list_all_documents in *. rewrite load_file_documents by done.
    destruct (stored_document f); [|done].
    rewrite dict_set_keys. case_decide; [done|].
    apply NoDup_app. split_and!; [done| |apply NoDup_singleton].
    intros k Hk ->%list_elem_of_singleton. done. }
  split_and!; [done| |by apply cache_ok_hashable|apply Hcache].
  eapply NoDup_fmap_1, Hcache.
Qed.

(** A document name is bound to what the last file of that stem that
    loaded left there: a file that cannot be read or parsed, or whose
    extension no loader takes, neither stops the files after it nor
    removes what a file before it stored; and what was loaded before the
    call is gone. *)
Theorem load_all_documents_last_stored (files : list file) (h : handler)
    (doc_name : str) :
  Forall well_read files →
  get_document doc_name (load_all_documents files h)
  = last (omap stored_document
            (filter (λ f, file_stem f = doc_name) files)).
Proof.
  intros Hfiles. induction files as [|f files IH] using rev_ind; [done|].
  apply Forall_app in Hfiles as [Hfiles [Hf _]%Forall_cons].
  rewrite load_all_documents_snoc, filter_app, omap_app.
  unfold get_document in *. rewrite load_file_documents by done.
  rewrite filter_cons, filter_nil.
  destruct (decide (file_stem f = doc_name)) as [<-|Hne].
  - cbn [omap list_omap]. destruct (stored_document f) as [doc|].
    + rewrite dict_get_set, decide_True by done. by rewrite last_snoc.
    + rewrite app_nil_r. by apply IH.
  - cbn [omap list_omap]. rewrite app_nil_r.
    destruct (stored_document f) as [doc|]; [|by apply IH].
    rewrite dict_get_set, decide_False by done. by apply IH.
Qed.

Lemma load_items_app (items rest : list value) cache :
  (load_items items cache).1 = Ok () →
  load_items (items ++ rest) cache
  = load_items rest (load_items items cache).2.
Proof.
  revert cache. induction items as [|item items IH]; intros cache;
    cbn [app load_items]; [done|].
  destruct (match has_key (Py.text "id") item with
            | Ok false => has_key (Py.text "name") item
            | r => r
            end) as [[|]|e]; [|by apply IH|done].
  destruct (store_product item cache) as [cache'|e]; [by apply IH|done].
Qed.

Lemma load_products_app (items rest : list value) cache :
  (load_products items cache).1 = Ok () →
  load_products (items ++ rest) cache
  = load_products rest (load_products items cache).2.
Proof.
  revert cache. induction items as [|item items IH]; intros cache;
    cbn [app load_products]; [done|].
  destruct (store_product item cache) as [cache'|e]; [by apply IH|done].
Qed.

(** [_load_json] stores the document before it looks at the products, and
    a product loop that raises keeps what it stored so far.  In a list, a
    member that is [null], a boolean or a number raises [TypeError] at the
    membership test; under ['products'], a member that is not an object
    raises [AttributeError].  Either way the products before it are
    cached, those after it are never looked at, and the document is
    there. *)
Theorem load_json_stops_at_bad_item (stem name path : str)
    (items rest : list value) (bad : value) (h : handler) :
  let stored data :=
    Some {| doc_filename := name; doc_filepath := path; doc_type := json;
            doc_content := json_dumps_indent data |} in
  ((load_items items (products_cache h)).1 = Ok () →
   match bad with VNone | VBool _ | VInt _ => True | _ => False end →
   let data := VList (items ++ bad :: rest) in
   let out := _load_json stem name path data h in
   out.1 = Raise TypeError
   ∧ products_cache out.2 = (load_items items (products_cache h)).2
   ∧ get_document stem out.2 = stored data)
  ∧ (∀ d,
       dict_get (Py.text "products") d = Some (VList (items ++ bad :: rest)) →
       (load_products items (products_cache h)).1 = Ok () →
       match bad with VDict _ => False | _ => True end →
       let out := _load_json stem name path (VDict d) h in
       out.1 = Raise AttributeError
       ∧ products_cache out.2 = (load_products items (products_cache h)).2
       ∧ get_document stem out.2 = stored (VDict d)).
Proof.
  cbn zeta. split.
  - intros Hok Hbad. unfold _load_json, get_document.
    rewrite load_items_app by done.
    destruct (load_items items (products_cache h)) as [r cache].
    cbn [fst snd] in *.
    assert (load_items (bad :: rest) cache = (Raise TypeError, cache)) as ->.
    { by destruct bad. }
    cbn [fst snd documents products_cache]. split_and!; [done|done|].
    rewrite dict_get_set. by rewrite decide_True.
  - intros d Hd Hok Hbad. unfold _load_json, get_document. rewrite Hd.
    cbn [iterate]. rewrite load_products_app by done.
    destruct (load_products items (products_cache h)) as [r cache].
    cbn [fst snd] in *.
    assert (load_products (bad :: rest) cache = (Raise AttributeError, cache))
      as ->.
    { by destruct bad. }
    cbn [fst snd documents products_cache]. split_and!; [done|done|].
    rewrite dict_get_set. by rewrite decide_True.
Qed.

Lemma load_items_one (item : value) cache :
  (load_items [item] cache).1 = Ok () →
  (load_items [item] cache).2
  = match item_key item, item_dict item with
    | Some k, Some d => cache_set k d cache
    | _, _ => cache
    end.
Proof.
  cbn [load_items]. destruct item as [| | |s|l|d]; cbn [has_key]; try done.
  - unfold item_key. destruct (Py.contains (Py.text "id") s);
      [done|]. by destruct (Py.contains (Py.text "name") s).
  - unfold item_key. destruct (existsb (is_str (Py.text "id")) l);
      [done|]. by destruct (existsb (is_str (Py.text "name")) l).
  - cbn [item_key item_dict store_product].
    set (key := default _ _).
    destruct (bool_decide (is_Some (dict_get (Py.text "id") d)));
      cbn [orb].
    { by destruct (key_of key). }
    destruct (bool_decide (is_Some (dict_get (Py.text "name") d)));
      [|done].
    by destruct (key_of key).
Qed.

(** Among the products of one list, the last one stored under a key is
    the one the cache holds under it: a later product with an equal id,
    or an equal name when it has no id, replaces the earlier one, and a
    key no member of the list has keeps the product it had.  Keys are
    equal as Python's [==] has it, [True] being 1. *)
Theorem load_items_last_wins (items : list value)
    (cache : list (pykey * pydict)) (k : pykey) :
  (load_items items cache).1 = Ok () →
  cache_get k (load_items items cache).2
  = match last (filter (λ item, canon <$> item_key item = Some (canon k))
                       items) with
    | Some item => item_dict item
    | None => cache_get k cache
    end.
Proof.
  induction items as [|item items IH] using rev_ind; [done|].
  intros Hok.
  assert ((load_items items cache).1 = Ok ()) as Hitems.
  { clear -Hok. revert cache Hok.
    induction items as [|x items IH]; intros cache; cbn [app load_items];
      [done|].
    destruct (match has_key (Py.text "id") x with
              | Ok false => has_key (Py.text "name") x
              | r => r
              end) as [[|]|e]; [|by apply IH|done].
    destruct (store_product x cache) as [cache'|e]; [by apply IH|done]. }
  rewrite load_items_app in Hok |- * by done.
  rewrite load_items_one by done. rewrite filter_app, filter_cons, filter_nil.
  destruct (decide (canon <$> item_key item = Some (canon k))) as [Hk|Hk].
  - rewrite last_snoc.
    destruct (item_key item) as [k'|] eqn:Hkey; [|discriminate].
    destruct item as [| | | | |d]; try discriminate. cbn [item_dict].
    rewrite cache_get_set. rewrite decide_True; [done|].
    by injection Hk as <-.
  - rewrite app_nil_r, <- IH by done.
    destruct (item_key item) as [k'|] eqn:Hkey; [|done].
    destruct (item_dict item) as [d|]; [|done].
    rewrite cache_get_set. rewrite decide_False; [done|].
    intros Heq. apply Hk. cbn. by rewrite Heq.
Qed.

End MoreLoaders.

(** * The further properties on the example data *)

Import DocumentHandler Loaders MemoryManager SmartDocumentHandler.

(** ** memory_manager.py *)

(** A first read of [user_123] returns the empty list and creates the
    session. *)
Lemma get_history_reads_witness :
  (get_history (Some (Py.text "user_123")) (Py.text "consulting") ∅).1
  = Ok []
  ∧ get_active_sessions
      (get_history (Some (Py.text "user_123")) (Py.text "consulting") ∅).2
    = S (get_active_sessions ∅).
Proof.
  destruct (get_history_reads (Some (Py.text "user_123"))
              (Py.text "consulting") ∅) as (_ & _ & Hnew & _).
  destruct (Hnew (Py.text "user_123")) as (Hret & Hsize & _);
    [reflexivity|reflexivity|].
  split; [exact Hret|exact Hsize].
Defined.

(** A sweep 25 hours after the only message, with a threshold of 24
    hours, deletes one session of two; with a threshold of 24000000000
    hours it raises and both sessions stay. *)
Lemma cleanup_old_sessions_count_witness :
  (1 + get_active_sessions
         (cleanup_old_sessions (25 * 3600000000) 24
            (<[Py.text "khach_moi" := new_session]>
               (<[Py.text "user_123" := one_message]> ∅))).2)%nat
  = get_active_sessions
      (<[Py.text "khach_moi" := new_session]>
         (<[Py.text "user_123" := one_message]> ∅))
  ∧ (cleanup_old_sessions (25 * 3600000000) 24000000000
       (<[Py.text "khach_moi" := new_session]>
          (<[Py.text "user_123" := one_message]> ∅))).2
    = <[Py.text "khach_moi" := new_session]>
        (<[Py.text "user_123" := one_message]> ∅).
Proof.
  pose proof (cleanup_old_sessions_count (25 * 3600000000) 24
                (<[Py.text "khach_moi" := new_session]>
                   (<[Py.text "user_123" := one_message]> ∅))) as Hcount.
  pose proof (cleanup_old_sessions_count (25 * 3600000000) 24000000000
                (<[Py.text "khach_moi" := new_session]>
                   (<[Py.text "user_123" := one_message]> ∅))) as Hraise.
  assert ((cleanup_old_sessions (25 * 3600000000) 24
             (<[Py.text "khach_moi" := new_session]>
                (<[Py.text "user_123" := one_message]> ∅))).1 = Ok 1%nat)
    as Hone by (vm_compute; reflexivity).
  assert ((cleanup_old_sessions (25 * 3600000000) 24000000000
             (<[Py.text "khach_moi" := new_session]>
                (<[Py.text "user_123" := one_message]> ∅))).1
          = Raise OverflowError)
    as Hover by (vm_compute; reflexivity).
  rewrite Hone in Hcount. rewrite Hover in Hraise.
  split; [exact Hcount|]. by destruct Hraise as (_ & _ & Hsame).
Defined.

(** The second sweep of the same memory returns 0. *)
Lemma cleanup_old_sessions_twice_witness :
  (cleanup_old_sessions (25 * 3600000000) 24
     (cleanup_old_sessions (25 * 3600000000) 24
        (<[Py.text "khach_moi" := new_session]>
           (<[Py.text "user_123" := one_message]> ∅))).2).1
  = Ok 0%nat.
Proof.
  rewrite cleanup_old_sessions_twice.
  assert ((cleanup_old_sessions (25 * 3600000000) 24
             (<[Py.text "khach_moi" := new_session]>
                (<[Py.text "user_123" := one_message]> ∅))).1 = Ok 1%nat)
    as -> by (vm_compute; reflexivity).
  reflexivity.
Defined.

(** A consulting message leaves the classification log alone. *)
Lemma add_message_frame_witness :
  log_of (Py.text "user_123") (Py.text "phanloai")
    (@add_message cap_two 0 (Some (Py.text "user_123"))
       (Py.text "consulting") (Py.text "user") (Py.text "xin chao")
       one_session).2
  = log_of (Py.text "user_123") (Py.text "phanloai") one_session.
Proof.
  apply (@add_message_frame cap_two). right. intros Heq.
  vm_compute in Heq. discriminate.
Defined.

(** The session a first contact creates keeps its three channels when a
    message is appended. *)
Lemma exact_channels_invariant_witness :
  exact_channels
    (@add_message cap_two 0 (Some (Py.text "user_123"))
       (Py.text "consulting") (Py.text "user") (Py.text "xin chao")
       one_session).2.
Proof.
  destruct (@exact_channels_invariant cap_two one_session) as (_ & Hadd & _).
  - apply exact_channels_ensure, exact_channels_empty.
  - apply Hadd.
Defined.

(** An append for [order_status], which no session has, raises. *)
Lemma add_message_outcome_witness :
  (@add_message cap_two 0 (Some (Py.text "user_123"))
     (Py.text "order_status") (Py.text "user") (Py.text "xin chao")
     one_session).1
  = Raise (KeyError (Py.text "order_status")).
Proof.
  rewrite (@add_message_outcome cap_two).
  - vm_compute. reflexivity.
  - apply exact_channels_ensure, exact_channels_empty.
Defined.

(** ** document_handler.py *)

(** The snippet of [son_2k.txt] starts with a letter. *)
Lemma make_hit_snippet_bounded_witness :
  (length (hit_snippet
             (make_hit (Py.text "son") (Py.text "son_2k")
                {| doc_filename := Py.text "son_2k.txt";
                   doc_filepath := Py.text "documents/son_2k.txt";
                   doc_type := text;
                   doc_content := Py.text "  Son 2K do bong cao  " |}))
   ≤ 400)%nat
  ∧ Py.isspace 83 = false.
Proof.
  destruct (make_hit_snippet_bounded (Py.text "son") (Py.text "son_2k")
              {| doc_filename := Py.text "son_2k.txt";
                 doc_filepath := Py.text "documents/son_2k.txt";
                 doc_type := text;
                 doc_content := Py.text "  Son 2K do bong cao  " |})
    as (Hlen & Hhead & _).
  split; [exact Hlen|]. apply Hhead. vm_compute. reflexivity.
Defined.

(** Both products of the shop mention "son"; one is asked for, and none. *)
Lemma search_products_limit_witness :
  search_products shop (Py.text "son") 1
  = take 1 (matching_products (lower (Py.text "son")) shop)
  ∧ length (search_products shop (Py.text "son") 0) = 1%nat.
Proof.
  destruct (search_products_limit shop (Py.text "son") 1) as [Hpos _].
  destruct (search_products_limit shop (Py.text "son") 0) as [_ Hzero].
  split; [apply Hpos; lia|]. rewrite Hzero by lia. vm_compute. reflexivity.
Defined.

(** The product [{"name": true}] is cached under its name, the key
    [True], and its hit gets that very object as its id. *)
Lemma product_hit_fields_witness :
  (load_items [VDict [(Py.text "name", VBool true)]] []).2
  = [(KBool true, [(Py.text "name", VBool true)])]
  ∧ dict_get (Py.text "id")
      (product_hit (KBool true) [(Py.text "name", VBool true)])
    = Some (VBool true).
Proof.
  split; [vm_compute; reflexivity|].
  destruct (product_hit_fields (KBool true) [(Py.text "name", VBool true)])
    as [Hid _].
  - apply NoDup_singleton.
  - rewrite Hid. vm_compute. reflexivity.
Defined.

(** The two text files are listed once each. *)
Lemma load_txt_get_document_witness :
  NoDup (list_all_documents two_files).
Proof.
  destruct (load_txt_get_document
              (Py.text "son_2k") (Py.text "son_2k.txt")
              (Py.text "documents/son_2k.txt") (Py.text "Son 2K do bong cao")
              empty_handler) as (_ & _ & _ & Hfirst & _).
  destruct (load_txt_get_document
              (Py.text "bang_gia") (Py.text "bang_gia.txt")
              (Py.text "documents/bang_gia.txt") (Py.text "Son 1K va son 2K")
              (load_txt
                 (Py.text "son_2k") (Py.text "son_2k.txt")
                 (Py.text "documents/son_2k.txt")
                 (Py.text "Son 2K do bong cao") empty_handler))
    as (_ & _ & _ & Hsecond & _).
  apply Hsecond, Hfirst, NoDup_nil_2.
Defined.

Lemma two_files_distinct : NoDup (list_all_documents two_files).
Proof. apply (bool_decide_unpack _). vm_compute. exact I. Qed.

(** The hits for "son" in the two files name two documents. *)
Lemma search_in_documents_distinct_witness :
  NoDup (hit_document <$> search_in_documents two_files (Py.text "son") 5).
Proof. apply search_in_documents_distinct, two_files_distinct. Defined.

(** Nothing is loaded: the context is the not-found sentence. *)
Lemma get_relevant_context_shape_witness :
  get_relevant_context empty_handler (Py.text "son") 2000 = not_found.
Proof.
  destruct (get_relevant_context_shape empty_handler (Py.text "son") 2000)
    as (_ & _ & Hnone).
  rewrite Hnone; reflexivity.
Defined.

(** ** smart_document_handler.py *)

Lemma two_files_hashable : hashable_products two_files.
Proof. constructor. Qed.

(** The answer without [search_queries] gives a search without hits. *)
Lemma smart_search_unchecked_queries_witness :
  ∃ r,
    (smart_search (Py.text "son 2k gia bao nhieu") (Some (Py.text "user_123"))
       5 topic_only_model).1 = Ok r
    ∧ res_documents r = [] ∧ res_products r = [].
Proof.
  destruct (smart_search_unchecked_queries (Py.text "son 2k gia bao nhieu")
              (Some (Py.text "user_123")) 5 topic_only_model
              [(Py.text "main_topic", VStr (Py.text "son 2k"))]
              topic_only_rewrites two_files_hashable)
    as (_ & Hmissing & _).
  apply Hmissing. vm_compute. reflexivity.
Defined.

(** Without a capability the search of the two files returns at most
    three documents. *)
Lemma smart_search_fallback_witness :
  ∃ r,
    smart_search (Py.text "son 2k gia bao nhieu") (Some (Py.text "user_123"))
      3 no_model = (Ok r, no_model)
    ∧ Z.of_nat (length (res_documents r)) ≤ 3.
Proof.
  destruct (smart_search_fallback (Py.text "son 2k gia bao nhieu")
              (Some (Py.text "user_123")) 3 no_model)
    as (r & Hrun & _ & _ & _ & _ & Hlimit).
  - apply no_capability. reflexivity.
  - apply two_files_hashable.
  - exists r. split; [exact Hrun|]. apply Hlimit. lia.
Defined.

Lemma topic_only_search :
  ∃ r,
    (smart_search (Py.text "son 2k gia bao nhieu") (Some (Py.text "user_123"))
       3 topic_only_model).1 = Ok r.
Proof. vm_compute. eexists. reflexivity. Qed.

(** The search without hits is rendered as a text that is not empty. *)
Lemma get_context_aware_info_shape_witness :
  ∃ context,
    (get_context_aware_info (Py.text "son 2k gia bao nhieu")
       (Some (Py.text "user_123")) 2000 topic_only_model).1 = Ok context
    ∧ context ≠ [].
Proof.
  destruct (get_context_aware_info_shape (Py.text "son 2k gia bao nhieu")
              (Some (Py.text "user_123")) 2000 topic_only_model)
    as (_ & _ & Hok).
  destruct topic_only_search as [r Hr].
  destruct (Hok r Hr) as (context & Hrun & Hne & _).
  exists context. split; [exact Hrun|exact Hne].
Defined.

(** The sub-query "son gia" of "son 2k gia bao nhieu" and its word
    "gia". *)
Lemma simple_keyword_extraction_tokens_witness :
  Py.text "gia" ∈ Py.split (lower (Py.text "son 2k gia bao nhieu"))
  ∧ (Py.text "gia" ∉ stop_words)
  ∧ (2 < length (Py.text "gia"))%nat.
Proof.
  apply (simple_keyword_extraction_tokens
           (Py.text "son 2k gia bao nhieu") (Py.text "son gia")).
  - apply (bool_decide_unpack _). vm_compute. exact I.
  - apply (bool_decide_unpack _). vm_compute. exact I.
Defined.

(** The topic "son 2k" of the first answer is in the prompt of the next
    question of [user_123], in place of the topic "son 1k" the session
    had before. *)
Lemma rewrite_query_carries_topic_witness :
  sent_prompt (Py.text "gia bao nhieu") (Some (Py.text "user_123"))
    (rewrite_query (Py.text "son 2k gia bao nhieu")
       (Some (Py.text "user_123")) full_model).2
  = query_rewrite_prompt (Py.text "gia bao nhieu")
      (nl ++ Py.text "Câu hỏi trước đó về: " ++ Py.text "son 2k").
Proof.
  assert (Py.text "user_123" ≠ []) as Hsid.
  { intros Heq. vm_compute in Heq. discriminate. }
  destruct (rewrite_query_carries_topic (Py.text "son 2k gia bao nhieu")
              (Py.text "gia bao nhieu") (Py.text "user_123") full_model
              full_data full_rewrites Hsid) as [Hprompt _].
  rewrite Hprompt. reflexivity.
Defined.

(** The span of [ok {a} bye]. *)
Lemma re_search_braces_span_witness :
  ∃ pre body post,
    Py.text "ok {a} bye" = pre ++ Py.text "{a}" ++ post
    ∧ Py.text "{a}" = [123%N] ++ body ++ [125%N]
    ∧ (123%N ∉ pre) ∧ (125%N ∉ post).
Proof.
  pose proof (re_search_braces_span (Py.text "ok {a} bye")) as Hspan.
  assert (re_search_braces (Py.text "ok {a} bye") = Some (Py.text "{a}"))
    as Hfound by (vm_compute; reflexivity).
  rewrite Hfound in Hspan. exact Hspan.
Defined.

(** ** document_handler.py: the loaders *)

Lemma directory_well_read : Forall well_read directory.
Proof.
  assert (∀ f, json_load f = None → csv_rows f = [] → well_read f) as Hplain.
  { intros f Hjson Hrows. split; [|rewrite Hrows; constructor].
    intros data d. rewrite Hjson. discriminate. }
  unfold directory. apply Forall_cons_2; [by apply Hplain|].
  apply Forall_cons_2; [by apply Hplain|].
  apply Forall_cons_2; [|apply Forall_cons_2; [by apply Hplain|constructor]].
  split; [|constructor].
  intros data d [= <-] Hin. cbn [product_items] in Hin.
  apply elem_of_cons in Hin as [[= ->]|Hin];
    [apply (bool_decide_unpack _); vm_compute; exact I|].
  apply elem_of_cons in Hin as [[=]|Hin].
  apply list_elem_of_singleton in Hin as [= ->].
  apply (bool_decide_unpack _). vm_compute. exact I.
Qed.

(** The directory with a broken file and a bad product list still gives a
    corpus without repeated names or keys. *)
Lemma load_all_documents_corpus_witness :
  NoDup (list_all_documents (load_all_documents directory two_files))
  ∧ NoDup (products_cache (load_all_documents directory two_files)).*1
  ∧ hashable_products (load_all_documents directory two_files)
  ∧ NoDup (canon <$> (products_cache
                        (load_all_documents directory two_files)).*1).
Proof. apply load_all_documents_corpus, directory_well_read. Defined.

(** The text file is loaded although its extension is in upper case, the
    broken file leaves nothing, and the files loaded before are gone. *)
Lemma load_all_documents_last_stored_witness :
  get_document (Py.text "notes") (load_all_documents directory two_files)
  = Some {| doc_filename := Py.text "notes.TXT";
            doc_filepath := Py.text "documents/notes.TXT";
            doc_type := text;
            doc_content := Py.text "Son 2K do bong cao" |}
  ∧ get_document (Py.text "broken") (load_all_documents directory two_files)
    = None
  ∧ get_document (Py.text "son_2k") (load_all_documents directory two_files)
    = None.
Proof.
  rewrite !load_all_documents_last_stored by apply directory_well_read.
  vm_compute. done.
Defined.

(** The catalogue [[son_2k, 7, son_1k]]: the first product is cached, the
    number raises, the last product is never reached. *)
Lemma load_json_stops_at_bad_item_witness :
  (_load_json (Py.text "catalog") (Py.text "catalog.json")
     (Py.text "documents/catalog.json")
     (VList ([VDict son_2k] ++ VInt 7 :: [VDict son_1k])) empty_handler).1
  = Raise TypeError
  ∧ products_cache
      (_load_json (Py.text "catalog") (Py.text "catalog.json")
         (Py.text "documents/catalog.json")
         (VList ([VDict son_2k] ++ VInt 7 :: [VDict son_1k]))
         empty_handler).2
    = [(KStr (Py.text "son-2k"), son_2k)].
Proof.
  pose proof (load_json_stops_at_bad_item
                (Py.text "catalog") (Py.text "catalog.json")
                (Py.text "documents/catalog.json")
                [VDict son_2k] [VDict son_1k] (VInt 7) empty_handler)
    as Hstop.
  cbn zeta in Hstop. destruct Hstop as [Hlist _].
  destruct Hlist as (Hraise & Hcache & _); [reflexivity|exact I|].
  split; [exact Hraise|]. rewrite Hcache. vm_compute. reflexivity.
Defined.

(** Two products with the id [son-2k]: the cache holds the second. *)
Lemma load_items_last_wins_witness :
  cache_get (KStr (Py.text "son-2k"))
    (load_items
       [VDict son_2k;
        VDict [(Py.text "id", VStr (Py.text "son-2k"));
               (Py.text "name", VStr (Py.text "Son 2K Trang"))]] []).2
  = Some [(Py.text "id", VStr (Py.text "son-2k"));
          (Py.text "name", VStr (Py.text "Son 2K Trang"))].
Proof.
  rewrite load_items_last_wins by reflexivity. vm_compute. reflexivity.
Defined.
